(** * News sentiment analysis: ensemble scoring and verdict store

    A shallow embedding of [src/sentiment_analyzer.py], [config.py],
    [src/data_manager.py] and the article selection of
    [src/news_fetcher.py], followed by the properties of the specification
    that were checked against it and by further properties of the code.

    Conventions of the embedding.
    - Python [float] values are modelled by exact rationals ([Q]); every
      comparison the code makes ([<], [>], [>=], [<=]) is the rational one.
    - A Python [dict] is an association list in insertion order with unique
      keys; [d[k]] on a missing key raises [KeyError], which is [None] in
      the option monad below.
    - A Python [str] holding document text is a list of Unicode code points
      ([N]); labels, model names and dictionary keys are [string].
    - The wall clock, the classifiers (VADER, TextBlob, the transformer
      pipelines) and the non-ASCII part of the interpreter's Unicode tables
      are inputs of the functions that use them. *)

From Stdlib Require Import List String Ascii Bool Arith NArith ZArith QArith.
From Stdlib Require Import Qabs Qround Qminmax Lia Lqa.
Import ListNotations.

Set Implicit Arguments.

(* ================================================================== *)
(** * Python values and helpers *)
(* ================================================================== *)

Module Py.

(** Exceptions are not distinguished by class: [None] is "an exception
    was raised". *)
Definition bind {A B : Type} (m : option A) (k : A -> option B) : option B :=
  match m with
  | Some a => k a
  | None => None
  end.

Notation "x <- m ;; k" := (bind m (fun x => k))
  (at level 61, m at next level, right associativity).

(** [for x in xs: st = body(st, x)], where the body may raise. *)
Fixpoint for_each {S X : Type} (body : S -> X -> option S) (xs : list X) (st : S)
  : option S :=
  match xs with
  | [] => Some st
  | x :: rest => st' <- body st x ;; for_each body rest st'
  end.

(** ** Dictionaries *)

Definition dict (V : Type) : Type := list (string * V).

Definition keys {V : Type} (d : dict V) : list string := map fst d.

(** [d[k]] (raising [KeyError]) and the lookup inside [d.get(k, default)]. *)
Fixpoint dict_get {V : Type} (k : string) (d : dict V) : option V :=
  match d with
  | [] => None
  | (k', v) :: rest => if String.eqb k k' then Some v else dict_get k rest
  end.

Definition get_default {V : Type} (k : string) (default : V) (d : dict V) : V :=
  match dict_get k d with
  | Some v => v
  | None => default
  end.

(** [d[k] = v]: an existing key keeps its position, a new key goes last. *)
Fixpoint dict_set {V : Type} (k : string) (v : V) (d : dict V) : dict V :=
  match d with
  | [] => [(k, v)]
  | (k', v') :: rest =>
      if String.eqb k k' then (k', v) :: rest else (k', v') :: dict_set k v rest
  end.

Definition well_formed {V : Type} (d : dict V) : Prop := NoDup (keys d).

(** ** Numbers *)

Definition lt (x y : Q) : bool := negb (Qle_bool y x).
Definition le (x y : Q) : bool := Qle_bool x y.

(** Two-argument [max(a, b)] and [min(a, b)]: the first argument is kept
    unless the second is strictly better. *)
Definition max2 (a b : Q) : Q := if lt a b then b else a.
Definition min2 (a b : Q) : Q := if lt b a then b else a.

Definition abs (x : Q) : Q := if lt x 0 then - x else x.

(** [max(d, key=d.get)]: the first key whose value is not exceeded by a
    later one; [ValueError] on an empty dictionary. *)
Definition max_step (best item : string * Q) : string * Q :=
  if lt (snd best) (snd item) then item else best.

Definition max_by_value (d : dict Q) : option string :=
  match d with
  | [] => None
  | first :: rest => Some (fst (fold_left max_step rest first))
  end.

(** [round(x, 3)] on the exact value: nearest multiple of 1/1000, a tie
    going to the even one. *)
Definition round3 (x : Q) : Q :=
  let scaled := x * 1000 in
  let lo := Qfloor scaled in
  let frac := scaled - inject_Z lo in
  let n := if lt frac (1 # 2) then lo
           else if lt (1 # 2) frac then (lo + 1)%Z
           else if Z.even lo then lo else (lo + 1)%Z in
  Qred (inject_Z n / 1000).

End Py.

Import Py.

(* ================================================================== *)
(** * config.py *)
(* ================================================================== *)

Module Config.
Definition CONFIDENCE_THRESHOLD : Q := 0.6.
End Config.

(* ================================================================== *)
(** * Text: code points, character classes, [str] methods *)
(* ================================================================== *)

Module Unicode.

Local Open Scope N_scope.

Definition char : Type := N.
Definition text : Type := list char.

Definition ch (a : ascii) : char := N_of_ascii a.
Definition codes (s : string) : text := map N_of_ascii (list_ascii_of_string s).

Definition in_range (lo hi c : char) : bool := (lo <=? c) && (c <=? hi).
Definition one_of (s : string) (c : char) : bool := existsb (N.eqb c) (codes s).

(** What [str.isspace] and [str.isalnum] answer above U+007F depends on
    the interpreter's Unicode database; it is an input. *)
Record tables : Type := {
  other_space : char -> bool;
  other_alnum : char -> bool
}.

Definition ascii_space (c : char) : bool := in_range 9 13 c || in_range 28 32 c.
Definition ascii_alnum (c : char) : bool :=
  in_range 48 57 c || in_range 65 90 c || in_range 97 122 c.

Definition isspace (T : tables) (c : char) : bool :=
  if c <? 128 then ascii_space c else other_space T c.
Definition isalnum (T : tables) (c : char) : bool :=
  if c <? 128 then ascii_alnum c else other_alnum T c.

(** The regular-expression category [\w]. *)
Definition isword (T : tables) (c : char) : bool := isalnum T c || N.eqb c (ch "_").

(** The tables of CPython for U+0080..U+00FF (nothing above is classified). *)
Definition latin1 : tables := {|
  other_space := fun c => N.eqb c 133 || N.eqb c 160;
  other_alnum := fun c =>
    N.eqb c 170 || in_range 178 179 c || N.eqb c 181 || in_range 185 186 c
    || in_range 188 190 c || in_range 192 214 c || in_range 216 246 c
    || in_range 248 255 c
|}.

(** [s.strip()] *)
Fixpoint lstrip (T : tables) (s : text) : text :=
  match s with
  | [] => []
  | c :: rest => if isspace T c then lstrip T rest else s
  end.

Definition rstrip (T : tables) (s : text) : text := rev (lstrip T (rev s)).
Definition strip (T : tables) (s : text) : text := rstrip T (lstrip T s).

(** [s.split(sep)] for a one-character separator: always at least one piece. *)
Fixpoint split (sep : char) (s : text) : list text :=
  match s with
  | [] => [[]]
  | c :: rest =>
      if N.eqb c sep then [] :: split sep rest
      else match split sep rest with
           | piece :: pieces => (c :: piece) :: pieces
           | [] => [[c]]
           end
  end.

(** [s.lower()] on an ASCII label. *)
Definition lower_ascii (a : ascii) : ascii :=
  let n := nat_of_ascii a in
  if (65 <=? n)%nat && (n <=? 90)%nat then ascii_of_nat (n + 32) else a.

Fixpoint lower (s : string) : string :=
  match s with
  | EmptyString => EmptyString
  | String a rest => String (lower_ascii a) (lower rest)
  end.

End Unicode.

Import Unicode.

(* ================================================================== *)
(** * The part of [re] that the normalizer uses *)
(* ================================================================== *)

Module Re.

(** Patterns.  [Lit] is a literal character, [Class] a bracket expression
    or a category such as [\s], [Opt] is [r?] and [Plus] is [r+], both
    greedy. *)
Inductive regex : Type :=
| Lit (c : char)
| Class (p : char -> bool)
| Seq (r1 r2 : regex)
| Alt (r1 r2 : regex)
| Opt (r : regex)
| Plus (r : regex).

(** [r+]: after each iteration try another one before stopping. *)
Fixpoint iterate (step : text -> list text) (fuel : nat) (s : text) : list text :=
  match fuel with
  | O => []
  | S fuel' => flat_map (fun s' => iterate step fuel' s' ++ [s']) (step s)
  end.

(** Backtracking search at the start of [s]: the remainders of [s] after
    each way of matching [r], in the order in which the engine tries them.
    Every iteration of the [Plus] bodies used below consumes a character,
    so [List.length s] iterations are enough. *)
Fixpoint matches (r : regex) (s : text) : list text :=
  match r with
  | Lit c =>
      match s with
      | x :: rest => if N.eqb x c then [rest] else []
      | [] => []
      end
  | Class p =>
      match s with
      | x :: rest => if p x then [rest] else []
      | [] => []
      end
  | Seq r1 r2 => flat_map (matches r2) (matches r1 s)
  | Alt r1 r2 => matches r1 s ++ matches r2 s
  | Opt r1 => matches r1 s ++ [s]
  | Plus r1 => iterate (matches r1) (List.length s) s
  end.

(** [re.match]: the first successful way. *)
Definition match_at (r : regex) (s : text) : option text := hd_error (matches r s).

(** [re.sub(r, repl, s)] for a pattern that never matches the empty
    string: leftmost matches, left to right, without overlap. *)
Fixpoint sub_from (r : regex) (repl : text) (fuel : nat) (s : text) : text :=
  match fuel with
  | O => s
  | S fuel' =>
      match s with
      | [] => []
      | x :: rest =>
          match match_at r s with
          | Some after => repl ++ sub_from r repl fuel' after
          | None => x :: sub_from r repl fuel' rest
          end
      end
  end.

Definition sub (r : regex) (repl : text) (s : text) : text :=
  sub_from r repl (List.length s) s.

(** A literal string. *)
Fixpoint lit (cs : text) (k : regex) : regex :=
  match cs with
  | [] => k
  | c :: rest => Seq (Lit c) (lit rest k)
  end.

(** A sufficient syntactic test for "every match contains [c]". *)
Fixpoint requires (c : char) (r : regex) : bool :=
  match r with
  | Lit c' => N.eqb c c'
  | Class _ => false
  | Seq r1 r2 => requires c r1 || requires c r2
  | Alt r1 r2 => requires c r1 && requires c r2
  | Opt _ => false
  | Plus r1 => requires c r1
  end.

(** A search only ever returns remainders of the text it was given. *)
Definition suffixes (step : text -> list text) : Prop :=
  forall s s', In s' (step s) -> exists w, s = w ++ s'.

End Re.

(* ================================================================== *)
(** * src/sentiment_analyzer.py *)
(* ================================================================== *)
Module SentimentAnalyzer.

Import Re.
Local Open Scope Q_scope.

(** ** The classifiers and their native outputs *)

(** [SentimentIntensityAnalyzer.polarity_scores(text)] *)
Record vader_scores : Type := { neg : Q; neu : Q; pos : Q; compound : Q }.

(** [self.models[name](text)[0]]: a list of [{'label': l, 'score': s}];
    [None] when the call raises. *)
Definition pipeline : Type := text -> option (list (string * Q)).

(** The analyzer object.  [roberta] and [finbert] are [None] when the key
    is absent from [self.models]. *)
Record analyzer : Type := {
  unicode : tables;
  roberta : option pipeline;
  finbert : option pipeline;
  polarity_scores : text -> option vader_scores;
  textblob_polarity : text -> option Q
}.

(** The common three-class record every adapter produces. *)
Record prediction : Type := {
  sentiment : string;
  confidence : Q;
  scores : dict Q
}.

(** ** [_preprocess_text] *)

Definition hex_digit (c : char) : bool :=
  in_range (ch "0") (ch "9") c || in_range (ch "a") (ch "f") c
  || in_range (ch "A") (ch "F") c.

(** [(?:[a-zA-Z]|[0-9]|[$-_@.&+]|[!*\\(\\),]|(?:%[0-9a-fA-F][0-9a-fA-F]))] *)
Definition url_char : regex :=
  Alt (Class (fun c => in_range (ch "a") (ch "z") c || in_range (ch "A") (ch "Z") c))
 (Alt (Class (in_range (ch "0") (ch "9")))
 (Alt (Class (fun c => in_range (ch "$") (ch "_") c || one_of "@.&+" c))
 (Alt (Class (one_of "!*\(),"))
      (Seq (Lit (ch "%")) (Seq (Class hex_digit) (Class hex_digit)))))).

(** [http[s]?://(?:...)+] *)
Definition url_pattern : regex :=
  lit (codes "http") (Seq (Opt (Class (one_of "s"))) (lit (codes "://") (Plus url_char))).

(** [\S+@\S+] *)
Definition email_pattern (T : tables) : regex :=
  Seq (Plus (Class (fun c => negb (isspace T c))))
      (Seq (Lit (ch "@")) (Plus (Class (fun c => negb (isspace T c))))).

(** [\s+] *)
Definition whitespace_pattern (T : tables) : regex := Plus (Class (isspace T)).

(** [[^\w\s.,!?;:-]] *)
Definition kept (T : tables) (c : char) : bool :=
  isword T c || isspace T c || one_of ".,!?;:-" c.
Definition special_pattern (T : tables) : regex := Class (fun c => negb (kept T c)).

Definition max_length : nat := 512.
Definition dot : char := ch ".".

(** The [for sentence in sentences] loop with its [break]. *)
Fixpoint cut_sentences (truncated : text) (sentences : list text) : text :=
  match sentences with
  | [] => truncated
  | sentence :: rest =>
      if (List.length (truncated ++ sentence) <? max_length)%nat
      then cut_sentences (truncated ++ sentence ++ [dot]) rest
      else truncated
  end.

(** Lines 117-128: limit the length for model processing. *)
Definition truncate (t : text) : text :=
  if (max_length <? List.length t)%nat then
    match cut_sentences [] (split dot t) with
    | [] => firstn max_length t
    | truncated => truncated
    end
  else t.

Definition clean (T : tables) (t : text) : text :=
  let t := sub url_pattern [] t in
  let t := sub (email_pattern T) [] t in
  let t := sub (whitespace_pattern T) [ch " "] t in
  sub (special_pattern T) [] t.

Definition _preprocess_text (T : tables) (t : text) : text :=
  strip T (truncate (clean T t)).

(** ** The adapters *)

(** [{item['label'].lower(): item['score'] for item in result}] *)
Definition label_scores (result : list (string * Q)) : dict Q :=
  fold_left (fun d item => dict_set (lower (fst item)) (snd item) d) result [].

Definition label_mapping : dict string :=
  [("label_0", "negative"); ("label_1", "neutral"); ("label_2", "positive")]%string.

(** [max(scores, key=scores.get)] and the record built from it. *)
Definition from_scores (normalized_scores : dict Q) : option prediction :=
  s <- max_by_value normalized_scores ;;
  c <- dict_get s normalized_scores ;;
  Some {| sentiment := s; confidence := c; scores := normalized_scores |}.

Definition _normalize_roberta_output (result : list (string * Q)) : option prediction :=
  let scores := label_scores result in
  let normalized_scores :=
    fold_left (fun d item =>
                 dict_set (get_default (fst item) (fst item) label_mapping) (snd item) d)
              scores [] in
  from_scores normalized_scores.

Definition _normalize_finbert_output (result : list (string * Q)) : option prediction :=
  from_scores (label_scores result).

Definition _normalize_vader_output (v : vader_scores) : prediction :=
  let c := compound v in
  let verdict :=
    if le 0.05 c then ("positive"%string, abs c)
    else if le c (- 0.05) then ("negative"%string, abs c)
    else ("neutral"%string, 1 - abs c) in
  let total := pos v + neu v + neg v in
  {| sentiment := fst verdict;
     confidence := snd verdict;
     scores := [("positive"%string, if lt 0 total then pos v / total else 0);
                ("neutral"%string, if lt 0 total then neu v / total else 0);
                ("negative"%string, if lt 0 total then neg v / total else 0)] |}.

Definition _normalize_textblob_output (polarity : Q) : prediction :=
  let verdict :=
    if lt 0.1 polarity then ("positive"%string, min2 (abs polarity) 1.0)
    else if lt polarity (- 0.1) then ("negative"%string, min2 (abs polarity) 1.0)
    else ("neutral"%string, 1 - abs polarity) in
  let pos_score := max2 0 polarity in
  let neg_score := max2 0 (- polarity) in
  let neu_score := 1 - pos_score - neg_score in
  {| sentiment := fst verdict;
     confidence := snd verdict;
     scores := [("positive"%string, pos_score);
                ("neutral"%string, neu_score);
                ("negative"%string, neg_score)] |}.

(** [try: predictions[name] = ... except Exception: log] *)
Definition attempt (name : string) (p : option prediction) (predictions : dict prediction)
  : dict prediction :=
  match p with
  | Some x => dict_set name x predictions
  | None => predictions
  end.

Definition _get_ensemble_predictions (A : analyzer) (t : text) : dict prediction :=
  let predictions := [] in
  let predictions :=
    match roberta A with
    | Some model =>
        attempt "roberta" (r <- model t ;; _normalize_roberta_output r) predictions
    | None => predictions
    end in
  let predictions :=
    match finbert A with
    | Some model =>
        attempt "finbert" (r <- model t ;; _normalize_finbert_output r) predictions
    | None => predictions
    end in
  let predictions :=
    attempt "vader" (v <- polarity_scores A t ;; Some (_normalize_vader_output v))
            predictions in
  attempt "textblob" (p <- textblob_polarity A t ;; Some (_normalize_textblob_output p))
          predictions.

(** ** [_ensemble_combine] *)

Definition weights : dict Q :=
  [("roberta", 0.40); ("finbert", 0.30); ("vader", 0.20); ("textblob", 0.10)]%string.

Definition fallback_scores : dict Q :=
  [("positive", 0.33); ("negative", 0.33); ("neutral", 0.34)]%string.

Definition initial_scores : dict Q :=
  [("positive", 0.0); ("negative", 0.0); ("neutral", 0.0)]%string.

(** [combined_scores[sentiment] += score * weight] *)
Definition add_score (weight : Q) (combined_scores : dict Q) (item : string * Q)
  : option (dict Q) :=
  old <- dict_get (fst item) combined_scores ;;
  Some (dict_set (fst item) (old + snd item * weight) combined_scores).

(** The body of [for model_name, prediction in predictions.items()]. *)
Definition add_prediction (st : dict Q * Q) (item : string * prediction)
  : option (dict Q * Q) :=
  let weight := get_default (fst item) 0.1 weights in
  let total_weight := snd st + weight in
  combined_scores <- for_each (add_score weight) (scores (snd item)) (fst st) ;;
  Some (combined_scores, total_weight).

(** Lines 279-293: accumulate, then divide by the weight that was seen. *)
Definition combine_scores (predictions : dict prediction) : option (dict Q) :=
  st <- for_each add_prediction predictions (initial_scores, 0.0) ;;
  Some (if lt 0 (snd st)
        then map (fun item => (fst item, snd item / snd st)) (fst st)
        else fst st).

(** Lines 296-297: the raw winner and its score. *)
Definition winner (combined_scores : dict Q) : option (string * Q) :=
  final_sentiment <- max_by_value combined_scores ;;
  confidence <- dict_get final_sentiment combined_scores ;;
  Some (final_sentiment, confidence).

Definition _ensemble_combine (predictions : dict prediction)
  : option (string * Q * dict Q) :=
  match predictions with
  | [] => Some ("neutral"%string, 0.5, fallback_scores)
  | _ :: _ =>
      combined_scores <- combine_scores predictions ;;
      w <- winner combined_scores ;;
      if lt (snd w) Config.CONFIDENCE_THRESHOLD then
        neutral <- dict_get "neutral" combined_scores ;;
        Some ("neutral"%string, max2 neutral 0.5, combined_scores)
      else Some (fst w, snd w, combined_scores)
  end.

(** ** [analyze] *)

Inductive details : Type :=
| TooShort   (* the string 'Text too short for analysis' *)
| ModelDetails (model_predictions : dict prediction)
               (text_length processed_length : nat)
               (models_used : list string).

Record verdict : Type := {
  v_sentiment : string;
  v_confidence : Q;
  v_scores : dict Q;
  v_details : details
}.

Definition too_short_verdict : verdict := {|
  v_sentiment := "neutral";
  v_confidence := 0.5;
  v_scores := [("positive", 0.33); ("negative", 0.33); ("neutral", 0.34)]%string;
  v_details := TooShort
|}.

Definition is_empty (t : text) : bool :=
  match t with
  | [] => true
  | _ :: _ => false
  end.

(** [None] is the [KeyError] that [_ensemble_combine] lets through. *)
Definition analyze (A : analyzer) (t : text) : option verdict :=
  if is_empty t || (List.length (strip (unicode A) t) <? 10)%nat
  then Some too_short_verdict
  else
    let cleaned_text := _preprocess_text (unicode A) t in
    let predictions := _get_ensemble_predictions A cleaned_text in
    r <- _ensemble_combine predictions ;;
    let final_sentiment := fst (fst r) in
    let confidence := snd (fst r) in
    let scores := snd r in
    Some {| v_sentiment := final_sentiment;
            v_confidence := round3 confidence;
            v_scores := [("positive"%string, round3 (get_default "positive" 0 scores));
                         ("negative"%string, round3 (get_default "negative" 0 scores));
                         ("neutral"%string, round3 (get_default "neutral" 0 scores))];
            v_details := ModelDetails predictions (List.length t)
                                      (List.length cleaned_text) (keys predictions) |}.

End SentimentAnalyzer.

(* ================================================================== *)
(** * src/data_manager.py *)
(* ================================================================== *)

Module DataManager.

Local Open Scope Q_scope.
Local Open Scope string_scope.

(** ** Values *)

(** What an article dictionary can hold. *)
Unset Elimination Schemes.
Inductive value : Type :=
| VNone
| VStr (s : string)
| VNum (q : Q)
| VDict (d : list (string * value)).
Set Elimination Schemes.

Definition article : Type := dict value.

(** What a column can hold.  Values are stored as they are bound; the
    conversions of SQLite's column affinity are not modelled. *)
Inductive sqlval : Type :=
| Null
| Text (s : string)
| Real (q : Q).

(** Binding a Python value to a [?]: a dictionary is an unsupported type. *)
Definition adapt (v : value) : option sqlval :=
  match v with
  | VNone => Some Null
  | VStr s => Some (Text s)
  | VNum q => Some (Real q)
  | VDict _ => None
  end.

Definition not_null (v : sqlval) : bool :=
  match v with
  | Null => false
  | _ => true
  end.

(** The clock, the calendar and [json.dumps] are inputs:
    - [today] is [datetime.now().strftime('%Y-%m-%d')];
    - [cutoff_date d] is [(datetime.now() - timedelta(days=d)).strftime('%Y-%m-%d')];
    - [current_timestamp] is SQLite's CURRENT_TIMESTAMP, 'YYYY-MM-DD HH:MM:SS';
    - [json_dumps v] is [None] when [json.dumps] raises [TypeError]. *)
Record environment : Type := {
  today : string;
  cutoff_date : Z -> string;
  current_timestamp : string;
  json_dumps : value -> option string
}.

(** ** The two tables *)

Record result_row : Type := {
  id : Z;
  keywords : string;
  title : sqlval;
  content : sqlval;
  description : sqlval;
  url : sqlval;
  source : sqlval;
  author : sqlval;
  published_at : sqlval;
  sentiment : sqlval;
  confidence : sqlval;
  positive_score : sqlval;
  negative_score : sqlval;
  neutral_score : sqlval;
  model_details : string;
  created_at : string
}.

Record summary_row : Type := {
  summary_id : Z;
  summary_keywords : string;
  date : string;
  total_articles : nat;
  positive_count : nat;
  negative_count : nat;
  neutral_count : nat;
  avg_confidence : Q;
  summary_created_at : string
}.

(** The stored state; the two counters are the AUTOINCREMENT sequences
    (the largest id each table has handed out). *)
Record database : Type := {
  analysis_results : list result_row;
  analysis_summary : list summary_row;
  results_sequence : Z;
  summary_sequence : Z
}.

(** ** Connections and transactions

    [sqlite3.connect] is used with its default (legacy) transaction
    control.  In that mode the module opens a transaction before an
    INSERT, UPDATE, DELETE or REPLACE statement when none is open, and
    since Python 3.6 it no longer commits before any other statement.
    SQLite refuses VACUUM while a transaction is open ("cannot VACUUM
    from within a transaction").  Leaving [with conn:] commits when the
    block ends normally and rolls back when it ends by an exception.
    The source uses f-strings, so it runs on Python 3.6 or later only. *)

Record connection : Type := {
  committed : database;     (* what the file holds *)
  working : database;       (* what this connection sees *)
  in_transaction : bool
}.

Inductive outcome : Type :=
| Done (c : connection)
| Raised (c : connection).

Definition and_then (o : outcome) (k : connection -> outcome) : outcome :=
  match o with
  | Done c => k c
  | Raised c => Raised c
  end.

Notation "o >>> k" := (and_then o k) (at level 62, left associativity).

Definition connect (db : database) : connection :=
  {| committed := db; working := db; in_transaction := false |}.

(** [cursor.execute] of a data-modifying statement; [None] from the
    statement is a constraint or binding error. *)
Definition execute (statement : database -> option database) (c : connection) : outcome :=
  let c := {| committed := committed c; working := working c; in_transaction := true |} in
  match statement (working c) with
  | Some db => Done {| committed := committed c; working := db; in_transaction := true |}
  | None => Raised c
  end.

(** [cursor.execute('VACUUM')] *)
Definition vacuum (c : connection) : outcome :=
  if in_transaction c then Raised c else Done c.

(** [conn.commit()] *)
Definition commit (c : connection) : outcome :=
  Done {| committed := working c; working := working c; in_transaction := false |}.

(** [with sqlite3.connect(path) as conn: body], inside [try/except]:
    the stored state afterwards and whether the body completed. *)
Definition with_connection (body : connection -> outcome) (db : database)
  : database * bool :=
  match body (connect db) with
  | Done c => (working c, true)        (* __exit__ commits *)
  | Raised c => (committed c, false)   (* __exit__ rolls back *)
  end.

(** ** Statements *)

(** [INSERT INTO analysis_results (...) VALUES (?, ..., ?)] *)
Definition insert_result (e : environment) (kw : string) (p : list sqlval)
           (details : string) (db : database) : option database :=
  match p with
  | [t; c; d; u; s; a; pa; se; co; ps; ns; us] =>
      if not_null t && not_null c && not_null se && not_null co
         && not_null ps && not_null ns && not_null us
      then
        let n := (results_sequence db + 1)%Z in
        Some {| analysis_results :=
                  (analysis_results db ++
                  [{| id := n; keywords := kw; title := t; content := c;
                      description := d; url := u; source := s; author := a;
                      published_at := pa; sentiment := se; confidence := co;
                      positive_score := ps; negative_score := ns;
                      neutral_score := us; model_details := details;
                      created_at := current_timestamp e |}])%list;
                analysis_summary := analysis_summary db;
                results_sequence := n;
                summary_sequence := summary_sequence db |}
      else None
  | _ => None
  end.

Definition same_key (kw day : string) (r : summary_row) : bool :=
  String.eqb (summary_keywords r) kw && String.eqb (date r) day.

(** [INSERT OR REPLACE INTO analysis_summary (...)]: the row that
    conflicts on UNIQUE(keywords, date) is deleted, the new one inserted. *)
Definition replace_summary (e : environment) (kw day : string)
           (total positive negative neutral : nat) (avg : Q) (db : database)
  : option database :=
  let n := (summary_sequence db + 1)%Z in
  Some {| analysis_results := analysis_results db;
          analysis_summary :=
            (filter (fun r => negb (same_key kw day r)) (analysis_summary db) ++
            [{| summary_id := n; summary_keywords := kw; date := day;
                total_articles := total; positive_count := positive;
                negative_count := negative; neutral_count := neutral;
                avg_confidence := avg;
                summary_created_at := current_timestamp e |}])%list;
          results_sequence := results_sequence db;
          summary_sequence := n |}.

(** [date(created_at)] of a stored timestamp. *)
Definition sql_date (timestamp : string) : string := substring 0 10 timestamp.

(** [DELETE FROM analysis_results WHERE date(created_at) < ?] *)
Definition delete_old_results (cutoff : string) (db : database) : option database :=
  Some {| analysis_results :=
            filter (fun r => negb (String.ltb (sql_date (created_at r)) cutoff))
                   (analysis_results db);
          analysis_summary := analysis_summary db;
          results_sequence := results_sequence db;
          summary_sequence := summary_sequence db |}.

(** [DELETE FROM analysis_summary WHERE date < ?] *)
Definition delete_old_summaries (cutoff : string) (db : database) : option database :=
  Some {| analysis_results := analysis_results db;
          analysis_summary :=
            filter (fun r => negb (String.ltb (date r) cutoff)) (analysis_summary db);
          results_sequence := results_sequence db;
          summary_sequence := summary_sequence db |}.

(** ** [_update_summary] *)

Definition is_sentiment (label : string) (a : article) : bool :=
  match get_default "sentiment" VNone a with
  | VStr s => String.eqb s label
  | _ => false
  end.

Definition count_sentiment (label : string) (articles : list article) : nat :=
  List.length (filter (is_sentiment label) articles).

(** [sum([a.get('confidence', 0) for a in articles])]; adding anything
    but a number to the running total is a [TypeError]. *)
Fixpoint sum_confidence (articles : list article) (total : Q) : option Q :=
  match articles with
  | [] => Some total
  | a :: rest =>
      match get_default "confidence" (VNum 0) a with
      | VNum q => sum_confidence rest (total + q)
      | _ => None
      end
  end.

Definition average_confidence (articles : list article) : option Q :=
  match articles with
  | [] => Some 0
  | _ :: _ =>
      total <- sum_confidence articles 0 ;;
      Some (total / inject_Z (Z.of_nat (List.length articles)))
  end.

Definition _update_summary (e : environment) (kw : string) (articles : list article)
           (c : connection) : outcome :=
  let total_articles := List.length articles in
  let positive_count := count_sentiment "positive" articles in
  let negative_count := count_sentiment "negative" articles in
  let neutral_count := count_sentiment "neutral" articles in
  match average_confidence articles with
  | None => Raised c
  | Some avg =>
      execute (replace_summary e kw (today e) total_articles positive_count
                               negative_count neutral_count avg) c
  end.

(** ** [store_analysis] *)

(** [article.get('scores', {}).get(k, 0)]; [AttributeError] when the
    value under 'scores' is not a dictionary. *)
Definition score_of (a : article) (k : string) : option value :=
  match get_default "scores" (VDict []) a with
  | VDict d => Some (get_default k (VNum 0) d)
  | _ => None
  end.

(** The parameter tuple of the INSERT, without the leading [keywords]
    and the trailing [json.dumps(...)]. *)
Definition parameters (a : article) : option (list sqlval) :=
  ps <- score_of a "positive" ;;
  ns <- score_of a "negative" ;;
  us <- score_of a "neutral" ;;
  for_each (fun acc v => x <- adapt v ;; Some (acc ++ [x])%list)
           [get_default "title" (VStr "") a;
            get_default "content" (VStr "") a;
            get_default "description" (VStr "") a;
            get_default "url" (VStr "") a;
            get_default "source" (VStr "") a;
            get_default "author" (VStr "") a;
            get_default "published_at" (VStr "") a;
            get_default "sentiment" (VStr "") a;
            get_default "confidence" (VNum 0) a;
            ps; ns; us]
           [].

Definition store_article (e : environment) (kw : string) (a : article)
           (c : connection) : outcome :=
  match parameters a, json_dumps e (get_default "details" (VDict []) a) with
  | Some p, Some details => execute (insert_result e kw p details) c
  | _, _ => Raised c
  end.

Fixpoint store_articles (e : environment) (kw : string) (articles : list article)
         (c : connection) : outcome :=
  match articles with
  | [] => Done c
  | a :: rest => store_article e kw a c >>> store_articles e kw rest
  end.

Definition store_analysis (e : environment) (kw : string) (articles : list article)
           (db : database) : database * bool :=
  with_connection
    (fun c => store_articles e kw articles c
              >>> _update_summary e kw articles
              >>> commit)
    db.

(** ** [cleanup_old_data] *)

Definition cleanup_old_data (e : environment) (days : Z) (db : database) : database :=
  let cutoff := cutoff_date e days in
  fst (with_connection
         (fun c => execute (delete_old_results cutoff) c
                   >>> execute (delete_old_summaries cutoff)
                   >>> vacuum
                   >>> commit)
         db).

End DataManager.

(* ================================================================== *)
(** * The vocabulary of the specification *)
(* ================================================================== *)

Module Spec.

Import SentimentAnalyzer.
Local Open Scope Q_scope.

(** The three classes, in the order in which [initial_scores] lists them. *)
Definition classes : list string := ["positive"; "negative"; "neutral"]%string.

(** Position of a class in that order. *)
Definition rank (c : string) : nat :=
  if String.eqb c "positive" then 0
  else if String.eqb c "negative" then 1
  else if String.eqb c "neutral" then 2
  else 3.

(** The trust weight of a model: its entry in the table, 0.1 without one. *)
Definition weight_of (model_name : string) : Q := get_default model_name 0.1 weights.

(** A model's score for a class (nothing when the model does not score it). *)
Definition model_score (p : prediction) (c : string) : Q := get_default c 0 (scores p).

(** Sum over the present models of score times weight, and of the weights. *)
Fixpoint weighted_sum (c : string) (predictions : dict prediction) : Q :=
  match predictions with
  | [] => 0
  | item :: rest => model_score (snd item) c * weight_of (fst item) + weighted_sum c rest
  end.

Fixpoint present_weight (predictions : dict prediction) : Q :=
  match predictions with
  | [] => 0
  | item :: rest => weight_of (fst item) + present_weight rest
  end.

(** positive + negative + neutral of a score mapping. *)
Definition three_sum (d : dict Q) : Q :=
  get_default "positive" 0 d + get_default "negative" 0 d + get_default "neutral" 0 d.

(** Within the rounding tolerance of 1.0. *)
Definition near_one (x : Q) : Prop := Qabs (x - 1) <= 0.01.

(** A score mapping over the three classes. *)
Definition three_class (d : dict Q) : Prop :=
  well_formed d /\ incl (keys d) classes.

(** Two spaces in a row somewhere in the text. *)
Fixpoint double_space (s : text) : bool :=
  match s with
  | a :: (b :: _) as rest => (N.eqb a (ch " ") && N.eqb b (ch " ")) || double_space rest
  | _ => false
  end.

(** All the whitespace of the text is the one character U+0020. *)
Definition plain_spaces (T : tables) (s : text) : Prop :=
  forall c, In c s -> isspace T c = true -> c = ch " ".

End Spec.

(* ================================================================== *)
(** * Sample inputs *)
(* ================================================================== *)

Module Examples.

Import SentimentAnalyzer DataManager.
Local Open Scope Q_scope.
Local Open Scope string_scope.

(** A single transformer-style output whose best class stays under the
    threshold. *)
Definition hesitant : dict prediction :=
  [("roberta",
    {| SentimentAnalyzer.sentiment := "positive";
       SentimentAnalyzer.confidence := 0.55;
       scores := [("negative", 0.2); ("neutral", 0.25); ("positive", 0.55)] |})].

(** Three models, one of them unknown to the weight table. *)
Definition mixed : dict prediction :=
  [("roberta",
    {| SentimentAnalyzer.sentiment := "positive";
       SentimentAnalyzer.confidence := 0.9;
       scores := [("negative", 0.04); ("neutral", 0.06); ("positive", 0.9)] |});
   ("vader", _normalize_vader_output {| neg := 0.1; neu := 0.1; pos := 0.8; compound := 0.8 |});
   ("distilbert",
    {| SentimentAnalyzer.sentiment := "neutral";
       SentimentAnalyzer.confidence := 0.5;
       scores := [("positive", 0.3); ("neutral", 0.5)] |})].

(** VADER on a text with as much positive as negative wording. *)
Definition balanced : dict prediction :=
  [("vader", _normalize_vader_output {| neg := 0.5; neu := 0; pos := 0.5; compound := 0 |})].

(** Raw scores that tie above the threshold. *)
Definition loud_tie : dict prediction :=
  [("finbert",
    {| SentimentAnalyzer.sentiment := "positive";
       SentimentAnalyzer.confidence := 0.7;
       scores := [("positive", 0.7); ("negative", 0.7); ("neutral", 0.0)] |})].

(** The combined scores of the first and the third sample. *)
Definition hesitant_scores : dict Q :=
  Eval vm_compute in
    match combine_scores hesitant with
    | Some cs => cs
    | None => []
    end.

Definition balanced_scores : dict Q :=
  Eval vm_compute in
    match combine_scores balanced with
    | Some cs => cs
    | None => []
    end.

Definition lightweight : dict prediction :=
  [("vader", _normalize_vader_output {| neg := 0.0; neu := 0.4; pos := 0.6; compound := 0.7 |});
   ("textblob", _normalize_textblob_output 0.5)].

(** What VADER answers on a text without a single token. *)
Definition silent_vader : vader_scores := {| neg := 0; neu := 0; pos := 0; compound := 0 |}.

(** VADER and TextBlob as they answer on the empty string. *)
Definition quiet : analyzer := {|
  unicode := latin1;
  roberta := None;
  finbert := None;
  polarity_scores := fun _ => Some silent_vader;
  textblob_polarity := fun _ => Some 0
|}.

Definition url_only : text := codes "http://example.com/news".

Definition hash_between_spaces : text := codes "a # b".

Definition tidy_sentence : text := codes "Markets  rallied, see http://example.com/x now!".

Definition long_text : text :=
  (repeat (ch "a") 300 ++ codes ". " ++ repeat (ch "b") 300)%list.

Definition january : environment := {|
  today := "2026-01-31";
  cutoff_date := fun _ => "2026-01-01";
  current_timestamp := "2026-01-31 12:00:00";
  json_dumps := fun _ => Some "{}"
|}.

Definition old_result : result_row := {|
  id := 1; DataManager.keywords := "economy";
  title := Text "Old news"; content := Text "Long ago."; description := Null;
  url := Text ""; source := Text "BBC"; author := Null; published_at := Text "";
  DataManager.sentiment := Text "neutral"; DataManager.confidence := Real 0.5;
  positive_score := Real 0.2; negative_score := Real 0.2; neutral_score := Real 0.6;
  model_details := "{}"; created_at := "2025-06-01 08:00:00"
|}.

Definition old_summary : summary_row := {|
  summary_id := 1; summary_keywords := "economy"; date := "2025-06-01";
  total_articles := 1; positive_count := 0; negative_count := 0; neutral_count := 1;
  avg_confidence := 0.5; summary_created_at := "2025-06-01 08:00:00"
|}.

Definition morning_summary : summary_row := {|
  summary_id := 2; summary_keywords := "economy"; date := "2026-01-31";
  total_articles := 7; positive_count := 4; negative_count := 2; neutral_count := 1;
  avg_confidence := 0.8; summary_created_at := "2026-01-31 08:00:00"
|}.

Definition stored : database := {|
  analysis_results := [old_result];
  analysis_summary := [old_summary; morning_summary];
  results_sequence := 1;
  summary_sequence := 2
|}.

Definition afternoon_batch : list article :=
  [[("title", VStr "Rates cut"); ("content", VStr "The bank cut rates.");
    ("sentiment", VStr "positive"); ("confidence", VNum 0.7);
    ("scores", VDict [("positive", VNum 0.7); ("negative", VNum 0.1);
                      ("neutral", VNum 0.2)])];
   [("title", VStr "Strike"); ("content", VStr "Workers walked out.");
    ("description", VNone);
    ("sentiment", VStr "negative"); ("confidence", VNum 0.9);
    ("scores", VDict [("positive", VNum 0.0); ("negative", VNum 0.9);
                      ("neutral", VNum 0.1)])]].

End Examples.

(* ================================================================== *)
(** * The constraints of the two tables *)
(* ================================================================== *)

Module Schema.

Import DataManager.

(** What the CREATE TABLE statements of [_init_database] declare:
    [id INTEGER PRIMARY KEY AUTOINCREMENT] on both tables (ids are unique
    and none is above the table's sequence), the NOT NULL columns of
    [analysis_results], and [UNIQUE(keywords, date)] on
    [analysis_summary]. *)
Definition required (r : result_row) : bool :=
  not_null (title r) && not_null (content r) && not_null (DataManager.sentiment r)
  && not_null (DataManager.confidence r) && not_null (positive_score r)
  && not_null (negative_score r) && not_null (neutral_score r).

Definition constraints_hold (db : database) : Prop :=
  NoDup (map id (analysis_results db))
  /\ (forall r, In r (analysis_results db) -> (id r <= results_sequence db)%Z)
  /\ (forall r, In r (analysis_results db) -> required r = true)
  /\ NoDup (map summary_id (analysis_summary db))
  /\ (forall r, In r (analysis_summary db) -> (summary_id r <= summary_sequence db)%Z)
  /\ NoDup (map (fun r => (summary_keywords r, date r)) (analysis_summary db)).

End Schema.

(* ================================================================== *)
(** * src/news_fetcher.py *)
(* ================================================================== *)

Module NewsFetcher.

Import Re.

(** A field of an article dictionary: a string, or [None] (a JSON null
    of the feed). *)
Inductive field : Type :=
| FNone
| FStr (s : text).

Definition article : Type := dict field.

(** ** [_remove_duplicates] *)

(** [[^\w\s]] *)
Definition symbol_pattern (T : tables) : regex :=
  Class (fun c => negb (isword T c || isspace T c)).

(** [s.split()]: the maximal runs of non-whitespace characters; [word]
    is the run being read. *)
Fixpoint split_whitespace (T : tables) (word : text) (s : text) : list text :=
  match s with
  | [] =>
      match word with
      | [] => []
      | _ :: _ => [word]
      end
  | c :: rest =>
      if isspace T c then
        match word with
        | [] => split_whitespace T [] rest
        | _ :: _ => word :: split_whitespace T [] rest
        end
      else split_whitespace T (word ++ [c]) rest
  end.

(** [sep.join(pieces)] *)
Fixpoint join (sep : text) (pieces : list text) : text :=
  match pieces with
  | [] => []
  | piece :: rest =>
      match rest with
      | [] => piece
      | _ :: _ => piece ++ sep ++ join sep rest
      end
  end.

(** Equality of strings, as the set of seen titles tests it. *)
Fixpoint text_eqb (a b : text) : bool :=
  match a, b with
  | [], [] => true
  | x :: a', y :: b' => N.eqb x y && text_eqb a' b'
  | _, _ => false
  end.

(** [simplified_title in seen_titles] *)
Definition seen_before (simplified_title : text) (seen_titles : list text) : bool :=
  existsb (text_eqb simplified_title) seen_titles.

(** Lines 264-268: the title an article is compared by.  [lower] is
    [str.lower], an input like the Unicode tables; [None] is the
    AttributeError of calling [.lower()] on a title that is [None]. *)
Definition simplified_title (T : tables) (lower : text -> text) (a : article)
  : option text :=
  match get_default "title" (FStr []) a with
  | FStr s =>
      let title := strip T (lower s) in
      let simplified_title := sub (symbol_pattern T) [] title in
      Some (join [ch " "] (split_whitespace T [] simplified_title))
  | FNone => None
  end.

(** The [for article in articles] loop with its two accumulators. *)
Fixpoint remove_from (T : tables) (lower : text -> text) (articles : list article)
         (unique_articles : list article) (seen_titles : list text)
  : option (list article) :=
  match articles with
  | [] => Some unique_articles
  | a :: rest =>
      s <- simplified_title T lower a ;;
      if negb (seen_before s seen_titles) && (10 <? List.length s)%nat
      then remove_from T lower rest (unique_articles ++ [a]) (s :: seen_titles)
      else remove_from T lower rest unique_articles seen_titles
  end.

Definition _remove_duplicates (T : tables) (lower : text -> text)
           (articles : list article) : option (list article) :=
  remove_from T lower articles [] [].

(** ** [fetch_news] *)

(** The three back ends are inputs: what each returns for the keywords
    and the per-source limit, [None] when it raises.  [newsapi_client]
    is whether a client was configured. *)
Record backends : Type := {
  newsapi_client : bool;
  _fetch_from_newsapi : text -> Z -> option (list article);
  _fetch_from_rss : text -> Z -> option (list article);
  _fetch_from_web : text -> Z -> option (list article)
}.

(** One round of [for source in sources]: an unknown source and a back
    end that raises both leave [all_articles] as it is. *)
Definition fetch_from (B : backends) (keywords : text) (articles_per_source : Z)
           (all_articles : list article) (source : string) : list article :=
  let fetched :=
    if String.eqb source "newsapi" && newsapi_client B
    then _fetch_from_newsapi B keywords articles_per_source
    else if String.eqb source "rss"
    then _fetch_from_rss B keywords articles_per_source
    else if String.eqb source "web"
    then _fetch_from_web B keywords articles_per_source
    else Some [] in
  match fetched with
  | Some articles => all_articles ++ articles
  | None => all_articles
  end.

(** [l[:limit]] *)
Definition slice_to (A : Type) (limit : Z) (l : list A) : list A :=
  if (0 <=? limit)%Z then firstn (Z.to_nat limit) l
  else firstn (List.length l - Z.to_nat (- limit)) l.

Definition default_sources : list string := ["newsapi"; "rss"]%string.

(** Lines 42-63: everything the sources returned, in order.  [None] is
    the ZeroDivisionError of [limit // len(sources)]. *)
Definition all_articles (B : backends) (keywords : text) (sources : option (list string))
           (limit : Z) : option (list article) :=
  let sources :=
    match sources with
    | None => default_sources
    | Some sources => sources
    end in
  match sources with
  | [] => None
  | _ :: _ =>
      let articles_per_source := Z.max 1 (limit / Z.of_nat (List.length sources)) in
      Some (fold_left (fetch_from B keywords articles_per_source) sources [])
  end.

Definition fetch_news (B : backends) (T : tables) (lower : text -> text)
           (keywords : text) (sources : option (list string)) (limit : Z)
  : option (list article) :=
  fetched <- all_articles B keywords sources limit ;;
  unique_articles <- _remove_duplicates T lower fetched ;;
  Some (slice_to limit unique_articles).

End NewsFetcher.

(* ================================================================== *)
(** * More vocabulary *)
(* ================================================================== *)

Module Order.

(** [l] is [m] with some elements left out, the others in their order. *)
Inductive subsequence (A : Type) : list A -> list A -> Prop :=
| sub_nil : subsequence [] []
| sub_skip (x : A) (l m : list A) : subsequence l m -> subsequence l (x :: m)
| sub_keep (x : A) (l m : list A) : subsequence l m -> subsequence (x :: l) (x :: m).

(** The articles that are compared by the title [s]. *)
Definition has_title (T : tables) (lower : text -> text) (s : text)
           (a : NewsFetcher.article) : bool :=
  match NewsFetcher.simplified_title T lower a with
  | Some s' => NewsFetcher.text_eqb s' s
  | None => false
  end.

End Order.

(* ================================================================== *)
(** * More sample inputs *)
(* ================================================================== *)

Module Cases.

Import SentimentAnalyzer.
Local Open Scope Q_scope.
Local Open Scope string_scope.

(** A space, a tab, a line feed and a space. *)
Definition blank : text := [32; 9; 10; 32]%N.

(** A FinBERT-style answer that is sure of itself. *)
Definition bullish : prediction :=
  {| sentiment := "positive";
     confidence := 0.8;
     scores := [("positive", 0.8); ("negative", 0.1); ("neutral", 0.1)] |}.

Definition bullish_alone : dict prediction := [("finbert", bullish)].

Definition bullish_verdict : string * Q * dict Q :=
  Eval vm_compute in
    match _ensemble_combine bullish_alone with
    | Some r => r
    | None => ("", 0, [])
    end.

(** VADER on a clearly positive sentence. *)
Definition upbeat_vader : vader_scores :=
  {| neg := 0.0; neu := 0.4; pos := 0.6; compound := 0.7 |}.

(** All four models loaded, the transformers with their usual labels. *)
Definition full : analyzer := {|
  unicode := latin1;
  roberta := Some (fun _ => Some [("LABEL_0", 0.1); ("LABEL_1", 0.2); ("LABEL_2", 0.7)]);
  finbert := Some (fun _ => Some [("positive", 0.8); ("negative", 0.1); ("neutral", 0.1)]);
  polarity_scores := fun _ => Some upbeat_vader;
  textblob_polarity := fun _ => Some 0.5
|}.

(** Four models none of which answers: a call that raises, an empty
    result, and two libraries that raise. *)
Definition mute : analyzer := {|
  unicode := latin1;
  roberta := Some (fun _ => None);
  finbert := Some (fun _ => Some []);
  polarity_scores := fun _ => None;
  textblob_polarity := fun _ => None
|}.

Definition headline : text := codes "Stocks rallied on strong earnings.".

Definition full_verdict : verdict :=
  Eval vm_compute in
    match analyze full headline with
    | Some v => v
    | None => too_short_verdict
    end.

(** A batch whose second article has no title (NOT NULL fails). *)
Definition broken_batch : list DataManager.article :=
  [[("title", DataManager.VStr "Rates cut");
    ("content", DataManager.VStr "The bank cut rates.");
    ("sentiment", DataManager.VStr "positive");
    ("confidence", DataManager.VNum 0.7)];
   [("title", DataManager.VNone);
    ("content", DataManager.VStr "Untitled.");
    ("sentiment", DataManager.VStr "neutral");
    ("confidence", DataManager.VNum 0.5)]].

(** The stored state after the afternoon batch. *)
Definition evening : DataManager.database :=
  Eval vm_compute in
    fst (DataManager.store_analysis Examples.january "economy"
                                    Examples.afternoon_batch Examples.stored).

(** [str.lower] on ASCII text. *)
Definition ascii_lower (s : text) : text :=
  map (fun c => if in_range 65%N 90%N c then (c + 32)%N else c) s.

Definition story (title : string) : NewsFetcher.article :=
  [("title", NewsFetcher.FStr (codes title));
   ("source", NewsFetcher.FStr (codes "Wire"))].

(** Four articles: the second repeats the first in other letters and
    punctuation, the third has a title of five characters. *)
Definition wire : list NewsFetcher.article :=
  [story "Markets rally as rates fall";
   story "MARKETS RALLY, as rates fall!";
   story "Brief";
   story "Oil prices slide again"].

Definition wire_kept : list NewsFetcher.article :=
  [story "Markets rally as rates fall"; story "Oil prices slide again"].

(** Only the RSS back end answers. *)
Definition feeds : NewsFetcher.backends := {|
  NewsFetcher.newsapi_client := false;
  NewsFetcher._fetch_from_newsapi := fun _ _ => None;
  NewsFetcher._fetch_from_rss := fun _ n => Some (firstn (Z.to_nat n) wire);
  NewsFetcher._fetch_from_web := fun _ _ => None
|}.

(** The same answers, with empty lists in place of the exceptions, and
    an RSS back end that raises when asked for less than one article. *)
Definition tidy_feeds : NewsFetcher.backends := {|
  NewsFetcher.newsapi_client := false;
  NewsFetcher._fetch_from_newsapi := fun _ _ => Some [];
  NewsFetcher._fetch_from_rss :=
    fun _ n => if (n <? 1)%Z then None else Some (firstn (Z.to_nat n) wire);
  NewsFetcher._fetch_from_web := fun _ _ => Some []
|}.

End Cases.

(* ================================================================== *)
(** * Properties of the Python helpers *)
(* ================================================================== *)

Section PyFacts.

Local Open Scope Q_scope.

Lemma lt_true_iff (x y : Q) : Py.lt x y = true <-> x < y.
Proof.
  unfold Py.lt. rewrite negb_true_iff.
  split; intro H.
  - apply Qnot_le_lt. intro L. apply Qle_bool_iff in L. congruence.
  - destruct (Qle_bool y x) eqn:E; [|reflexivity].
    apply Qle_bool_iff in E. exfalso. apply (Qlt_not_le _ _ H E).
Qed.

Lemma lt_false_iff (x y : Q) : Py.lt x y = false <-> y <= x.
Proof.
  unfold Py.lt. rewrite negb_false_iff. apply Qle_bool_iff.
Qed.

Lemma max2_is_Qmax (a b : Q) : max2 a b == Qmax a b.
Proof.
  unfold max2. destruct (Py.lt a b) eqn:E.
  - apply lt_true_iff in E. symmetry. apply Q.max_r. apply Qlt_le_weak, E.
  - apply lt_false_iff in E. symmetry. apply Q.max_l. exact E.
Qed.

Variable V : Type.

Lemma bind_some (A B : Type) (m : option A) (k : A -> option B) (b : B) :
  bind m k = Some b -> exists a, m = Some a /\ k a = Some b.
Proof.
  destruct m as [a|]; simpl; intro H; [exists a; auto | discriminate].
Qed.

Lemma dict_get_in_keys (k : string) (d : dict V) :
  In k (keys d) -> exists v, dict_get k d = Some v.
Proof.
  induction d as [|[k' v'] d IH]; simpl; [tauto|].
  intros [E|H].
  - subst. rewrite String.eqb_refl. eauto.
  - destruct (String.eqb k k'); eauto.
Qed.

Lemma dict_get_some_in_keys (k : string) (d : dict V) (v : V) :
  dict_get k d = Some v -> In k (keys d).
Proof.
  induction d as [|[k' v'] d IH]; simpl; [discriminate|].
  destruct (String.eqb k k') eqn:E.
  - apply String.eqb_eq in E. auto.
  - auto.
Qed.

Lemma dict_get_not_in_keys (k : string) (d : dict V) :
  ~ In k (keys d) -> dict_get k d = None.
Proof.
  intro H. destruct (dict_get k d) eqn:E; [|reflexivity].
  apply dict_get_some_in_keys in E. contradiction.
Qed.

Lemma keys_dict_set (k : string) (v : V) (d : dict V) :
  In k (keys d) -> keys (dict_set k v d) = keys d.
Proof.
  induction d as [|[k' v'] d IH]; simpl; [tauto|].
  intros H. destruct (String.eqb k k') eqn:E; simpl; [reflexivity|].
  f_equal. apply IH. destruct H as [H|H]; [|exact H].
  subst. rewrite String.eqb_refl in E. discriminate.
Qed.

Lemma dict_get_set_same (k : string) (v : V) (d : dict V) :
  dict_get k (dict_set k v d) = Some v.
Proof.
  induction d as [|[k' v'] d IH]; simpl.
  - now rewrite String.eqb_refl.
  - destruct (String.eqb k k') eqn:E; simpl; rewrite E; auto.
Qed.

Lemma dict_get_set_other (k k' : string) (v : V) (d : dict V) :
  k <> k' -> dict_get k' (dict_set k v d) = dict_get k' d.
Proof.
  intro N. induction d as [|[k0 v0] d IH]; simpl.
  - destruct (String.eqb k' k) eqn:E; [|reflexivity].
    apply String.eqb_eq in E. congruence.
  - destruct (String.eqb k k0) eqn:E; simpl.
    + apply String.eqb_eq in E. subst k0.
      destruct (String.eqb k' k) eqn:E'; [|reflexivity].
      apply String.eqb_eq in E'. congruence.
    + now rewrite IH.
Qed.

End PyFacts.

(* ================================================================== *)
(** * The ensemble combiner *)
(* ================================================================== *)

Section EnsembleFacts.

Import SentimentAnalyzer Spec.
Local Open Scope Q_scope.

Lemma dict_get_map_values (f : Q -> Q) (k : string) (d : dict Q) :
  dict_get k (map (fun item => (fst item, f (snd item))) d) = option_map f (dict_get k d).
Proof.
  induction d as [|[k' v] d IH]; simpl; [reflexivity|].
  destruct (String.eqb k k'); auto.
Qed.

Lemma keys_map_values (f : Q -> Q) (d : dict Q) :
  keys (map (fun item => (fst item, f (snd item))) d) = keys d.
Proof.
  unfold keys. rewrite map_map. reflexivity.
Qed.

Lemma weight_of_cases (m : string) :
  weight_of m = 0.40 \/ weight_of m = 0.30 \/ weight_of m = 0.20
  \/ weight_of m = 0.10 \/ weight_of m = 0.1.
Proof.
  unfold weight_of, get_default, weights. simpl.
  repeat match goal with |- context [String.eqb ?a ?b] => destruct (String.eqb a b) end;
    tauto.
Qed.

Lemma weight_of_positive (m : string) : 0 < weight_of m.
Proof.
  destruct (weight_of_cases m) as [H|[H|[H|[H|H]]]]; rewrite H; reflexivity.
Qed.

Lemma weight_of_default (m : string) : ~ In m (keys weights) -> weight_of m = 0.1.
Proof.
  intro H. unfold weight_of, get_default.
  now rewrite (@dict_get_not_in_keys _ _ _ H).
Qed.

Lemma present_weight_nonneg (predictions : dict prediction) : 0 <= present_weight predictions.
Proof.
  induction predictions as [|item rest IH]; simpl; [apply Qle_refl|].
  pose proof (weight_of_positive (fst item)). lra.
Qed.

Lemma present_weight_positive (predictions : dict prediction) :
  predictions <> [] -> 0 < present_weight predictions.
Proof.
  destruct predictions as [|item rest]; [congruence|]. intros _. simpl.
  pose proof (weight_of_positive (fst item)).
  pose proof (present_weight_nonneg rest). lra.
Qed.

(** The inner loop keeps the keys of [combined_scores]. *)
Lemma add_scores_keys (w : Q) (sc cs cs' : dict Q) :
  for_each (add_score w) sc cs = Some cs' -> keys cs' = keys cs.
Proof.
  revert cs. induction sc as [|[k v] sc IH]; simpl; intros cs H.
  - now inversion H.
  - apply bind_some in H. destruct H as [cs1 [H1 H2]].
    unfold add_score in H1. apply bind_some in H1. destruct H1 as [old [G E]].
    inversion E; subst cs1. simpl in *.
    rewrite (IH _ H2). apply keys_dict_set. eapply dict_get_some_in_keys; eauto.
Qed.

Lemma get_default_set_same (k : string) (v : Q) (d : dict Q) :
  get_default k 0 (dict_set k v d) = v.
Proof. unfold get_default. now rewrite dict_get_set_same. Qed.

Lemma get_default_set_other (k k' : string) (v : Q) (d : dict Q) :
  k <> k' -> get_default k' 0 (dict_set k v d) = get_default k' 0 d.
Proof. intro N. unfold get_default. now rewrite dict_get_set_other. Qed.

(** One model's scores, added with its weight. *)
Lemma add_scores_spec (w : Q) (sc cs : dict Q) :
  well_formed sc -> incl (keys sc) (keys cs) ->
  exists cs', for_each (add_score w) sc cs = Some cs'
              /\ forall c, get_default c 0 cs' == get_default c 0 cs + get_default c 0 sc * w.
Proof.
  revert cs. induction sc as [|[k v] sc IH]; simpl; intros cs WF INC.
  - exists cs. split; [reflexivity|]. intro c. unfold get_default at 3. simpl. lra.
  - inversion WF as [|? ? NI WF']; subst.
    assert (IK : In k (keys cs)) by (apply INC; simpl; auto).
    destruct (@dict_get_in_keys _ _ _ IK) as [old G].
    unfold add_score at 1. simpl. rewrite G. simpl.
    destruct (IH (dict_set k (old + v * w) cs) WF') as [cs' [R S]].
    { rewrite keys_dict_set by exact IK. intros x Hx. apply INC. simpl. auto. }
    exists cs'. split; [exact R|].
    intro c. rewrite S.
    destruct (String.eqb c k) eqn:E.
    + apply String.eqb_eq in E. subst c.
      rewrite get_default_set_same.
      unfold get_default at 1. rewrite (@dict_get_not_in_keys _ _ _ NI).
      unfold get_default. simpl. rewrite String.eqb_refl, G. lra.
    + assert (N : k <> c) by (intro; subst; rewrite String.eqb_refl in E; discriminate).
      rewrite get_default_set_other by exact N.
      unfold get_default at 4. simpl. rewrite E. reflexivity.
Qed.


Lemma add_predictions_keys (predictions : dict prediction) (st st' : dict Q * Q) :
  for_each add_prediction predictions st = Some st' -> keys (fst st') = keys (fst st).
Proof.
  revert st. induction predictions as [|item rest IH]; simpl; intros st H.
  - now inversion H.
  - apply bind_some in H. destruct H as [st1 [H1 H2]].
    unfold add_prediction in H1. apply bind_some in H1. destruct H1 as [cs1 [G E]].
    inversion E; subst st1. rewrite (IH _ H2). simpl.
    eapply add_scores_keys; eauto.
Qed.

Lemma combine_scores_keys (predictions : dict prediction) (cs : dict Q) :
  combine_scores predictions = Some cs -> keys cs = classes.
Proof.
  unfold combine_scores. intro H.
  apply bind_some in H. destruct H as [st [H1 H2]].
  apply add_predictions_keys in H1. simpl in H1.
  inversion H2; subst cs.
  destruct (Py.lt 0 (snd st)); [rewrite (keys_map_values (fun v => v / snd st))|]; exact H1.
Qed.

Lemma add_predictions_spec (predictions : dict prediction) (cs : dict Q) (tw : Q) :
  (forall m p, In (m, p) predictions -> three_class (scores p)) ->
  keys cs = classes ->
  exists cs' tw',
    for_each add_prediction predictions (cs, tw) = Some (cs', tw')
    /\ tw' == tw + present_weight predictions
    /\ forall c, get_default c 0 cs' == get_default c 0 cs + weighted_sum c predictions.
Proof.
  revert cs tw. induction predictions as [|[m p] rest IH]; simpl; intros cs tw V K.
  - exists cs, tw. split; [reflexivity|]. split; [lra|]. intro c. lra.
  - destruct (V m p (or_introl eq_refl)) as [WF INC].
    destruct (@add_scores_spec (get_default m 0.1 weights) (scores p) cs WF)
      as [cs1 [R1 S1]].
    { now rewrite K. }
    unfold add_prediction at 1. simpl. rewrite R1. simpl.
    destruct (IH cs1 (tw + get_default m 0.1 weights)) as [cs' [tw' [R [T S]]]].
    { intros m' p' H. apply (V m' p'). now right. }
    { rewrite (@add_scores_keys _ _ _ _ R1). exact K. }
    exists cs', tw'. split; [exact R|]. split.
    + rewrite T. unfold weight_of. lra.
    + intro c. rewrite S, S1. unfold model_score, weight_of. lra.
Qed.

Lemma get_default_map_div (c : string) (t : Q) (d : dict Q) :
  get_default c 0 (map (fun item => (fst item, snd item / t)) d) == get_default c 0 d / t.
Proof.
  unfold get_default.
  rewrite (dict_get_map_values (fun v => v / t)).
  destruct (dict_get c d); simpl; [reflexivity|].
  unfold Qdiv. lra.
Qed.

(** Lines 279-293 compute the weighted mean over the present models. *)
Lemma combine_scores_spec (predictions : dict prediction) :
  predictions <> [] ->
  (forall m p, In (m, p) predictions -> three_class (scores p)) ->
  exists cs, combine_scores predictions = Some cs
             /\ keys cs = classes
             /\ forall c, get_default c 0 cs
                          == weighted_sum c predictions / present_weight predictions.
Proof.
  intros NE V.
  destruct (@add_predictions_spec predictions initial_scores 0.0 V eq_refl)
    as [cs' [tw' [R [T S]]]].
  pose proof (@present_weight_positive predictions NE) as P.
  assert (P' : 0 < tw') by (rewrite T; lra).
  unfold combine_scores. rewrite R. simpl.
  apply lt_true_iff in P'. rewrite P'. apply lt_true_iff in P'.
  eexists. split; [reflexivity|]. split.
  - rewrite (keys_map_values (fun v => v / tw')).
    apply add_predictions_keys in R. exact R.
  - intro c. rewrite get_default_map_div, S, T.
    assert (Z0 : get_default c 0 initial_scores == 0).
    { unfold get_default, initial_scores. simpl.
      repeat match goal with |- context [String.eqb ?a ?b] => destruct (String.eqb a b) end;
        reflexivity. }
    rewrite Z0.
    assert (E1 : 0 + weighted_sum c predictions == weighted_sum c predictions) by lra.
    assert (E2 : 0.0 + present_weight predictions == present_weight predictions) by lra.
    rewrite E1, E2. reflexivity.
Qed.

Lemma classes_shape (cs : dict Q) :
  keys cs = classes ->
  exists p n u, cs = [("positive"%string, p); ("negative"%string, n); ("neutral"%string, u)].
Proof.
  unfold keys, classes.
  destruct cs as [|[k1 p] [|[k2 n] [|[k3 u] [|]]]]; simpl; intro H; try discriminate.
  inversion H; subst. eauto.
Qed.

(** Lines 296-297 on the three-class dictionary. *)
Lemma winner_three (p n u : Q) :
  winner [("positive"%string, p); ("negative"%string, n); ("neutral"%string, u)]
  = Some (if Py.lt p n
          then (if Py.lt n u then ("neutral"%string, u) else ("negative"%string, n))
          else (if Py.lt p u then ("neutral"%string, u) else ("positive"%string, p))).
Proof.
  unfold winner, max_by_value, max_step. simpl.
  destruct (Py.lt p n); simpl.
  - destruct (Py.lt n u); reflexivity.
  - destruct (Py.lt p u); reflexivity.
Qed.


(** Once the combined scores exist, the rest of [_ensemble_combine]
    cannot fail. *)
Lemma ensemble_combine_result (predictions : dict prediction) (cs : dict Q) :
  predictions <> [] ->
  combine_scores predictions = Some cs ->
  exists w v neutral,
    winner cs = Some (w, v)
    /\ dict_get "neutral" cs = Some neutral
    /\ _ensemble_combine predictions
       = Some (if Py.lt v Config.CONFIDENCE_THRESHOLD
               then ("neutral"%string, max2 neutral 0.5, cs)
               else (w, v, cs)).
Proof.
  intros NE C.
  pose proof (@combine_scores_keys predictions cs C) as K.
  destruct (@classes_shape cs K) as [p [n [u E]]].
  pose proof (winner_three p n u) as W. rewrite <- E in W.
  destruct predictions as [|item rest]; [congruence|].
  unfold _ensemble_combine. rewrite C. simpl. rewrite W. simpl.
  match type of W with _ = Some ?r => exists (fst r), (snd r), u end.
  split; [now rewrite <- surjective_pairing|].
  split; [subst cs; reflexivity|].
  destruct (Py.lt _ Config.CONFIDENCE_THRESHOLD).
  - subst cs. reflexivity.
  - reflexivity.
Qed.

Lemma three_sum_weighted (predictions : dict prediction) :
  weighted_sum "positive" predictions + weighted_sum "negative" predictions
  + weighted_sum "neutral" predictions
  == fold_right (fun item acc => three_sum (scores (snd item)) * weight_of (fst item) + acc)
                0 predictions.
Proof.
  induction predictions as [|item rest IH]; simpl; [lra|].
  rewrite <- IH. unfold three_sum, model_score. lra.
Qed.

Lemma weighted_mass_bounds (predictions : dict prediction) :
  (forall m p, In (m, p) predictions -> near_one (three_sum (scores p))) ->
  let mass := fold_right (fun item acc =>
                            three_sum (scores (snd item)) * weight_of (fst item) + acc)
                         0 predictions in
  0.99 * present_weight predictions <= mass /\ mass <= 1.01 * present_weight predictions.
Proof.
  induction predictions as [|[m p] rest IH]; simpl; intro V.
  - split; lra.
  - destruct IH as [L U]. { intros m' p' H. apply (V m' p'). now right. }
    pose proof (V m p (or_introl eq_refl)) as B. unfold near_one in B.
    apply Qabs_Qle_condition in B. destruct B as [B1 B2].
    pose proof (weight_of_positive m) as W.
    split; nra.
Qed.

Lemma near_one_of_eq (x : Q) : x == 1 -> near_one x.
Proof.
  intro H. unfold near_one. apply Qabs_Qle_condition. split; lra.
Qed.

Lemma textblob_scores_sum (polarity : Q) :
  three_sum (scores (_normalize_textblob_output polarity)) == 1.
Proof.
  unfold three_sum, get_default. simpl. lra.
Qed.

Lemma vader_scores_sum (v : vader_scores) :
  0 < pos v + neu v + neg v ->
  three_sum (scores (_normalize_vader_output v)) == 1.
Proof.
  intro H. unfold three_sum, get_default. simpl.
  apply lt_true_iff in H. rewrite H. apply lt_true_iff in H.
  field. lra.
Qed.

Lemma vader_scores_guard (v : vader_scores) :
  pos v + neu v + neg v <= 0 ->
  three_sum (scores (_normalize_vader_output v)) == 0.
Proof.
  intro H. unfold three_sum, get_default. simpl.
  apply lt_false_iff in H. rewrite H. lra.
Qed.

Lemma combined_scores_sum (predictions : dict prediction) :
  predictions <> [] ->
  (forall m p, In (m, p) predictions ->
               three_class (scores p) /\ near_one (three_sum (scores p))) ->
  exists s conf cs,
    _ensemble_combine predictions = Some (s, conf, cs) /\ near_one (three_sum cs).
Proof.
  intros NE V.
  assert (V1 : forall m p, In (m, p) predictions -> three_class (scores p))
    by (intros m p H; apply (V m p H)).
  assert (V2 : forall m p, In (m, p) predictions -> near_one (three_sum (scores p)))
    by (intros m p H; apply (V m p H)).
  destruct (@combine_scores_spec predictions NE V1) as [cs [C [K S]]].
  destruct (@ensemble_combine_result predictions cs NE C) as [w [v [neutral [W [G R]]]]].
  assert (X : exists s conf, _ensemble_combine predictions = Some (s, conf, cs)).
  { rewrite R. destruct (Py.lt v Config.CONFIDENCE_THRESHOLD); eauto. }
  destruct X as [s [conf X]].
  exists s, conf, cs. split; [exact X|].
  pose proof (@present_weight_positive predictions NE) as P.
  pose proof (three_sum_weighted predictions) as M.
  destruct (@weighted_mass_bounds predictions V2) as [L U].
  set (mass := fold_right _ _ _) in *.
  assert (E : three_sum cs == mass / present_weight predictions).
  { unfold three_sum. rewrite !S, <- M. field. lra. }
  unfold near_one. apply Qabs_Qle_condition. rewrite E. split.
  - apply Qplus_le_l with (z := 1). ring_simplify.
    apply Qle_shift_div_l; [exact P|]. lra.
  - apply Qplus_le_l with (z := 1). ring_simplify.
    apply Qle_shift_div_r; [exact P|]. lra.
Qed.

End EnsembleFacts.

(* ================================================================== *)
(** * The verdict store *)
(* ================================================================== *)

Section StoreFacts.

Import DataManager.
Local Open Scope Q_scope.

Variable e : environment.

(** Inserting into [analysis_results] leaves the summary table, its
    sequence and the committed state as they were. *)
Lemma store_article_summary (kw : string) (a : article) (c c' : connection) :
  store_article e kw a c = Done c' ->
  analysis_summary (working c') = analysis_summary (working c)
  /\ summary_sequence (working c') = summary_sequence (working c)
  /\ committed c' = committed c.
Proof.
  unfold store_article, execute, insert_result.
  destruct (parameters a) as [p|]; [|discriminate].
  destruct (json_dumps e _) as [details|]; [|discriminate].
  simpl.
  destruct p as [|t [|c0 [|d [|u [|s [|au [|pa [|se [|co [|ps [|ns [|us [|]]]]]]]]]]]]];
    try discriminate.
  destruct (_ && _); [|discriminate].
  intro H. inversion H; subst. simpl. auto.
Qed.

Lemma store_articles_summary (kw : string) (articles : list article) (c c' : connection) :
  store_articles e kw articles c = Done c' ->
  analysis_summary (working c') = analysis_summary (working c)
  /\ summary_sequence (working c') = summary_sequence (working c)
  /\ committed c' = committed c.
Proof.
  revert c. induction articles as [|a rest IH]; simpl; intros c H.
  - inversion H; subst. auto.
  - destruct (store_article e kw a c) as [c1|c1] eqn:E; simpl in H; [|discriminate].
    apply store_article_summary in E. apply IH in H.
    intuition congruence.
Qed.

Lemma filter_replaced (kw day : string) (rows : list summary_row) (new : summary_row) :
  same_key kw day new = true ->
  filter (same_key kw day)
         (filter (fun r => negb (same_key kw day r)) rows ++ [new]) = [new]
  /\ filter (fun r => negb (same_key kw day r))
            (filter (fun r => negb (same_key kw day r)) rows ++ [new])
     = filter (fun r => negb (same_key kw day r)) rows.
Proof.
  intro K. rewrite !filter_app. simpl. rewrite K. simpl. split.
  - replace (filter (same_key kw day) (filter _ rows)) with (@nil summary_row); [reflexivity|].
    induction rows as [|r rows IH]; simpl; [reflexivity|].
    destruct (same_key kw day r) eqn:E; simpl; [exact IH|]. now rewrite E.
  - rewrite app_nil_r.
    induction rows as [|r rows IH]; simpl; [reflexivity|].
    destruct (same_key kw day r) eqn:E; simpl; [exact IH|]. rewrite E. simpl. now f_equal.
Qed.

Lemma same_key_new (kw day : string) (n : Z) (t p ng nu : nat) (avg : Q) (ts : string) :
  same_key kw day {| summary_id := n; summary_keywords := kw; date := day;
                     total_articles := t; positive_count := p; negative_count := ng;
                     neutral_count := nu; avg_confidence := avg;
                     summary_created_at := ts |} = true.
Proof. unfold same_key. simpl. now rewrite !String.eqb_refl. Qed.

(** What a successful [store_analysis] leaves in the summary table. *)
Lemma store_analysis_summary (kw : string) (articles : list article) (db db' : database) :
  store_analysis e kw articles db = (db', true) ->
  exists avg,
    average_confidence articles = Some avg
    /\ analysis_summary db'
       = filter (fun r => negb (same_key kw (today e) r)) (analysis_summary db)
         ++ [{| summary_id := summary_sequence db + 1;
                summary_keywords := kw;
                date := today e;
                total_articles := List.length articles;
                positive_count := count_sentiment "positive" articles;
                negative_count := count_sentiment "negative" articles;
                neutral_count := count_sentiment "neutral" articles;
                avg_confidence := avg;
                summary_created_at := current_timestamp e |}].
Proof.
  unfold store_analysis, with_connection.
  destruct (store_articles e kw articles (connect db)) as [c1|c1] eqn:E1; simpl;
    [|intro H; inversion H].
  apply store_articles_summary in E1. destruct E1 as [S1 [S2 S3]]. simpl in *.
  unfold _update_summary.
  destruct (average_confidence articles) as [avg|]; simpl; [|intro H; inversion H].
  intro H. inversion H; subst db'. clear H.
  exists avg. split; [reflexivity|]. simpl. now rewrite S1, S2.
Qed.

(** Inside the transaction the two DELETE statements remove the rows
    older than the cutoff and keep every other row as it is. *)
Lemma deletes_before_vacuum (cutoff : string) (db : database) :
  exists c,
    execute (delete_old_results cutoff) (connect db)
    >>> execute (delete_old_summaries cutoff) = Done c
    /\ in_transaction c = true
    /\ committed c = db
    /\ analysis_results (working c)
       = filter (fun r => negb (String.ltb (sql_date (created_at r)) cutoff))
                (analysis_results db)
    /\ analysis_summary (working c)
       = filter (fun r => negb (String.ltb (date r) cutoff)) (analysis_summary db).
Proof.
  eexists. split; [reflexivity|]. simpl. auto.
Qed.

(** VACUUM then raises, nothing is committed, and the stored state is the
    one before the call. *)
Lemma cleanup_changes_nothing (days : Z) (db : database) :
  cleanup_old_data e days db = db.
Proof. reflexivity. Qed.

End StoreFacts.

(* ================================================================== *)
(** * The text normalizer *)
(* ================================================================== *)

Section TruncationFacts.

Import Re SentimentAnalyzer.

Lemma split_nonempty (sep : char) (t : text) : split sep t <> [].
Proof.
  destruct t as [|c t]; simpl; [discriminate|].
  destruct (N.eqb c sep); [discriminate|].
  destruct (split sep t); discriminate.
Qed.

(** The first piece stops at the first separator. *)
Lemma split_inv (sep : char) (t piece : text) (pieces : list text) :
  split sep t = piece :: pieces ->
  ~ In sep piece
  /\ ((pieces = [] /\ t = piece)
      \/ exists t', t = piece ++ sep :: t' /\ split sep t' = pieces).
Proof.
  revert piece pieces. induction t as [|c t IH]; simpl; intros piece pieces H.
  - inversion H; subst. split; [tauto|]. left. auto.
  - destruct (N.eqb_spec c sep) as [E|NE].
    + inversion H; subst. split; [tauto|]. right. exists t. auto.
    + destruct (split sep t) as [|p ps] eqn:Sp.
      * exfalso. exact (split_nonempty _ _ Sp).
      * injection H as <- <-. destruct (IH p ps eq_refl) as [NI D].
        split.
        -- simpl. intros [X|X]; [congruence|tauto].
        -- destruct D as [[D1 D2]|[t' [D1 D2]]].
           ++ left. subst. auto.
           ++ right. exists t'. subst. auto.
Qed.

Lemma max_length_positive : (0 < max_length)%nat.
Proof. unfold max_length. lia. Qed.

Local Opaque max_length.

Lemma in_firstn (n : nat) (x : char) (l : text) : In x (firstn n l) -> In x l.
Proof.
  revert n. induction l as [|a l IH]; intros [|n]; simpl; try tauto.
  intros [H|H]; eauto.
Qed.

(** The loop keeps a prefix that ends at the last separator which fits. *)
Lemma cut_sentences_spec (pieces : list text) :
  forall (t acc : text),
    split dot t = pieces ->
    (List.length acc <= max_length)%nat ->
    (max_length < List.length (acc ++ t))%nat ->
    exists k,
      cut_sentences acc pieces = acc ++ firstn k t
      /\ (List.length acc + k <= max_length)%nat
      /\ (k = 0%nat \/ nth_error t (k - 1) = Some dot)
      /\ ~ In dot (skipn k (firstn (max_length - List.length acc) t)).
Proof.
  induction pieces as [|p ps IH]; intros t acc Sp LA LT.
  - exfalso. exact (split_nonempty _ _ Sp).
  - destruct (split_inv _ _ Sp) as [NI [[E1 E2]|[t' [E1 E2]]]].
    + subst ps t. simpl.
      destruct (Nat.ltb_spec (List.length (acc ++ p)) max_length) as [L|L]; [lia|].
      exists 0%nat. rewrite app_nil_r.
      repeat split; [lia|auto|].
      simpl. intro H. apply in_firstn in H. contradiction.
    + subst t. simpl.
      destruct (Nat.ltb_spec (List.length (acc ++ p)) max_length) as [L|L].
      * rewrite length_app in L.
        destruct (IH t' (acc ++ p ++ [dot]) E2) as [k [C [B [D F]]]].
        { rewrite !length_app. simpl. lia. }
        { rewrite <- !app_assoc. simpl. exact LT. }
        exists (List.length p + 1 + k)%nat.
        rewrite !length_app in B. simpl in B.
        split; [|split; [lia|split]].
        -- rewrite C. rewrite <- !app_assoc. f_equal.
           rewrite firstn_app.
           replace (List.length p + 1 + k - List.length p)%nat with (S k) by lia.
           rewrite (firstn_all2 p) by lia. reflexivity.
        -- right.
           replace (List.length p + 1 + k - 1)%nat with (List.length p + k)%nat by lia.
           rewrite nth_error_app2 by lia.
           replace (List.length p + k - List.length p)%nat with k by lia.
           destruct D as [D|D].
           ++ subst k. reflexivity.
           ++ destruct k as [|k]; [reflexivity|]. simpl in *.
              now rewrite Nat.sub_0_r in D.
        -- intro H. apply F.
           rewrite !length_app. simpl.
           rewrite firstn_app in H.
           rewrite (firstn_all2 p) in H by lia.
           replace (max_length - List.length acc - List.length p)%nat
             with (S (max_length - (List.length acc + (List.length p + 1))))%nat in H by lia.
           simpl in H.
           rewrite skipn_app in H.
           rewrite (skipn_all2 p) in H by lia.
           replace (List.length p + 1 + k - List.length p)%nat with (S k) in H by lia.
           simpl in H. exact H.
      * exists 0%nat. rewrite app_nil_r.
        repeat split; [lia|auto|].
        simpl. rewrite length_app in L.
        rewrite firstn_app.
        replace (max_length - List.length acc - List.length p)%nat with 0%nat by lia.
        simpl. rewrite app_nil_r.
        intro H. apply in_firstn in H. contradiction.
Qed.


Lemma nth_error_in_firstn (n i : nat) (x : char) (l : text) :
  nth_error l i = Some x -> (i < n)%nat -> In x (firstn n l).
Proof.
  revert n i. induction l as [|a l IH]; intros n i H L.
  - destruct i; discriminate.
  - destruct n as [|n]; [lia|]. destruct i as [|i]; simpl in *.
    + inversion H. auto.
    + right. apply (IH n i H). lia.
Qed.

Lemma truncate_short (t : text) :
  (List.length t <= max_length)%nat -> truncate t = t.
Proof.
  intro H. unfold truncate.
  destruct (Nat.ltb_spec max_length (List.length t)); [lia|reflexivity].
Qed.

Lemma truncate_long (t : text) :
  (max_length < List.length t)%nat ->
  exists k,
    cut_sentences [] (split dot t) = firstn k t
    /\ (k <= max_length)%nat
    /\ (k = 0%nat \/ nth_error t (k - 1) = Some dot)
    /\ ~ In dot (skipn k (firstn max_length t)).
Proof.
  intro H.
  destruct (@cut_sentences_spec (split dot t) t [] eq_refl) as [k [C [B [D F]]]];
    simpl; [lia|exact H|].
  exists k. simpl in *. rewrite Nat.sub_0_r in F. auto.
Qed.

Lemma truncate_at_boundary (t : text) :
  (max_length < List.length t)%nat ->
  In dot (firstn max_length t) ->
  exists k,
    (1 <= k <= max_length)%nat
    /\ truncate t = firstn k t
    /\ nth_error t (k - 1) = Some dot
    /\ ~ In dot (skipn k (firstn max_length t)).
Proof.
  intros H I. destruct (@truncate_long t H) as [k [C [B [D F]]]].
  destruct k as [|k]; [simpl in F; contradiction|].
  destruct D as [D|D]; [discriminate|].
  exists (S k). repeat split; try lia; try assumption.
  unfold truncate.
  destruct (Nat.ltb_spec max_length (List.length t)); [|lia].
  rewrite C. destruct t as [|a t]; [simpl in H; lia|]. reflexivity.
Qed.

Lemma truncate_hard (t : text) :
  (max_length < List.length t)%nat ->
  ~ In dot (firstn max_length t) ->
  truncate t = firstn max_length t.
Proof.
  intros H I. destruct (@truncate_long t H) as [k [C [B [D F]]]].
  destruct D as [D|D].
  - subst k. unfold truncate.
    destruct (Nat.ltb_spec max_length (List.length t)); [|lia].
    rewrite C. reflexivity.
  - exfalso. apply I. apply (@nth_error_in_firstn max_length (k - 1) dot t D).
    pose proof max_length_positive. lia.
Qed.

Lemma truncate_length (t : text) : (List.length (truncate t) <= max_length)%nat.
Proof.
  destruct (Nat.le_gt_cases (List.length t) max_length) as [H|H].
  - now rewrite truncate_short.
  - destruct (in_dec N.eq_dec dot (firstn max_length t)) as [I|I].
    + destruct (@truncate_at_boundary t H I) as [k [B [E _]]].
      rewrite E, length_firstn. lia.
    + rewrite (@truncate_hard t H I), length_firstn. lia.
Qed.

Variable T : tables.

Lemma lstrip_length (s : text) : (List.length (lstrip T s) <= List.length s)%nat.
Proof.
  induction s as [|c s IH]; simpl; [lia|].
  destruct (isspace T c); simpl; lia.
Qed.

Lemma strip_length (s : text) : (List.length (strip T s) <= List.length s)%nat.
Proof.
  unfold strip, rstrip. rewrite length_rev.
  pose proof (lstrip_length (rev (lstrip T s))) as H.
  rewrite length_rev in H. pose proof (lstrip_length s). lia.
Qed.

Local Transparent max_length.

End TruncationFacts.

Section ReFacts.

Import Re.

Lemma flat_map_nil (A B : Type) (f : A -> list B) (l : list A) :
  (forall x, In x l -> f x = []) -> flat_map f l = [].
Proof.
  induction l as [|a l IH]; simpl; intro H; [reflexivity|].
  rewrite (H a) by auto. simpl. apply IH. auto.
Qed.

Lemma iterate_suffix (step : text -> list text) :
  suffixes step -> forall fuel, suffixes (iterate step fuel).
Proof.
  intros St fuel. induction fuel as [|fuel IH]; intros s s' H; simpl in H; [contradiction|].
  apply in_flat_map in H. destruct H as [s1 [H1 H2]].
  destruct (St _ _ H1) as [w1 E1].
  apply in_app_or in H2. destruct H2 as [H2|[H2|[]]].
  - destruct (IH _ _ H2) as [w2 E2]. exists (w1 ++ w2). subst. now rewrite app_assoc.
  - subst. eauto.
Qed.

Lemma matches_suffix (r : regex) : suffixes (matches r).
Proof.
  induction r as [c|p|r1 IH1 r2 IH2|r1 IH1 r2 IH2|r1 IH1|r1 IH1]; intros s s' H; simpl in H.
  - destruct s as [|x rest]; [simpl in H; contradiction|]. simpl in H.
    destruct (N.eqb x c); [|simpl in H; contradiction].
    destruct H as [H|[]]. subst. exists [x]. reflexivity.
  - destruct s as [|x rest]; [simpl in H; contradiction|]. simpl in H.
    destruct (p x); [|simpl in H; contradiction].
    destruct H as [H|[]]. subst. exists [x]. reflexivity.
  - apply in_flat_map in H. destruct H as [s1 [H1 H2]].
    destruct (IH1 _ _ H1) as [w1 E1]. destruct (IH2 _ _ H2) as [w2 E2].
    exists (w1 ++ w2). subst. now rewrite app_assoc.
  - apply in_app_or in H. destruct H as [H|H]; eauto.
  - apply in_app_or in H. destruct H as [H|[H|[]]]; eauto.
    subst. exists []. reflexivity.
  - eapply iterate_suffix; eauto.
Qed.

(** Without the required character there is no match. *)
Lemma requires_no_match (c : char) (r : regex) :
  requires c r = true -> forall s, ~ In c s -> matches r s = [].
Proof.
  induction r as [c'|p|r1 IH1 r2 IH2|r1 IH1 r2 IH2|r1 IH1|r1 IH1]; simpl; intros R s NI;
    try discriminate.
  - destruct s as [|x rest]; [reflexivity|].
    destruct (N.eqb_spec x c'); [|reflexivity].
    apply N.eqb_eq in R. subst. exfalso. apply NI. simpl. auto.
  - apply orb_true_iff in R. destruct R as [R|R].
    + now rewrite (IH1 R s NI).
    + apply flat_map_nil. intros s1 H1.
      destruct (matches_suffix _ _ _ H1) as [w E].
      apply (IH2 R). intro H. apply NI. subst. apply in_or_app. auto.
  - apply andb_true_iff in R. destruct R as [R1 R2].
    now rewrite (IH1 R1 s NI), (IH2 R2 s NI).
  - destruct (List.length s); simpl; [reflexivity|].
    now rewrite (IH1 R s NI).
Qed.

Lemma sub_from_no_match (r : regex) (repl : text) (s : text) :
  (forall w s', s = w ++ s' -> matches r s' = []) ->
  forall fuel, sub_from r repl fuel s = s.
Proof.
  induction s as [|x rest IH]; intros H fuel; destruct fuel as [|fuel]; simpl; try reflexivity.
  unfold match_at. rewrite (H [] (x :: rest) eq_refl). simpl.
  f_equal. apply IH. intros w s' E. apply (H (x :: w)). subst. reflexivity.
Qed.

Lemma sub_requires (c : char) (r : regex) (repl s : text) :
  requires c r = true -> ~ In c s -> sub r repl s = s.
Proof.
  intros R NI. unfold sub. apply sub_from_no_match.
  intros w s' E. apply (requires_no_match c r R).
  intro H. apply NI. subst. apply in_or_app. auto.
Qed.

End ReFacts.

Section NormalizerFacts.

Import Re SentimentAnalyzer Spec.

Variable T : tables.

Lemma hd_error_none (A : Type) (l : list A) : hd_error l = None -> l = [].
Proof. destruct l; [reflexivity|discriminate]. Qed.

Lemma hd_error_app (A : Type) (l m : list A) (x : A) :
  hd_error l = Some x -> hd_error (l ++ m) = Some x.
Proof. destruct l; [discriminate|auto]. Qed.

(** [\s+] at the start of a text takes the whole run of whitespace. *)
Lemma iterate_space_head (fuel : nat) :
  forall s, (List.length s <= fuel)%nat ->
    hd_error (iterate (matches (Class (isspace T))) fuel s)
    = match s with
      | x :: rest => if isspace T x then Some (lstrip T rest) else None
      | [] => None
      end.
Proof.
  induction fuel as [|fuel IH]; intros s L.
  - destruct s; [reflexivity|simpl in L; lia].
  - destruct s as [|x rest]; [reflexivity|]. simpl in L.
    cbn [iterate].
    change (matches (Class (isspace T)) (x :: rest))
      with (if isspace T x then [rest] else []).
    destruct (isspace T x) eqn:X; [|reflexivity].
    cbn [flat_map]. rewrite app_nil_r.
    assert (L' : (List.length rest <= fuel)%nat) by lia.
    specialize (IH rest L').
    destruct rest as [|y r']; cbn [lstrip].
    + apply hd_error_none in IH. rewrite IH. reflexivity.
    + destruct (isspace T y).
      * now apply hd_error_app.
      * apply hd_error_none in IH. rewrite IH. reflexivity.
Qed.

Lemma match_whitespace (x : char) (rest : text) :
  match_at (whitespace_pattern T) (x :: rest)
  = if isspace T x then Some (lstrip T rest) else None.
Proof.
  unfold match_at, whitespace_pattern.
  change (matches (Plus (Class (isspace T))) (x :: rest))
    with (iterate (matches (Class (isspace T))) (List.length (x :: rest)) (x :: rest)).
  now rewrite iterate_space_head.
Qed.

Lemma match_special (x : char) (rest : text) :
  match_at (special_pattern T) (x :: rest) = if kept T x then None else Some rest.
Proof.
  unfold match_at, special_pattern. simpl. destruct (kept T x); reflexivity.
Qed.

(** [re.sub(r'[^\w\s.,!?;:-]', '', s)] is a filter. *)
Lemma sub_special_filter (s : text) :
  forall fuel, (List.length s <= fuel)%nat ->
    sub_from (special_pattern T) [] fuel s = filter (kept T) s.
Proof.
  induction s as [|x rest IH]; intros fuel L.
  - destruct fuel; reflexivity.
  - destruct fuel as [|fuel]; simpl in L; [lia|].
    cbn [sub_from filter]. rewrite match_special.
    destruct (kept T x); simpl; rewrite IH by lia; reflexivity.
Qed.

Lemma sub_whitespace_plain (fuel : nat) :
  forall s, (List.length s <= fuel)%nat ->
    plain_spaces T (sub_from (whitespace_pattern T) [ch " "] fuel s).
Proof.
  induction fuel as [|fuel IH]; intros s L.
  - destruct s; [|simpl in L; lia]. intros c [].
  - destruct s as [|x rest]; [intros c []|]. simpl in L.
    cbn [sub_from]. rewrite match_whitespace.
    destruct (isspace T x) eqn:X.
    + intros c [H|H] S; [now subst|].
      apply (IH (lstrip T rest)); [|exact H|exact S].
      pose proof (@lstrip_length T rest). lia.
    + intros c [H|H] S; [subst; congruence|]. apply (IH rest); [lia|exact H|exact S].
Qed.

Lemma lstrip_fixed (s : text) :
  match s with
  | c :: _ => isspace T c = false
  | [] => True
  end -> lstrip T s = s.
Proof.
  destruct s as [|c s]; simpl; [reflexivity|]. now intros ->.
Qed.

(** Single plain spaces are left as they are by [\s+] -> ' '. *)
Lemma sub_whitespace_fixed (fuel : nat) :
  forall s, (List.length s <= fuel)%nat ->
    plain_spaces T s -> double_space s = false ->
    sub_from (whitespace_pattern T) [ch " "] fuel s = s.
Proof.
  induction fuel as [|fuel IH]; intros s L P D.
  - reflexivity.
  - destruct s as [|x rest]; [reflexivity|]. simpl in L.
    cbn [sub_from]. rewrite match_whitespace.
    assert (P' : plain_spaces T rest) by (intros c H; apply P; simpl; auto).
    assert (D' : double_space rest = false).
    { destruct rest as [|y r']; [reflexivity|].
      cbn [double_space] in D. apply orb_false_iff in D. tauto. }
    destruct (isspace T x) eqn:X.
    + assert (E : x = ch " ") by (apply P; simpl; auto). subst x.
      rewrite lstrip_fixed.
      * simpl. f_equal. apply IH; [lia|exact P'|exact D'].
      * destruct rest as [|y r']; [exact I|].
        destruct (isspace T y) eqn:Y; [|reflexivity].
        assert (E : y = ch " ") by (apply P; simpl; auto). subst y.
        cbn [double_space] in D. rewrite N.eqb_refl in D. discriminate.
    + f_equal. apply IH; [lia|exact P'|exact D'].
Qed.

Lemma filter_fixed (p : char -> bool) (s : text) :
  (forall c, In c s -> p c = true) -> filter p s = s.
Proof.
  induction s as [|x rest IH]; simpl; intro H; [reflexivity|].
  rewrite (H x) by auto. f_equal. apply IH. auto.
Qed.

(** ** What [clean] returns *)

Lemma clean_filter (x : text) :
  exists z, clean T x = filter (kept T) z /\ plain_spaces T z.
Proof.
  unfold clean.
  set (z0 := sub (email_pattern T) [] (sub url_pattern [] x)).
  exists (sub (whitespace_pattern T) [ch " "] z0). split.
  - unfold sub at 1. now apply sub_special_filter.
  - unfold sub. now apply sub_whitespace_plain.
Qed.

Lemma clean_kept (x : text) (c : char) : In c (clean T x) -> kept T c = true.
Proof.
  destruct (clean_filter x) as [z [E _]]. rewrite E.
  intro H. apply filter_In in H. tauto.
Qed.

Lemma clean_plain (x : text) : plain_spaces T (clean T x).
Proof.
  destruct (clean_filter x) as [z [E P]]. rewrite E.
  intros c H. apply filter_In in H. apply P. tauto.
Qed.

(** ** Truncation and stripping only remove characters *)

Lemma truncate_incl (t : text) : incl (truncate t) t.
Proof.
  destruct (Nat.le_gt_cases (List.length t) max_length) as [H|H].
  - rewrite truncate_short by exact H. apply incl_refl.
  - destruct (in_dec N.eq_dec dot (firstn max_length t)) as [I|I].
    + destruct (@truncate_at_boundary t H I) as [k [_ [E _]]].
      rewrite E. intros c. apply in_firstn.
    + rewrite (@truncate_hard t H I). intros c. apply in_firstn.
Qed.

Lemma lstrip_suffix (s : text) : exists w, s = w ++ lstrip T s.
Proof.
  induction s as [|c s [w IH]]; simpl; [exists []; reflexivity|].
  destruct (isspace T c).
  - exists (c :: w). simpl. now f_equal.
  - exists []. reflexivity.
Qed.

Lemma rstrip_prefix (s : text) : exists w, s = rstrip T s ++ w.
Proof.
  unfold rstrip. destruct (lstrip_suffix (rev s)) as [w E].
  exists (rev w). rewrite <- rev_app_distr, <- E. now rewrite rev_involutive.
Qed.

Lemma strip_incl (s : text) : incl (strip T s) s.
Proof.
  unfold strip. intros c H.
  destruct (rstrip_prefix (lstrip T s)) as [w1 E1].
  destruct (lstrip_suffix s) as [w2 E2].
  rewrite E2. apply in_or_app. right. rewrite E1. apply in_or_app. auto.
Qed.

Lemma lstrip_lstrip (s : text) : lstrip T (lstrip T s) = lstrip T s.
Proof.
  induction s as [|c s IH]; simpl; [reflexivity|].
  destruct (isspace T c) eqn:E; [exact IH|]. simpl. now rewrite E.
Qed.

Lemma rstrip_rstrip (s : text) : rstrip T (rstrip T s) = rstrip T s.
Proof.
  unfold rstrip. now rewrite rev_involutive, lstrip_lstrip.
Qed.

Lemma lstrip_head (c : char) (s : text) :
  lstrip T (c :: s) = c :: s -> isspace T c = false.
Proof.
  simpl. destruct (isspace T c); [|reflexivity].
  intro H. pose proof (lstrip_length T s) as L. rewrite H in L. simpl in L. lia.
Qed.

Lemma lstrip_rstrip (s : text) : lstrip T s = s -> lstrip T (rstrip T s) = rstrip T s.
Proof.
  intro H. destruct (rstrip_prefix s) as [w E].
  destruct (rstrip T s) as [|c y]; [reflexivity|].
  rewrite E in H. simpl in H. change ((c :: y) ++ w) with (c :: (y ++ w)) in H.
  apply (@lstrip_head c (y ++ w)) in H. simpl. now rewrite H.
Qed.

Lemma strip_strip (s : text) : strip T (strip T s) = strip T s.
Proof.
  unfold strip.
  rewrite (@lstrip_rstrip (lstrip T s) (lstrip_lstrip s)).
  apply rstrip_rstrip.
Qed.

(** ** What [_preprocess_text] returns *)

Lemma preprocess_incl (x : text) : incl (_preprocess_text T x) (clean T x).
Proof.
  unfold _preprocess_text. intros c H.
  apply truncate_incl. apply (@strip_incl _ c H).
Qed.

Lemma preprocess_length (x : text) :
  (List.length (_preprocess_text T x) <= max_length)%nat.
Proof.
  unfold _preprocess_text.
  pose proof (strip_length T (truncate (clean T x))).
  pose proof (truncate_length (clean T x)). lia.
Qed.

Lemma slash_not_kept : kept T (ch "/") = false.
Proof. reflexivity. Qed.

Lemma at_not_kept : kept T (ch "@") = false.
Proof. reflexivity. Qed.

(** A text that is already clean goes through the four substitutions
    unchanged. *)
Lemma clean_fixed (y : text) :
  (forall c, In c y -> kept T c = true) ->
  plain_spaces T y ->
  double_space y = false ->
  clean T y = y.
Proof.
  intros K P D. unfold clean.
  rewrite (@sub_requires (ch "/") url_pattern [] y eq_refl).
  2:{ intro H. apply K in H. rewrite slash_not_kept in H. discriminate. }
  rewrite (@sub_requires (ch "@") (email_pattern T) [] y eq_refl).
  2:{ intro H. apply K in H. rewrite at_not_kept in H. discriminate. }
  unfold sub at 2. rewrite sub_whitespace_fixed by auto.
  unfold sub. rewrite sub_special_filter by auto.
  now apply filter_fixed.
Qed.

Lemma double_space_two (a b : char) (l : text) :
  double_space (a :: b :: l)
  = (N.eqb a (ch " ") && N.eqb b (ch " ")) || double_space (b :: l).
Proof. reflexivity. Qed.

Lemma double_space_cons (a : char) (l : text) :
  double_space (a :: l) = false -> double_space l = false.
Proof.
  destruct l as [|b l]; [reflexivity|].
  cbn [double_space]. intro H. apply orb_false_iff in H. tauto.
Qed.

Lemma double_space_app (a b : text) :
  double_space (a ++ b) = false -> double_space a = false /\ double_space b = false.
Proof.
  induction a as [|x a IH]; simpl app; intro H; [auto|].
  destruct (IH (double_space_cons _ _ H)) as [Ha Hb]. split; [|exact Hb].
  destruct a as [|y a]; [reflexivity|].
  simpl app in H. cbn [double_space] in *. apply orb_false_iff in H.
  apply orb_false_iff. tauto.
Qed.

Lemma truncate_prefix (t : text) : exists w, t = truncate t ++ w.
Proof.
  destruct (Nat.le_gt_cases (List.length t) max_length) as [H|H].
  - exists []. now rewrite truncate_short, app_nil_r.
  - destruct (in_dec N.eq_dec dot (firstn max_length t)) as [I|I].
    + destruct (@truncate_at_boundary t H I) as [k [_ [E _]]].
      exists (skipn k t). now rewrite E, firstn_skipn.
    + exists (skipn max_length t). now rewrite (@truncate_hard t H I), firstn_skipn.
Qed.

(** What [truncate] and [strip] leave is one contiguous piece of the
    cleaned text. *)
Lemma preprocess_piece (x : text) :
  exists u w, clean T x = u ++ _preprocess_text T x ++ w.
Proof.
  unfold _preprocess_text, strip.
  destruct (truncate_prefix (clean T x)) as [w1 E1].
  destruct (lstrip_suffix (truncate (clean T x))) as [u E2].
  destruct (rstrip_prefix (lstrip T (truncate (clean T x)))) as [w2 E3].
  exists u, (w2 ++ w1).
  rewrite E1 at 1. rewrite E2 at 1. rewrite E3 at 1.
  now rewrite <- !app_assoc.
Qed.

Lemma nonspace_is_not_blank (c : char) : isspace T c = false -> c <> ch " ".
Proof. intros H E. subst. discriminate. Qed.

Lemma sub_whitespace_step (fuel : nat) (x : char) (rest : text) :
  sub_from (whitespace_pattern T) [ch " "] (S fuel) (x :: rest)
  = if isspace T x
    then ch " " :: sub_from (whitespace_pattern T) [ch " "] fuel (lstrip T rest)
    else x :: sub_from (whitespace_pattern T) [ch " "] fuel rest.
Proof.
  cbn [sub_from]. rewrite match_whitespace. destruct (isspace T x); reflexivity.
Qed.

(** [\s+] -> ' ' leaves no two spaces in a row. *)
Lemma sub_whitespace_single (fuel : nat) :
  forall s, (List.length s <= fuel)%nat ->
    double_space (sub_from (whitespace_pattern T) [ch " "] fuel s) = false.
Proof.
  induction fuel as [|fuel IH]; intros s L.
  - destruct s; [reflexivity|simpl in L; lia].
  - destruct s as [|x rest]; [reflexivity|]. simpl in L.
    rewrite sub_whitespace_step.
    destruct (isspace T x) eqn:X.
    + pose proof (lstrip_length T rest) as LL.
      assert (IH' := IH (lstrip T rest) ltac:(lia)).
      destruct (lstrip T rest) as [|c r] eqn:E.
      * destruct fuel; reflexivity.
      * assert (C : isspace T c = false).
        { apply (@lstrip_head c r). rewrite <- E. apply lstrip_lstrip. }
        destruct fuel as [|fuel]; [simpl in LL; lia|].
        rewrite sub_whitespace_step, C in *.
        rewrite double_space_two, IH'.
        destruct (N.eqb_spec c (ch " ")) as [E'|_]; [|now rewrite andb_false_r].
        exfalso. now apply (nonspace_is_not_blank C).
    + assert (IH' := IH rest ltac:(lia)).
      destruct (sub_from (whitespace_pattern T) [ch " "] fuel rest) as [|b l];
        [reflexivity|].
      rewrite double_space_two, IH'.
      destruct (N.eqb_spec x (ch " ")) as [E'|_]; [|reflexivity].
      exfalso. now apply (nonspace_is_not_blank X).
Qed.

(** [\s+] -> ' ' introduces no character but U+0020. *)
Lemma sub_whitespace_chars (fuel : nat) :
  forall s c, (List.length s <= fuel)%nat ->
    In c (sub_from (whitespace_pattern T) [ch " "] fuel s) -> In c s \/ c = ch " ".
Proof.
  induction fuel as [|fuel IH]; intros s c L H.
  - left. exact H.
  - destruct s as [|x rest]; [left; exact H|]. simpl in L.
    rewrite sub_whitespace_step in H.
    destruct (isspace T x) eqn:X.
    + destruct H as [H|H]; [right; now subst|].
      pose proof (lstrip_length T rest) as LL.
      destruct (IH (lstrip T rest) c ltac:(lia) H) as [I|I]; [|now right].
      left. right. destruct (lstrip_suffix rest) as [w E]. rewrite E.
      apply in_or_app. now right.
    + destruct H as [H|H]; [left; left; exact H|].
      destruct (IH rest c ltac:(lia) H) as [I|I]; [left; right; exact I|now right].
Qed.

Lemma space_kept : kept T (ch " ") = true.
Proof. reflexivity. Qed.

(** The second pass returns a text without two spaces in a row. *)
Lemma second_pass_single_spaces (x : text) :
  double_space (_preprocess_text T (_preprocess_text T x)) = false.
Proof.
  set (y := _preprocess_text T x).
  assert (K : forall c, In c y -> kept T c = true).
  { intros c H. apply (@clean_kept x). now apply preprocess_incl. }
  destruct (preprocess_piece y) as [u [w E]].
  assert (D : double_space (clean T y) = false).
  { unfold clean.
    rewrite (@sub_requires (ch "/") url_pattern [] y eq_refl).
    2:{ intro H. apply K in H. rewrite slash_not_kept in H. discriminate. }
    rewrite (@sub_requires (ch "@") (email_pattern T) [] y eq_refl).
    2:{ intro H. apply K in H. rewrite at_not_kept in H. discriminate. }
    unfold sub at 1. rewrite sub_special_filter by auto.
    rewrite filter_fixed.
    - unfold sub. now apply sub_whitespace_single.
    - intros c H. unfold sub in H.
      destruct (@sub_whitespace_chars (List.length y) y c (le_n _) H) as [I|I].
      + now apply K.
      + subst. apply space_kept. }
  rewrite E in D. apply double_space_app in D. destruct D as [_ D].
  apply double_space_app in D. tauto.
Qed.

(** A clean, short, stripped text without a run of spaces is returned as
    it is. *)
Lemma stable_text (y : text) :
  (forall c, In c y -> kept T c = true) ->
  plain_spaces T y ->
  double_space y = false ->
  (List.length y <= max_length)%nat ->
  strip T y = y ->
  _preprocess_text T y = y.
Proof.
  intros K P D L S. unfold _preprocess_text.
  rewrite clean_fixed by assumption.
  rewrite truncate_short by exact L.
  exact S.
Qed.

(** From the second pass on nothing changes any more. *)
Lemma second_pass_is_stable (x : text) :
  _preprocess_text T (_preprocess_text T (_preprocess_text T x))
  = _preprocess_text T (_preprocess_text T x).
Proof.
  apply stable_text.
  - intros c H. apply (@clean_kept (_preprocess_text T x)). now apply preprocess_incl.
  - intros c H. apply (@clean_plain (_preprocess_text T x)). now apply preprocess_incl.
  - apply second_pass_single_spaces.
  - apply preprocess_length.
  - unfold _preprocess_text at 1 3. apply strip_strip.
Qed.

End NormalizerFacts.

(* ================================================================== *)
(** * The claims *)
(* ================================================================== *)

Section EnsembleClaims.

Import SentimentAnalyzer Spec Examples.
Local Open Scope Q_scope.

(** Proves [three_class] of a literal score mapping. *)
Ltac three_class_sample :=
  split;
  [ unfold well_formed, keys; simpl;
    repeat (constructor; [simpl; intuition discriminate|]); constructor
  | intros k Hk; simpl in Hk; unfold classes; simpl; intuition ].

(** C1.  For a non-empty mapping of predictions whose combined scores
    (lines 279-293) are all below [CONFIDENCE_THRESHOLD] = 0.6, that is,
    whose maximum is below it, [_ensemble_combine] returns the sentiment
    'neutral', the confidence [max(combined neutral score, 0.5)] and the
    combined scores, whichever class lines 296-297 had picked. *)
Theorem low_confidence_is_forced_neutral :
  forall (predictions : dict prediction) (cs : dict Q),
    predictions <> [] ->
    combine_scores predictions = Some cs ->
    (forall c v, dict_get c cs = Some v -> v < Config.CONFIDENCE_THRESHOLD) ->
    exists neutral,
      dict_get "neutral" cs = Some neutral
      /\ _ensemble_combine predictions = Some ("neutral"%string, max2 neutral 0.5, cs)
      /\ max2 neutral 0.5 == Qmax neutral 0.5.
Proof.
  intros predictions cs NE C Low.
  destruct (@ensemble_combine_result predictions cs NE C) as [w [v [neutral [W [G R]]]]].
  exists neutral. split; [exact G|]. split; [|apply max2_is_Qmax].
  rewrite R.
  assert (Hv : v < Config.CONFIDENCE_THRESHOLD).
  { apply (Low w). unfold winner in W.
    apply bind_some in W. destruct W as [s [_ W]].
    apply bind_some in W. destruct W as [c [W E]].
    inversion E; subst. exact W. }
  apply lt_true_iff in Hv. now rewrite Hv.
Qed.

(** The theorem at {positive: 0.55, negative: 0.2, neutral: 0.25}. *)
Lemma hesitant_is_neutral :
  hesitant <> []
  /\ combine_scores hesitant = Some hesitant_scores
  /\ (forall c v, dict_get c hesitant_scores = Some v -> v < Config.CONFIDENCE_THRESHOLD)
  /\ exists neutral,
       dict_get "neutral" hesitant_scores = Some neutral
       /\ _ensemble_combine hesitant
          = Some ("neutral"%string, max2 neutral 0.5, hesitant_scores)
       /\ max2 neutral 0.5 == Qmax neutral 0.5.
Proof.
  assert (NE : hesitant <> []) by discriminate.
  assert (C : combine_scores hesitant = Some hesitant_scores) by (vm_compute; reflexivity).
  assert (L : forall c v, dict_get c hesitant_scores = Some v
                          -> v < Config.CONFIDENCE_THRESHOLD).
  { intros c v. unfold hesitant_scores. simpl.
    repeat match goal with
           | |- context [String.eqb c ?k] => destruct (String.eqb c k)
           end; intro H; inversion H; reflexivity. }
  split; [exact NE|]. split; [exact C|]. split; [exact L|].
  exact (@low_confidence_is_forced_neutral hesitant hesitant_scores NE C L).
Defined.

(** C3.  For a non-empty mapping of predictions whose score keys are
    among positive, negative and neutral, every combined class score that
    [_ensemble_combine] returns equals the sum over the present models of
    (the model's score for the class) * (the model's weight), divided by
    the sum of the weights of the present models; a model name without an
    entry in the weight table has weight 0.1. *)
Theorem combined_score_is_weighted_mean :
  forall predictions : dict prediction,
    predictions <> [] ->
    (forall m p, In (m, p) predictions -> three_class (scores p)) ->
    exists s conf cs,
      _ensemble_combine predictions = Some (s, conf, cs)
      /\ keys cs = classes
      /\ (forall c, In c classes ->
            exists v, dict_get c cs = Some v
                      /\ v == weighted_sum c predictions / present_weight predictions)
      /\ (forall m, ~ In m (keys weights) -> weight_of m = 0.1).
Proof.
  intros predictions NE V.
  destruct (@combine_scores_spec predictions NE V) as [cs [C [K S]]].
  destruct (@ensemble_combine_result predictions cs NE C) as [w [v [neutral [W [G R]]]]].
  assert (X : exists s conf, _ensemble_combine predictions = Some (s, conf, cs)).
  { rewrite R. destruct (Py.lt v Config.CONFIDENCE_THRESHOLD); eauto. }
  destruct X as [s [conf X]].
  exists s, conf, cs. split; [exact X|]. split; [exact K|]. split.
  - intros c Hc. rewrite <- K in Hc.
    destruct (@dict_get_in_keys _ c cs Hc) as [x Gx].
    exists x. split; [exact Gx|].
    rewrite <- S. unfold get_default. now rewrite Gx.
  - apply weight_of_default.
Qed.

(** The theorem at three models, one of them outside the weight table. *)
Lemma mixed_is_weighted_mean :
  mixed <> []
  /\ (forall m p, In (m, p) mixed -> three_class (scores p))
  /\ exists s conf cs,
       _ensemble_combine mixed = Some (s, conf, cs)
       /\ keys cs = classes
       /\ (forall c, In c classes ->
             exists v, dict_get c cs = Some v
                       /\ v == weighted_sum c mixed / present_weight mixed)
       /\ (forall m, ~ In m (keys weights) -> weight_of m = 0.1).
Proof.
  assert (NE : mixed <> []) by discriminate.
  assert (V : forall m p, In (m, p) mixed -> three_class (scores p)).
  { intros m p H. simpl in H.
    destruct H as [H|[H|[H|[]]]]; inversion H; subst; three_class_sample. }
  split; [exact NE|]. split; [exact V|].
  exact (@combined_score_is_weighted_mean mixed NE V).
Defined.

(** C9.  When the combined scores exist, the class picked by lines
    296-297 has the largest combined score, and among the classes whose
    score equals that maximum it is the first in the order positive,
    negative, neutral; [_ensemble_combine] returns that class with its
    score unless the score is below the threshold, in which case it
    returns 'neutral'; two runs on the same mapping return the same
    result. *)
Theorem ties_go_to_the_first_class :
  forall (predictions : dict prediction) (cs : dict Q),
    predictions <> [] ->
    combine_scores predictions = Some cs ->
    exists w v neutral,
      winner cs = Some (w, v)
      /\ dict_get w cs = Some v
      /\ (forall c x, dict_get c cs = Some x -> x <= v)
      /\ (forall c x, dict_get c cs = Some x -> x == v -> (rank w <= rank c)%nat)
      /\ dict_get "neutral" cs = Some neutral
      /\ _ensemble_combine predictions
         = Some (if Py.lt v Config.CONFIDENCE_THRESHOLD
                 then ("neutral"%string, max2 neutral 0.5, cs)
                 else (w, v, cs))
      /\ (forall r1 r2, _ensemble_combine predictions = r1 ->
                        _ensemble_combine predictions = r2 -> r1 = r2).
Proof.
  intros predictions cs NE C.
  destruct (@ensemble_combine_result predictions cs NE C) as [w [v [neutral [W [G R]]]]].
  exists w, v, neutral.
  pose proof (@combine_scores_keys predictions cs C) as K.
  destruct (@classes_shape cs K) as [p [n [u E]]]. subst cs.
  rewrite winner_three in W.
  assert (Cases : forall c x,
             dict_get c [("positive"%string, p); ("negative"%string, n); ("neutral"%string, u)]
             = Some x ->
             (c = "positive"%string /\ x = p) \/ (c = "negative"%string /\ x = n)
             \/ (c = "neutral"%string /\ x = u)).
  { intros c x. simpl.
    destruct (String.eqb c "positive") eqn:E1; [apply String.eqb_eq in E1|];
      [intro H; inversion H; auto|].
    destruct (String.eqb c "negative") eqn:E2; [apply String.eqb_eq in E2|];
      [intro H; inversion H; auto|].
    destruct (String.eqb c "neutral") eqn:E3; [apply String.eqb_eq in E3|];
      [intro H; inversion H; auto|discriminate]. }
  split; [now rewrite winner_three|].
  destruct (Py.lt p n) eqn:Lpn; [destruct (Py.lt n u) eqn:Lx | destruct (Py.lt p u) eqn:Lx];
    inversion W; subst w v; clear W;
    repeat match goal with
           | H : Py.lt _ _ = true |- _ => apply lt_true_iff in H
           | H : Py.lt _ _ = false |- _ => apply lt_false_iff in H
           end;
    (split; [reflexivity|]);
    (split; [intros c x H; destruct (Cases c x H) as [[? ?]|[[? ?]|[? ?]]]; subst; lra|]);
    (split; [intros c x H Q; destruct (Cases c x H) as [[? ?]|[[? ?]|[? ?]]]; subst;
             unfold rank; simpl; solve [lia | lra]|]);
    (split; [exact G|]); (split; [exact R|]); intros; congruence.
Qed.

(** The theorem at positive = negative = 0.5: the raw winner is
    'positive', and the verdict 'neutral' because 0.5 is below 0.6. *)
Lemma balanced_tie_picks_positive :
  balanced <> []
  /\ combine_scores balanced = Some balanced_scores
  /\ dict_get "positive" balanced_scores = dict_get "negative" balanced_scores
  /\ exists v neutral,
       winner balanced_scores = Some ("positive"%string, v)
       /\ dict_get "neutral" balanced_scores = Some neutral
       /\ _ensemble_combine balanced
          = Some (if Py.lt v Config.CONFIDENCE_THRESHOLD
                  then ("neutral"%string, max2 neutral 0.5, balanced_scores)
                  else ("positive"%string, v, balanced_scores)).
Proof.
  assert (NE : balanced <> []) by discriminate.
  assert (C : combine_scores balanced = Some balanced_scores) by (vm_compute; reflexivity).
  split; [exact NE|]. split; [exact C|]. split; [reflexivity|].
  destruct (@ties_go_to_the_first_class balanced balanced_scores NE C)
    as [w [v [neutral [W [_ [_ [_ [G [R _]]]]]]]]].
  assert (E : w = "positive"%string).
  { vm_compute in W. inversion W. reflexivity. }
  subst w. exists v, neutral. auto.
Defined.

(** A tie above the threshold is returned as 'positive'. *)
Lemma loud_tie_is_positive :
  exists v cs, _ensemble_combine loud_tie = Some ("positive"%string, v, cs)
               /\ dict_get "positive" cs = dict_get "negative" cs.
Proof.
  do 2 eexists. split; vm_compute; reflexivity.
Qed.


(** C4, as amended.  positive + negative + neutral is within 0.01 of 1.0
    for the scores of [_normalize_textblob_output] on every polarity, for
    the scores of [_normalize_vader_output] whenever pos + neu + neg is
    positive, for the combined scores of a non-empty mapping in which
    every model's scores range over the three classes and sum to within
    0.01 of 1.0, and for the fallback scores of the empty mapping. *)
Theorem score_sums_within_tolerance :
  (forall polarity, near_one (three_sum (scores (_normalize_textblob_output polarity))))
  /\ (forall v, 0 < pos v + neu v + neg v ->
                near_one (three_sum (scores (_normalize_vader_output v))))
  /\ (forall predictions,
        predictions <> [] ->
        (forall m p, In (m, p) predictions ->
                     three_class (scores p) /\ near_one (three_sum (scores p))) ->
        exists s conf cs,
          _ensemble_combine predictions = Some (s, conf, cs) /\ near_one (three_sum cs))
  /\ (exists s conf cs,
        _ensemble_combine [] = Some (s, conf, cs) /\ near_one (three_sum cs)).
Proof.
  split; [|split; [|split]].
  - intro polarity. apply near_one_of_eq, textblob_scores_sum.
  - intros v H. apply near_one_of_eq, vader_scores_sum, H.
  - apply combined_scores_sum.
  - do 3 eexists. split; [reflexivity|].
    apply near_one_of_eq. reflexivity.
Qed.

(** The theorem at the two lightweight models the analyzer loads. *)
Lemma lightweight_sums_to_one :
  lightweight <> []
  /\ (forall m p, In (m, p) lightweight ->
                  three_class (scores p) /\ near_one (three_sum (scores p)))
  /\ exists s conf cs,
       _ensemble_combine lightweight = Some (s, conf, cs) /\ near_one (three_sum cs).
Proof.
  assert (NE : lightweight <> []) by discriminate.
  assert (V : forall m p, In (m, p) lightweight ->
                          three_class (scores p) /\ near_one (three_sum (scores p))).
  { intros m p H. simpl in H. destruct H as [H|[H|[]]]; inversion H; subst; split.
    - three_class_sample.
    - apply (proj1 (proj2 score_sums_within_tolerance)). reflexivity.
    - three_class_sample.
    - apply (proj1 score_sums_within_tolerance). }
  split; [exact NE|]. split; [exact V|].
  exact (proj1 (proj2 (proj2 score_sums_within_tolerance)) lightweight NE V).
Defined.

(** C4 as stated fails: without a token VADER reports pos = neu = neg = 0,
    the guard of [_normalize_vader_output] returns three zeros, and the
    scores combined from it and TextBlob sum to 1/3. *)
Lemma vader_guard_breaks_unit_sum :
  ~ near_one (three_sum (scores (_normalize_vader_output silent_vader)))
  /\ exists s conf cs,
       _ensemble_combine [("vader"%string, _normalize_vader_output silent_vader);
                          ("textblob"%string, _normalize_textblob_output 0)]
       = Some (s, conf, cs)
       /\ ~ near_one (three_sum cs).
Proof.
  split.
  - unfold near_one. vm_compute. intro H. apply H. reflexivity.
  - do 3 eexists. split; [vm_compute; reflexivity|].
    unfold near_one. vm_compute. intro H. apply H. reflexivity.
Qed.

End EnsembleClaims.

Section AnalyzeClaims.

Import SentimentAnalyzer Spec Examples.

(** C2, as amended.  [analyze] returns the fixed verdict (neutral, 0.5,
    scores 0.33 / 0.33 / 0.34, tagged as too short), without calling an
    adapter or the combiner, exactly when the raw text is empty or has
    fewer than 10 characters once stripped, whatever classifiers the
    analyzer holds; the length of the normalized text plays no part. *)
Theorem short_raw_text_gets_fixed_verdict :
  forall (A : analyzer) (t : text),
    analyze A t = Some too_short_verdict
    <-> (List.length (strip (unicode A) t) < 10)%nat.
Proof.
  intros A t. unfold analyze.
  destruct t as [|c t]; [simpl; split; [lia|reflexivity]|].
  cbn [is_empty orb].
  destruct (Nat.ltb_spec (List.length (strip (unicode A) (c :: t))) 10) as [L|L].
  - split; [intros _; exact L|reflexivity].
  - split; [|lia].
    destruct (_ensemble_combine _) as [r|]; simpl; intro H; [|discriminate].
    inversion H.
Qed.

(** The theorem at a text of nine characters. *)
Lemma nine_characters_are_too_short :
  (List.length (strip (unicode quiet) (codes "Too short")) < 10)%nat
  /\ analyze quiet (codes "Too short") = Some too_short_verdict.
Proof.
  assert (L : (List.length (strip (unicode quiet) (codes "Too short")) < 10)%nat)
    by (apply Nat.ltb_lt; vm_compute; reflexivity).
  split; [exact L|].
  exact (proj2 (short_raw_text_gets_fixed_verdict quiet (codes "Too short")) L).
Defined.

(** C2 as stated fails: a text that is only a URL has 23 raw characters
    and an empty normalized form, and it is sent to the adapters and the
    combiner. *)
Lemma url_only_is_not_short_circuited :
  (List.length (_preprocess_text (unicode quiet) url_only) < 10)%nat
  /\ analyze quiet url_only <> Some too_short_verdict.
Proof.
  split.
  - apply Nat.ltb_lt. vm_compute. reflexivity.
  - vm_compute. discriminate.
Qed.

End AnalyzeClaims.

Section NormalizerClaims.

Import Re SentimentAnalyzer Spec Examples.

(** C6, as amended.  For every input whose normalized form has no two
    consecutive spaces, a second pass of [_preprocess_text] changes
    nothing: normalize(normalize(x)) = normalize(x). *)
Theorem normalize_idempotent_without_double_space :
  forall (T : tables) (x : text),
    double_space (_preprocess_text T x) = false ->
    _preprocess_text T (_preprocess_text T x) = _preprocess_text T x.
Proof.
  intros T x D. apply stable_text.
  - intros c H. apply (@clean_kept T x). now apply preprocess_incl.
  - intros c H. apply (@clean_plain T x). now apply preprocess_incl.
  - exact D.
  - apply preprocess_length.
  - unfold _preprocess_text. apply strip_strip.
Qed.

(** The theorem at a sentence with a URL and a double space in it. *)
Lemma tidy_sentence_is_stable :
  double_space (_preprocess_text latin1 tidy_sentence) = false
  /\ _preprocess_text latin1 (_preprocess_text latin1 tidy_sentence)
     = _preprocess_text latin1 tidy_sentence.
Proof.
  assert (D : double_space (_preprocess_text latin1 tidy_sentence) = false)
    by (vm_compute; reflexivity).
  split; [exact D|].
  exact (@normalize_idempotent_without_double_space latin1 tidy_sentence D).
Defined.

(** C6 as stated fails: the filter runs after the whitespace collapse, so
    "a # b" becomes "a  b" with two spaces, which the second pass
    collapses to "a b". *)
Lemma second_pass_collapses_spaces :
  _preprocess_text latin1 hash_between_spaces = codes "a  b"
  /\ _preprocess_text latin1 (_preprocess_text latin1 hash_between_spaces) = codes "a b"
  /\ _preprocess_text latin1 (_preprocess_text latin1 hash_between_spaces)
     <> _preprocess_text latin1 hash_between_spaces.
Proof.
  split; [vm_compute; reflexivity|]. split; [vm_compute; reflexivity|].
  vm_compute. discriminate.
Qed.

(** C7.  The text after truncation has at most 512 characters, and so
    has the normalizer's result; a cleaned text of more than 512
    characters with a '.' among its first 512 is cut just after the last
    such '.'; one without is cut to its first 512 characters exactly; a
    cleaned text of at most 512 characters is not cut. *)
Theorem truncation_respects_limit :
  (forall t : text,
      (List.length (truncate t) <= 512)%nat
      /\ ((List.length t <= 512)%nat -> truncate t = t)
      /\ ((512 < List.length t)%nat -> In dot (firstn 512 t) ->
          exists k,
            (1 <= k <= 512)%nat
            /\ truncate t = firstn k t
            /\ nth_error t (k - 1) = Some dot
            /\ ~ In dot (skipn k (firstn 512 t)))
      /\ ((512 < List.length t)%nat -> ~ In dot (firstn 512 t) ->
          truncate t = firstn 512 t /\ List.length (truncate t) = 512%nat))
  /\ (forall (T : tables) (x : text),
         _preprocess_text T x = strip T (truncate (clean T x))
         /\ (List.length (_preprocess_text T x) <= 512)%nat).
Proof.
  change 512%nat with max_length.
  split.
  - intro t. split; [apply truncate_length|]. split; [apply truncate_short|].
    split; [apply truncate_at_boundary|].
    intros L I. split; [now apply truncate_hard|].
    rewrite (@truncate_hard t L I), length_firstn. lia.
  - intros T x. split; [reflexivity|apply preprocess_length].
Qed.

(** The theorem at 300 letters, a full stop, a space and 300 letters. *)
Lemma long_text_is_cut_after_its_sentence :
  (512 < List.length long_text)%nat
  /\ In dot (firstn 512 long_text)
  /\ exists k,
       (1 <= k <= 512)%nat
       /\ truncate long_text = firstn k long_text
       /\ nth_error long_text (k - 1) = Some dot
       /\ ~ In dot (skipn k (firstn 512 long_text)).
Proof.
  assert (L : (512 < List.length long_text)%nat)
    by (apply Nat.ltb_lt; vm_compute; reflexivity).
  assert (I : In dot (firstn 512 long_text)).
  { apply (@nth_error_in_firstn 512 300 dot long_text).
    - vm_compute. reflexivity.
    - apply Nat.ltb_lt. vm_compute. reflexivity. }
  split; [exact L|]. split; [exact I|].
  exact (proj1 (proj2 (proj2 (proj1 truncation_respects_limit long_text))) L I).
Defined.

End NormalizerClaims.

Section StoreClaims.

Import DataManager Examples.
Local Open Scope Q_scope.

(** C5.  When [store_analysis] succeeds for a topic whose (topic, today)
    summary row already exists, the summary table afterwards holds
    exactly one row for that key: a new row whose total, three counts and
    average confidence are computed from the batch alone; the rows of
    other keys are untouched. *)
Theorem summary_row_is_replaced :
  forall (e : environment) (kw : string) (articles : list article)
         (db db' : database) (old : summary_row),
    store_analysis e kw articles db = (db', true) ->
    In old (analysis_summary db) ->
    same_key kw (today e) old = true ->
    exists avg,
      average_confidence articles = Some avg
      /\ filter (same_key kw (today e)) (analysis_summary db')
         = [{| summary_id := summary_sequence db + 1;
               summary_keywords := kw;
               date := today e;
               total_articles := List.length articles;
               positive_count := count_sentiment "positive" articles;
               negative_count := count_sentiment "negative" articles;
               neutral_count := count_sentiment "neutral" articles;
               avg_confidence := avg;
               summary_created_at := current_timestamp e |}]
      /\ filter (fun r => negb (same_key kw (today e) r)) (analysis_summary db')
         = filter (fun r => negb (same_key kw (today e) r)) (analysis_summary db).
Proof.
  intros e kw articles db db' old S _ _.
  destruct (@store_analysis_summary e kw articles db db' S) as [avg [A E]].
  exists avg. split; [exact A|]. rewrite E.
  apply filter_replaced. apply same_key_new.
Qed.

(** The theorem at a second batch on the day of an earlier one. *)
Lemma afternoon_batch_replaces_morning_summary :
  exists db',
    store_analysis january "economy" afternoon_batch stored = (db', true)
    /\ In morning_summary (analysis_summary stored)
    /\ same_key "economy" (today january) morning_summary = true
    /\ exists avg,
         average_confidence afternoon_batch = Some avg
         /\ filter (same_key "economy" (today january)) (analysis_summary db')
            = [{| summary_id := 3;
                  summary_keywords := "economy";
                  date := "2026-01-31";
                  total_articles := 2;
                  positive_count := 1;
                  negative_count := 1;
                  neutral_count := 0;
                  avg_confidence := avg;
                  summary_created_at := "2026-01-31 12:00:00" |}]
         /\ filter (fun r => negb (same_key "economy" (today january) r))
                   (analysis_summary db')
            = [old_summary].
Proof.
  eexists.
  assert (S : store_analysis january "economy" afternoon_batch stored = (_, true))
    by (vm_compute; reflexivity).
  assert (I : In morning_summary (analysis_summary stored)) by (simpl; auto).
  assert (K : same_key "economy" (today january) morning_summary = true) by reflexivity.
  split; [exact S|]. split; [exact I|]. split; [exact K|].
  exact (@summary_row_is_replaced january "economy" afternoon_batch stored _
                                  morning_summary S I K).
Defined.

(** C10.  [store_analysis] on an empty batch succeeds: the verdict table
    is unchanged, and the summary table holds exactly one row for
    (topic, today), with total 0, the three counts 0 and average
    confidence 0, in place of whatever row that key had; the rows of
    other keys are untouched. *)
Theorem empty_batch_overwrites_summary :
  forall (e : environment) (kw : string) (db : database),
  exists db',
    store_analysis e kw [] db = (db', true)
    /\ analysis_results db' = analysis_results db
    /\ filter (same_key kw (today e)) (analysis_summary db')
       = [{| summary_id := summary_sequence db + 1;
             summary_keywords := kw;
             date := today e;
             total_articles := 0;
             positive_count := 0;
             negative_count := 0;
             neutral_count := 0;
             avg_confidence := 0;
             summary_created_at := current_timestamp e |}]
    /\ filter (fun r => negb (same_key kw (today e) r)) (analysis_summary db')
       = filter (fun r => negb (same_key kw (today e) r)) (analysis_summary db).
Proof.
  intros e kw db. eexists. split; [reflexivity|]. split; [reflexivity|].
  simpl. apply filter_replaced. apply same_key_new.
Qed.

(** C8 on a stored state with a result and a summary from June 2025,
    cleaned up on 31 January 2026 with [days = 30]: both rows are older
    than the cutoff and both are still there afterwards, because VACUUM
    raises inside the transaction the DELETE statements opened and the
    connection rolls back. *)
Theorem cleanup_leaves_old_rows :
  String.ltb (sql_date (created_at old_result)) (cutoff_date january 30) = true
  /\ String.ltb (date old_summary) (cutoff_date january 30) = true
  /\ In old_result (analysis_results (cleanup_old_data january 30 stored))
  /\ In old_summary (analysis_summary (cleanup_old_data january 30 stored))
  /\ cleanup_old_data january 30 stored = stored.
Proof.
  repeat split; try reflexivity; simpl; auto.
Qed.

End StoreClaims.

(* ================================================================== *)
(** * More about the normalizer *)
(* ================================================================== *)

Section NormalizerLemmas.

Import Re SentimentAnalyzer Spec.

Variable T : tables.

(** Deleting matches never lengthens a text. *)
Lemma sub_delete_length (r : regex) (fuel : nat) :
  forall s, (List.length (sub_from r [] fuel s) <= List.length s)%nat.
Proof.
  induction fuel as [|fuel IH]; intro s; [simpl; lia|].
  destruct s as [|x rest]; [simpl; lia|].
  cbn [sub_from]. unfold match_at.
  destruct (matches r (x :: rest)) as [|after others] eqn:M; cbn [hd_error].
  - specialize (IH rest). cbn [List.length]. lia.
  - destruct (@matches_suffix r (x :: rest) after) as [w E].
    { rewrite M. simpl. auto. }
    specialize (IH after). cbn [app].
    assert (L : (List.length after <= List.length (x :: rest))%nat).
    { rewrite E, length_app. lia. }
    lia.
Qed.

Lemma sub_whitespace_length (fuel : nat) :
  forall s, (List.length (sub_from (whitespace_pattern T) [ch " "] fuel s)
             <= List.length s)%nat.
Proof.
  induction fuel as [|fuel IH]; intro s; [simpl; lia|].
  destruct s as [|x rest]; [simpl; lia|].
  rewrite sub_whitespace_step.
  destruct (isspace T x).
  - pose proof (lstrip_length T rest). specialize (IH (lstrip T rest)).
    cbn [List.length]. lia.
  - specialize (IH rest). cbn [List.length]. lia.
Qed.

Lemma clean_length (x : text) : (List.length (clean T x) <= List.length x)%nat.
Proof.
  unfold clean, sub.
  pose proof (sub_delete_length url_pattern (List.length x) x) as H1.
  set (a := sub_from url_pattern [] (List.length x) x) in *.
  pose proof (sub_delete_length (email_pattern T) (List.length a) a) as H2.
  set (b := sub_from (email_pattern T) [] (List.length a) a) in *.
  pose proof (sub_whitespace_length (List.length b) b) as H3.
  set (c := sub_from (whitespace_pattern T) [ch " "] (List.length b) b) in *.
  pose proof (sub_delete_length (special_pattern T) (List.length c) c) as H4.
  lia.
Qed.

Lemma truncate_never_longer (t : text) : (List.length (truncate t) <= List.length t)%nat.
Proof.
  destruct (truncate_prefix t) as [w E]. rewrite E at 2. rewrite length_app. lia.
Qed.


Lemma preprocess_lstripped (x : text) :
  lstrip T (_preprocess_text T x) = _preprocess_text T x.
Proof.
  unfold _preprocess_text, strip. apply lstrip_rstrip. apply lstrip_lstrip.
Qed.

Lemma preprocess_rstripped (x : text) :
  rstrip T (_preprocess_text T x) = _preprocess_text T x.
Proof.
  unfold _preprocess_text, strip. apply rstrip_rstrip.
Qed.

(** On a text of whitespace only, [\s+] -> ' ' leaves at most one space. *)
Lemma lstrip_blank (s : text) :
  (forall c, In c s -> isspace T c = true) -> lstrip T s = [].
Proof.
  induction s as [|c s IH]; intro H; [reflexivity|].
  simpl. rewrite (H c) by (simpl; auto). apply IH. intros d Hd. apply H. simpl. auto.
Qed.

Lemma clean_blank (x : text) :
  (forall c, In c x -> isspace T c = true) ->
  clean T x = match x with [] => [] | _ :: _ => [ch " "] end.
Proof.
  intro B. unfold clean.
  rewrite (@sub_requires (ch "h") url_pattern [] x eq_refl).
  2:{ intro H. apply B in H. discriminate. }
  rewrite (@sub_requires (ch "@") (email_pattern T) [] x eq_refl).
  2:{ intro H. apply B in H. discriminate. }
  destruct x as [|c rest]; [reflexivity|].
  unfold sub at 2. cbn [List.length]. rewrite sub_whitespace_step.
  rewrite (B c) by (simpl; auto).
  rewrite lstrip_blank by (intros d Hd; apply B; simpl; auto).
  replace (sub_from (whitespace_pattern T) [ch " "] (List.length rest) [])
    with (@nil char) by (destruct (List.length rest); reflexivity).
  reflexivity.
Qed.

(** Membership by search. *)
Lemma in_text (c : char) (s : text) : existsb (N.eqb c) s = true -> In c s.
Proof.
  intro H. apply existsb_exists in H. destruct H as [x [I E]].
  apply N.eqb_eq in E. now subst.
Qed.

End NormalizerLemmas.

Section NormalizerProperties.

Import Re SentimentAnalyzer Spec Examples Cases.

(** X1.  Every character of a normalized text is a word character, the space
    U+0020 or one of . , ! ? ; : - ; in particular no '/' and no '@' is
    left, so the result holds no URL and no e-mail address. *)
Theorem normalized_alphabet :
  forall (T : tables) (x : text) (c : char),
    In c (_preprocess_text T x) ->
    (isword T c = true \/ c = ch " " \/ one_of ".,!?;:-" c = true)
    /\ c <> ch "/" /\ c <> ch "@".
Proof.
  intros T x c H.
  apply preprocess_incl in H.
  pose proof (@clean_kept T x c H) as K.
  pose proof (@clean_plain T x c H) as P.
  split.
  - unfold kept in K.
    destruct (isword T c); [now left|].
    destruct (isspace T c); [right; left; now apply P|].
    right. right. exact K.
  - split; intro E; subst c.
    + rewrite slash_not_kept in K. discriminate.
    + rewrite at_not_kept in K. discriminate.
Qed.

(** The theorem at the comma of a sentence with a URL in it. *)
Lemma comma_survives_normalizing :
  In (ch ",") (_preprocess_text latin1 tidy_sentence)
  /\ (isword latin1 (ch ",") = true \/ ch "," = ch " "
      \/ one_of ".,!?;:-" (ch ",") = true)
  /\ ch "," <> ch "/" /\ ch "," <> ch "@".
Proof.
  assert (I : In (ch ",") (_preprocess_text latin1 tidy_sentence)).
  { apply (in_text (ch ",")). vm_compute. reflexivity. }
  split; [exact I|].
  exact (@normalized_alphabet latin1 tidy_sentence (ch ",") I).
Defined.

(** X2.  A normalized text has no whitespace at either end. *)
Theorem normalized_is_stripped :
  forall (T : tables) (x : text),
    strip T (_preprocess_text T x) = _preprocess_text T x
    /\ (forall c rest, _preprocess_text T x = c :: rest -> isspace T c = false)
    /\ (forall init c, _preprocess_text T x = init ++ [c] -> isspace T c = false).
Proof.
  intros T x. split; [|split].
  - unfold _preprocess_text. apply strip_strip.
  - intros c rest E. apply (@lstrip_head T c rest).
    rewrite <- E. apply preprocess_lstripped.
  - intros init c E.
    pose proof (preprocess_rstripped T x) as R. rewrite E in R.
    unfold rstrip in R. apply (f_equal (@rev char)) in R.
    rewrite rev_involutive, rev_app_distr in R.
    apply (@lstrip_head T c (rev init)). exact R.
Qed.

(** X3.  Normalizing never lengthens a text. *)
Theorem normalized_never_longer :
  forall (T : tables) (x : text),
    (List.length (_preprocess_text T x) <= List.length x)%nat.
Proof.
  intros T x. unfold _preprocess_text.
  pose proof (strip_length T (truncate (clean T x))).
  pose proof (truncate_never_longer (clean T x)).
  pose proof (clean_length T x). lia.
Qed.

(** X4.  The texts that normalization leaves unchanged are exactly those made
    of kept characters only, whose whitespace is single U+0020 characters,
    not at either end, and which have at most 512 characters. *)
Theorem normalize_fixed_points :
  forall (T : tables) (y : text),
    _preprocess_text T y = y
    <-> ((forall c, In c y -> kept T c = true)
         /\ plain_spaces T y
         /\ double_space y = false
         /\ (List.length y <= 512)%nat
         /\ strip T y = y).
Proof.
  intros T y. split.
  - intro E. split; [|split; [|split; [|split]]].
    + intros c H. rewrite <- E in H. apply preprocess_incl in H.
      exact (@clean_kept T y c H).
    + intros c H. rewrite <- E in H. apply preprocess_incl in H.
      exact (@clean_plain T y c H).
    + rewrite <- E. rewrite <- E at 1. apply second_pass_single_spaces.
    + rewrite <- E. apply preprocess_length.
    + rewrite <- E. unfold _preprocess_text. apply strip_strip.
  - intros [K [P [D [L S]]]]. now apply stable_text.
Qed.

(** X5.  A text of whitespace only (the empty text included) normalizes to the
    empty text. *)
Theorem blank_text_normalizes_to_empty :
  forall (T : tables) (x : text),
    (forall c, In c x -> isspace T c = true) -> _preprocess_text T x = [].
Proof.
  intros T x B. unfold _preprocess_text.
  rewrite clean_blank by exact B.
  destruct x; reflexivity.
Qed.

(** The theorem at a space, a tab, a line feed and a space. *)
Lemma blank_is_normalized_away :
  (forall c, In c blank -> isspace latin1 c = true)
  /\ _preprocess_text latin1 blank = [].
Proof.
  assert (B : forall c, In c blank -> isspace latin1 c = true).
  { intros c I. simpl in I.
    destruct I as [<-|[<-|[<-|[<-|[]]]]]; reflexivity. }
  split; [exact B|].
  exact (@blank_text_normalizes_to_empty latin1 blank B).
Defined.

End NormalizerProperties.

(* ================================================================== *)
(** * More about the combiner *)
(* ================================================================== *)

Section CombinerLemmas.

Import SentimentAnalyzer Spec.
Local Open Scope Q_scope.

(** A key the combined scores do not have. *)
Lemma dict_get_none_not_in (V : Type) (k : string) (d : dict V) :
  dict_get k d = None -> ~ In k (keys d).
Proof.
  intros H I. destruct (@dict_get_in_keys V k d I) as [v E]. congruence.
Qed.

Lemma add_scores_outcome (w : Q) (sc : dict Q) :
  forall cs,
    (exists cs', for_each (add_score w) sc cs = Some cs' /\ incl (keys sc) (keys cs))
    \/ (for_each (add_score w) sc cs = None
        /\ exists k, In k (keys sc) /\ ~ In k (keys cs)).
Proof.
  induction sc as [|[k v] sc IH]; intro cs.
  - left. exists cs. split; [reflexivity|]. intros x [].
  - cbn [for_each].
    assert (E : add_score w cs (k, v)
                = match dict_get k cs with
                  | Some old => Some (dict_set k (old + v * w) cs)
                  | None => None
                  end) by (unfold add_score; simpl; destruct (dict_get k cs); reflexivity).
    rewrite E. clear E.
    destruct (dict_get k cs) as [old|] eqn:G; cbn [bind].
    + pose proof (@dict_get_some_in_keys Q k cs old G) as I.
      destruct (IH (dict_set k (old + v * w) cs)) as [[cs' [R INC]]|[R [k' [I1 I2]]]].
      * left. exists cs'. split; [exact R|].
        rewrite keys_dict_set in INC by exact I.
        intros x [X|X]; [now subst|now apply INC].
      * right. split; [exact R|]. exists k'.
        rewrite keys_dict_set in I2 by exact I.
        split; [simpl; auto|exact I2].
    + right. split; [reflexivity|]. exists k. split; [simpl; auto|].
      now apply dict_get_none_not_in.
Qed.

Lemma add_predictions_outcome (predictions : dict prediction) :
  forall st,
    keys (fst st) = classes ->
    (exists st', for_each add_prediction predictions st = Some st'
                 /\ forall m p, In (m, p) predictions -> incl (keys (scores p)) classes)
    \/ (for_each add_prediction predictions st = None
        /\ exists m p k, In (m, p) predictions /\ In k (keys (scores p))
                         /\ ~ In k classes).
Proof.
  induction predictions as [|[m p] rest IH]; intros st K.
  - left. exists st. split; [reflexivity|]. intros ? ? [].
  - cbn [for_each].
    assert (E : add_prediction st (m, p)
                = match for_each (add_score (get_default m 0.1 weights)) (scores p) (fst st)
                  with
                  | Some cs' => Some (cs', snd st + get_default m 0.1 weights)
                  | None => None
                  end)
      by (unfold add_prediction; simpl; destruct (for_each _ _ _); reflexivity).
    rewrite E. clear E.
    destruct (add_scores_outcome (get_default m 0.1 weights) (scores p) (fst st))
      as [[cs' [R INC]]|[R [k [I1 I2]]]]; rewrite R; cbn [bind].
    + destruct (IH (cs', snd st + get_default m 0.1 weights))
        as [[st' [R' V]]|[R' [m' [p' [k [I [I1 I2]]]]]]].
      { cbn [fst]. rewrite (@add_scores_keys _ _ _ _ R). exact K. }
      * left. exists st'. split; [exact R'|].
        intros m' p' [E|I]; [|now apply (V m' p')].
        inversion E; subst. now rewrite <- K.
      * right. split; [exact R'|]. exists m', p', k. simpl. auto.
    + right. split; [reflexivity|]. exists m, p, k.
      rewrite <- K. simpl. auto.
Qed.


Lemma combine_scores_outcome (predictions : dict prediction) :
  (exists cs, combine_scores predictions = Some cs
              /\ forall m p, In (m, p) predictions -> incl (keys (scores p)) classes)
  \/ (combine_scores predictions = None
      /\ exists m p k, In (m, p) predictions /\ In k (keys (scores p)) /\ ~ In k classes).
Proof.
  unfold combine_scores.
  destruct (@add_predictions_outcome predictions (initial_scores, 0.0) eq_refl)
    as [[st' [R V]]|[R B]]; rewrite R; cbn [bind].
  - left. eexists. split; [reflexivity|exact V].
  - right. split; [reflexivity|exact B].
Qed.

(** Bounds on every model's score for a class carry over to the weighted
    sum. *)
Lemma weighted_sum_bounds (c : string) (lo hi : Q) (predictions : dict prediction) :
  (forall m p, In (m, p) predictions -> lo <= model_score p c <= hi) ->
  lo * present_weight predictions <= weighted_sum c predictions
  /\ weighted_sum c predictions <= hi * present_weight predictions.
Proof.
  induction predictions as [|[m p] rest IH]; simpl; intro V.
  - split; lra.
  - destruct IH as [L U]. { intros m' p' H. apply (V m' p'). now right. }
    destruct (V m p (or_introl eq_refl)) as [B1 B2].
    pose proof (weight_of_positive m) as W.
    split; nra.
Qed.

(** What [_ensemble_combine] returns, in terms of the raw winner. *)
Lemma ensemble_verdict_bounds (predictions : dict prediction)
      (s : string) (conf : Q) (cs : dict Q) :
  _ensemble_combine predictions = Some (s, conf, cs) ->
  In s classes /\ 0.5 <= conf /\ (s <> "neutral"%string -> 0.6 <= conf).
Proof.
  destruct predictions as [|item rest].
  - simpl. intro H. inversion H; subst.
    split; [unfold classes; simpl; auto|]. split; [lra|]. congruence.
  - intro H.
    destruct (combine_scores (item :: rest)) as [cs0|] eqn:C.
    2:{ unfold _ensemble_combine in H. rewrite C in H. discriminate. }
    destruct (@ensemble_combine_result (item :: rest) cs0 ltac:(discriminate) C)
      as [w [v [neutral [W [G R]]]]].
    rewrite R in H.
    pose proof (@combine_scores_keys _ _ C) as K.
    destruct (Py.lt v Config.CONFIDENCE_THRESHOLD) eqn:L; inversion H; subst.
    + split; [unfold classes; simpl; auto|]. split; [|congruence].
      rewrite max2_is_Qmax. apply Q.le_max_r.
    + apply lt_false_iff in L. unfold Config.CONFIDENCE_THRESHOLD in L.
      split; [|split; [lra|intros _; exact L]].
      rewrite <- K. unfold winner in W.
      apply bind_some in W. destruct W as [s0 [_ W]].
      apply bind_some in W. destruct W as [c0 [W E]].
      inversion E; subst. eapply dict_get_some_in_keys; eauto.
Qed.

End CombinerLemmas.

Section CombinerProperties.

Import SentimentAnalyzer Spec Examples Cases.
Local Open Scope Q_scope.

(** Proves [three_class] of a literal score mapping, and bounds on its
    entries. *)
Ltac literal_three_class :=
  split;
  [ unfold well_formed, keys; simpl;
    repeat (constructor; [simpl; intuition discriminate|]); constructor
  | intros k Hk; simpl in Hk; unfold classes; simpl; intuition ].

Ltac literal_scores_bounded :=
  intros k v; simpl;
  repeat match goal with
         | |- context [String.eqb k ?s] => destruct (String.eqb k s)
         end;
  let X := fresh "X" in
  intro X; inversion X; subst; clear X; split; unfold Qle; simpl; lia.

(** X6.  [_ensemble_combine] raises (KeyError) exactly when some present model
    scores a label other than positive, negative and neutral. *)
Theorem combiner_raises_on_foreign_label :
  forall predictions : dict prediction,
    _ensemble_combine predictions = None
    <-> exists m p k, In (m, p) predictions /\ In k (keys (scores p)) /\ ~ In k classes.
Proof.
  intro predictions. destruct predictions as [|item rest].
  - split; [discriminate|]. intros [m [p [k [[] _]]]].
  - destruct (combine_scores_outcome (item :: rest)) as [[cs [C V]]|[C B]].
    + destruct (@ensemble_combine_result (item :: rest) cs ltac:(discriminate) C)
        as [w [v [neutral [_ [_ R]]]]].
      split.
      * rewrite R. destruct (Py.lt v Config.CONFIDENCE_THRESHOLD); discriminate.
      * intros [m [p [k [I [I1 I2]]]]]. exfalso. apply I2. now apply (V m p).
    + split; [intros _; exact B|]. intros _.
      unfold _ensemble_combine. now rewrite C.
Qed.

(** X7.  When every model's scores lie in [0, 1], so does every combined score,
    and the confidence returned lies in [0.5, 1]. *)
Theorem combined_scores_stay_in_unit_interval :
  forall predictions : dict prediction,
    predictions <> [] ->
    (forall m p, In (m, p) predictions ->
                 three_class (scores p)
                 /\ forall k v, dict_get k (scores p) = Some v -> 0 <= v <= 1) ->
    exists s conf cs,
      _ensemble_combine predictions = Some (s, conf, cs)
      /\ (forall c v, dict_get c cs = Some v -> 0 <= v <= 1)
      /\ 0.5 <= conf <= 1.
Proof.
  intros predictions NE V.
  assert (V1 : forall m p, In (m, p) predictions -> three_class (scores p))
    by (intros m p H; apply (V m p H)).
  destruct (@combine_scores_spec predictions NE V1) as [cs [C [K S]]].
  pose proof (@present_weight_positive predictions NE) as P.
  assert (B : forall c v, dict_get c cs = Some v -> 0 <= v <= 1).
  { intros c v G.
    assert (E : v == weighted_sum c predictions / present_weight predictions).
    { rewrite <- S. unfold get_default. now rewrite G. }
    destruct (@weighted_sum_bounds c 0 1 predictions) as [L U].
    { intros m p H. unfold model_score, get_default.
      destruct (dict_get c (scores p)) as [x|] eqn:X; [|lra].
      apply (proj2 (V m p H) c x X). }
    rewrite E. split.
    - apply Qle_shift_div_l; [exact P|]. lra.
    - apply Qle_shift_div_r; [exact P|]. lra. }
  destruct (@ensemble_combine_result predictions cs NE C) as [w [v [neutral [W [G R]]]]].
  destruct (Py.lt v Config.CONFIDENCE_THRESHOLD) eqn:L.
  - exists "neutral"%string, (max2 neutral 0.5), cs.
    split; [exact R|]. split; [exact B|].
    destruct (B _ _ G) as [B1 B2].
    unfold max2. destruct (Py.lt neutral 0.5) eqn:M.
    + lra.
    + apply lt_false_iff in M. lra.
  - exists w, v, cs. split; [exact R|]. split; [exact B|].
    apply lt_false_iff in L. unfold Config.CONFIDENCE_THRESHOLD in L.
    assert (Gw : dict_get w cs = Some v).
    { unfold winner in W.
      apply bind_some in W. destruct W as [s0 [_ W]].
      apply bind_some in W. destruct W as [c0 [W E]].
      inversion E; subst. exact W. }
    destruct (B _ _ Gw). lra.
Qed.

(** The theorem at VADER and TextBlob together. *)
Lemma lightweight_scores_are_probabilities :
  lightweight <> []
  /\ exists s conf cs,
       _ensemble_combine lightweight = Some (s, conf, cs)
       /\ (forall c v, dict_get c cs = Some v -> 0 <= v <= 1)
       /\ 0.5 <= conf <= 1.
Proof.
  assert (NE : lightweight <> []) by discriminate.
  assert (V : forall m p, In (m, p) lightweight ->
                three_class (scores p)
                /\ forall k v, dict_get k (scores p) = Some v -> 0 <= v <= 1).
  { intros m p H. simpl in H. destruct H as [H|[H|[]]]; inversion H; subst; split;
      try literal_three_class; literal_scores_bounded. }
  split; [exact NE|].
  exact (@combined_scores_stay_in_unit_interval lightweight NE V).
Defined.



(** X9.  A verdict other than 'neutral' is the class with the largest combined
    score, and its confidence, that score, is at least 0.6; a 'neutral'
    verdict has confidence at least 0.5. *)
Theorem polar_verdict_is_confident_argmax :
  forall (predictions : dict prediction) (s : string) (conf : Q) (cs : dict Q),
    _ensemble_combine predictions = Some (s, conf, cs) ->
    In s classes
    /\ 0.5 <= conf
    /\ (s <> "neutral"%string ->
        0.6 <= conf
        /\ dict_get s cs = Some conf
        /\ forall c v, dict_get c cs = Some v -> v <= conf).
Proof.
  intros predictions s conf cs H.
  destruct (ensemble_verdict_bounds _ H) as [I [B P]].
  split; [exact I|]. split; [exact B|]. intro N.
  split; [exact (P N)|].
  destruct predictions as [|item rest].
  { simpl in H. inversion H; subst. congruence. }
  destruct (combine_scores (item :: rest)) as [cs0|] eqn:C.
  2:{ unfold _ensemble_combine in H. rewrite C in H. discriminate. }
  destruct (@ensemble_combine_result (item :: rest) cs0 ltac:(discriminate) C)
    as [w [v [neutral [W [G R]]]]].
  rewrite R in H.
  destruct (Py.lt v Config.CONFIDENCE_THRESHOLD) eqn:L; inversion H; subst;
    [congruence|].
  pose proof (@combine_scores_keys _ _ C) as K.
  destruct (@classes_shape cs K) as [p [n [u E]]]. subst cs.
  rewrite winner_three in W.
  assert (Cases : forall c x,
             dict_get c [("positive"%string, p); ("negative"%string, n); ("neutral"%string, u)]
             = Some x -> x = p \/ x = n \/ x = u).
  { intros c x. simpl.
    repeat match goal with
           | |- context [String.eqb c ?k] => destruct (String.eqb c k)
           end; intro X; inversion X; auto. }
  destruct (Py.lt p n) eqn:Lpn; [destruct (Py.lt n u) eqn:Lx | destruct (Py.lt p u) eqn:Lx];
    inversion W; subst s conf;
    repeat match goal with
           | X : Py.lt _ _ = true |- _ => apply lt_true_iff in X
           | X : Py.lt _ _ = false |- _ => apply lt_false_iff in X
           end;
    (split; [reflexivity|]);
    intros c x X; destruct (Cases c x X) as [?|[?|?]]; subst; lra.
Qed.

(** The theorem at the same answer: positive with confidence 0.8. *)
Lemma bullish_verdict_is_its_best_class :
  _ensemble_combine bullish_alone = Some bullish_verdict
  /\ fst (fst bullish_verdict) = "positive"%string
  /\ In (fst (fst bullish_verdict)) classes
  /\ 0.5 <= snd (fst bullish_verdict)
  /\ (fst (fst bullish_verdict) <> "neutral"%string ->
      0.6 <= snd (fst bullish_verdict)
      /\ dict_get (fst (fst bullish_verdict)) (snd bullish_verdict)
         = Some (snd (fst bullish_verdict))
      /\ forall c v, dict_get c (snd bullish_verdict) = Some v ->
                     v <= snd (fst bullish_verdict)).
Proof.
  assert (E : _ensemble_combine bullish_alone
              = Some (fst (fst bullish_verdict), snd (fst bullish_verdict),
                      snd bullish_verdict))
    by (vm_compute; reflexivity).
  split; [exact E|]. split; [reflexivity|].
  exact (@polar_verdict_is_confident_argmax
           bullish_alone (fst (fst bullish_verdict)) (snd (fst bullish_verdict))
           (snd bullish_verdict) E).
Defined.

End CombinerProperties.

(* ================================================================== *)
(** * The adapters *)
(* ================================================================== *)

Section AdapterLemmas.

Import SentimentAnalyzer Spec.
Local Open Scope Q_scope.

Lemma le_true_iff (x y : Q) : Py.le x y = true <-> x <= y.
Proof. unfold Py.le. apply Qle_bool_iff. Qed.

Lemma le_false_iff (x y : Q) : Py.le x y = false <-> y < x.
Proof.
  unfold Py.le. split; intro H.
  - apply Qnot_le_lt. intro L. apply Qle_bool_iff in L. congruence.
  - destruct (Qle_bool x y) eqn:E; [|reflexivity].
    apply Qle_bool_iff in E. exfalso. apply (Qlt_not_le _ _ H E).
Qed.

Lemma abs_cases (x : Q) : (x < 0 /\ Py.abs x = - x) \/ (0 <= x /\ Py.abs x = x).
Proof.
  unfold Py.abs. destruct (Py.lt x 0) eqn:E.
  - left. apply lt_true_iff in E. auto.
  - right. apply lt_false_iff in E. auto.
Qed.

Lemma max2_cases (a b : Q) : (a < b /\ max2 a b = b) \/ (b <= a /\ max2 a b = a).
Proof.
  unfold max2. destruct (Py.lt a b) eqn:E.
  - left. apply lt_true_iff in E. auto.
  - right. apply lt_false_iff in E. auto.
Qed.

Lemma min2_cases (a b : Q) : (b < a /\ min2 a b = b) \/ (a <= b /\ min2 a b = a).
Proof.
  unfold min2. destruct (Py.lt b a) eqn:E.
  - left. apply lt_true_iff in E. auto.
  - right. apply lt_false_iff in E. auto.
Qed.



Lemma textblob_three_class (polarity : Q) :
  three_class (scores (_normalize_textblob_output polarity)).
Proof.
  split.
  - unfold well_formed, keys. simpl.
    repeat (constructor; [simpl; intuition discriminate|]). constructor.
  - intros k Hk. simpl in Hk. unfold classes. simpl. intuition.
Qed.

Lemma vader_three_class (v : vader_scores) :
  three_class (scores (_normalize_vader_output v)).
Proof.
  split.
  - unfold well_formed, keys. simpl.
    repeat (constructor; [simpl; intuition discriminate|]). constructor.
  - intros k Hk. simpl in Hk. unfold classes. simpl. intuition.
Qed.

(** [max(d, key=d.get)] returns an item of the dictionary that no item
    exceeds. *)
Lemma fold_max_step (rest : dict Q) :
  forall first,
    In (fold_left max_step rest first) (first :: rest)
    /\ forall item, In item (first :: rest) ->
                    snd item <= snd (fold_left max_step rest first).
Proof.
  induction rest as [|x rest IH]; intro first.
  - simpl. split; [auto|]. intros item [E|[]]. subst. apply Qle_refl.
  - cbn [fold_left]. destruct (IH (max_step first x)) as [I M]. split.
    + destruct I as [I|I]; [|simpl; auto].
      rewrite <- I. unfold max_step. destruct (Py.lt (snd first) (snd x)); simpl; auto.
    + intros item H.
      assert (B : snd first <= snd (max_step first x) /\ snd x <= snd (max_step first x)).
      { unfold max_step. destruct (Py.lt (snd first) (snd x)) eqn:L.
        - apply lt_true_iff in L. split; [lra|apply Qle_refl].
        - apply lt_false_iff in L. split; [apply Qle_refl|exact L]. }
      pose proof (M (max_step first x) (or_introl eq_refl)) as M0.
      destruct H as [H|[H|H]].
      * subst. lra.
      * subst. lra.
      * apply M. simpl. auto.
Qed.

Lemma dict_get_well_formed (V : Type) (k : string) (v : V) (d : dict V) :
  well_formed d -> In (k, v) d -> dict_get k d = Some v.
Proof.
  unfold well_formed, keys.
  induction d as [|[k' v'] d IH]; simpl; intros WF H; [contradiction|].
  inversion WF as [|? ? NI WF']; subst.
  destruct H as [H|H].
  - inversion H; subst. now rewrite String.eqb_refl.
  - destruct (String.eqb k k') eqn:E.
    + apply String.eqb_eq in E. subst. exfalso. apply NI.
      change k' with (fst (k', v)). now apply in_map.
    + now apply IH.
Qed.

Lemma dict_get_in (V : Type) (k : string) (v : V) (d : dict V) :
  dict_get k d = Some v -> In (k, v) d.
Proof.
  induction d as [|[k' v'] d IH]; simpl; [discriminate|].
  destruct (String.eqb k k') eqn:E.
  - apply String.eqb_eq in E. intro H. inversion H; subst. auto.
  - auto.
Qed.

Lemma keys_dict_set_cases (V : Type) (k : string) (v : V) (d : dict V) :
  keys (dict_set k v d) = keys d \/ keys (dict_set k v d) = keys d ++ [k].
Proof.
  induction d as [|[k' v'] d IH]; simpl; [now right|].
  destruct (String.eqb k k'); simpl; [now left|].
  destruct IH as [IH|IH]; rewrite IH; auto.
Qed.

Lemma dict_set_well_formed (V : Type) (k : string) (v : V) (d : dict V) :
  well_formed d -> well_formed (dict_set k v d).
Proof.
  unfold well_formed.
  induction d as [|[k' v'] d IH]; simpl; intro WF.
  - constructor; [simpl; tauto|constructor].
  - inversion WF as [|? ? NI WF']; subst.
    destruct (String.eqb k k') eqn:E; simpl; [exact WF|].
    constructor; [|now apply IH].
    intro H. change (In k' (keys (dict_set k v d))) in H.
    destruct (keys_dict_set_cases k v d) as [K|K];
      rewrite K in H; [contradiction|].
    apply in_app_or in H. destruct H as [H|[H|[]]]; [contradiction|].
    subst. rewrite String.eqb_refl in E. discriminate.
Qed.

Lemma dict_set_nonempty (V : Type) (k : string) (v : V) (d : dict V) :
  dict_set k v d <> [].
Proof.
  destruct d as [|[k' v'] d]; simpl; [discriminate|].
  destruct (String.eqb k k'); discriminate.
Qed.

(** Dictionaries built by repeated assignment. *)
Lemma fold_dict_set (X : Type) (key : X -> string) (val : X -> Q) (items : list X) :
  forall d,
    well_formed d ->
    let r := fold_left (fun d item => dict_set (key item) (val item) d) items d in
    well_formed r
    /\ (forall k, In k (keys r) -> In k (keys d) \/ In k (map key items))
    /\ (r = [] -> items = [] /\ d = []).
Proof.
  induction items as [|x items IH]; intros d WF; cbn [fold_left].
  - split; [exact WF|]. split; [auto|]. auto.
  - destruct (IH (dict_set (key x) (val x) d) (dict_set_well_formed _ _ WF))
      as [W [K N]].
    split; [exact W|]. split.
    + intros k H. destruct (K k H) as [H'|H']; [|right; simpl; auto].
      destruct (keys_dict_set_cases (key x) (val x) d) as [E|E];
        rewrite E in H'; [auto|].
      apply in_app_or in H'. destruct H' as [H'|[H'|[]]]; [auto|].
      right. simpl. auto.
    + intro E. destruct (N E) as [_ N']. exfalso. exact (dict_set_nonempty _ _ _ N').
Qed.

Lemma from_scores_spec (d : dict Q) :
  well_formed d ->
  match from_scores d with
  | None => d = []
  | Some p =>
      scores p = d
      /\ dict_get (sentiment p) d = Some (confidence p)
      /\ forall k v, dict_get k d = Some v -> v <= confidence p
  end.
Proof.
  intro WF. unfold from_scores.
  destruct d as [|first rest]; [reflexivity|].
  cbn [max_by_value bind].
  destruct (fold_max_step rest first) as [I M].
  set (best := fold_left max_step rest first) in *.
  assert (G : dict_get (fst best) (first :: rest) = Some (snd best)).
  { apply dict_get_well_formed; [exact WF|]. now rewrite <- surjective_pairing. }
  rewrite G. cbn [bind sentiment confidence scores].
  split; [reflexivity|]. split; [exact G|].
  intros k v H. apply dict_get_in in H. exact (M (k, v) H).
Qed.

Lemma label_scores_spec (result : list (string * Q)) :
  well_formed (label_scores result)
  /\ (forall k, In k (keys (label_scores result)) ->
                In k (map (fun item => lower (fst item)) result))
  /\ (label_scores result = [] -> result = []).
Proof.
  unfold label_scores.
  destruct (@fold_dict_set (string * Q) (fun item => lower (fst item)) snd result []
                           (NoDup_nil _)) as [W [K N]].
  split; [exact W|]. split.
  - intros k H. destruct (K k H) as [[]|H']. exact H'.
  - intro E. exact (proj1 (N E)).
Qed.


Lemma roberta_scores_spec (result : list (string * Q)) :
  let normalized_scores :=
    fold_left (fun d item =>
                 dict_set (get_default (fst item) (fst item) label_mapping) (snd item) d)
              (label_scores result) [] in
  well_formed normalized_scores
  /\ (forall k, In k (keys normalized_scores) ->
                exists item, In item result
                             /\ k = get_default (lower (fst item)) (lower (fst item))
                                                label_mapping)
  /\ (normalized_scores = [] -> result = []).
Proof.
  destruct (label_scores_spec result) as [W [K N]].
  destruct (@fold_dict_set (string * Q)
              (fun item => get_default (fst item) (fst item) label_mapping) snd
              (label_scores result) [] (NoDup_nil _)) as [W' [K' N']].
  cbv zeta. split; [exact W'|]. split.
  - intros k H. destruct (K' k H) as [[]|H'].
    apply in_map_iff in H'. destruct H' as [[l q] [E I]]. simpl in E.
    assert (Il : In l (keys (label_scores result))).
    { unfold keys. change l with (fst (l, q)). now apply in_map. }
    apply K in Il. apply in_map_iff in Il. destruct Il as [item [E' I']].
    exists item. split; [exact I'|]. now rewrite E'.
  - intro E. apply N. exact (proj1 (N' E)).
Qed.

End AdapterLemmas.

Section AdapterProperties.

Import SentimentAnalyzer Spec Examples Cases.
Local Open Scope Q_scope.

(** X10.  VADER adapter: for a compound score in [-1, 1] the confidence lies in
    [0, 1]; a 'neutral' verdict has confidence above 0.95 and any other
    verdict at least 0.05; for non-negative proportions every score lies
    in [0, 1]. *)
Theorem vader_confidence_and_score_bounds :
  forall v : vader_scores,
    - (1) <= compound v <= 1 ->
    0 <= confidence (_normalize_vader_output v) <= 1
    /\ (sentiment (_normalize_vader_output v) = "neutral"%string ->
        0.95 < confidence (_normalize_vader_output v))
    /\ (sentiment (_normalize_vader_output v) <> "neutral"%string ->
        0.05 <= confidence (_normalize_vader_output v))
    /\ (0 <= pos v -> 0 <= neu v -> 0 <= neg v ->
        forall k x, dict_get k (scores (_normalize_vader_output v)) = Some x ->
                    0 <= x <= 1).
Proof.
  intros v [C1 C2]. unfold _normalize_vader_output. cbn [sentiment confidence scores].
  destruct (abs_cases (compound v)) as [[A1 A2]|[A1 A2]]; rewrite A2;
    destruct (Py.le 0.05 (compound v)) eqn:L1;
    try (destruct (Py.le (compound v) (- 0.05)) eqn:L2);
    cbn [fst snd];
    repeat match goal with
           | H : Py.le _ _ = true |- _ => apply le_true_iff in H
           | H : Py.le _ _ = false |- _ => apply le_false_iff in H
           end;
    (split; [lra|]); (split; [intro; try discriminate; lra|]);
    (split; [intro N; try (exfalso; apply N; reflexivity); lra|]);
    intros P0 U0 N0 k x; simpl;
    (destruct (Py.lt 0 (pos v + neu v + neg v)) eqn:TT;
     [apply lt_true_iff in TT|]);
    repeat match goal with
           | |- context [String.eqb k ?s] => destruct (String.eqb k s)
           end; intro X; inversion X; subst; clear X;
    try lra;
    (split; [apply Qle_shift_div_l; [exact TT|lra]
            |apply Qle_shift_div_r; [exact TT|lra]]).
Qed.


(** The theorem at a compound score of 0.7. *)
Lemma upbeat_vader_is_bounded :
  - (1) <= compound upbeat_vader <= 1
  /\ 0 <= confidence (_normalize_vader_output upbeat_vader) <= 1
  /\ (sentiment (_normalize_vader_output upbeat_vader) = "neutral"%string ->
      0.95 < confidence (_normalize_vader_output upbeat_vader))
  /\ (sentiment (_normalize_vader_output upbeat_vader) <> "neutral"%string ->
      0.05 <= confidence (_normalize_vader_output upbeat_vader))
  /\ (0 <= pos upbeat_vader -> 0 <= neu upbeat_vader -> 0 <= neg upbeat_vader ->
      forall k x, dict_get k (scores (_normalize_vader_output upbeat_vader)) = Some x ->
                  0 <= x <= 1).
Proof.
  assert (C : - (1) <= compound upbeat_vader <= 1)
    by (split; unfold Qle; simpl; lia).
  split; [exact C|].
  exact (@vader_confidence_and_score_bounds upbeat_vader C).
Defined.

(** X11.  TextBlob adapter: for a polarity in [-1, 1] the confidence and the
    three scores lie in [0, 1]; a 'neutral' verdict has confidence at
    least 0.9 and any other verdict more than 0.1. *)
Theorem textblob_confidence_and_score_bounds :
  forall polarity : Q,
    - (1) <= polarity <= 1 ->
    0 <= confidence (_normalize_textblob_output polarity) <= 1
    /\ (sentiment (_normalize_textblob_output polarity) = "neutral"%string ->
        0.9 <= confidence (_normalize_textblob_output polarity))
    /\ (sentiment (_normalize_textblob_output polarity) <> "neutral"%string ->
        0.1 < confidence (_normalize_textblob_output polarity))
    /\ forall k x, dict_get k (scores (_normalize_textblob_output polarity)) = Some x ->
                   0 <= x <= 1.
Proof.
  intros p [P1 P2]. unfold _normalize_textblob_output. cbn [sentiment confidence scores].
  destruct (abs_cases p) as [[A1 A2]|[A1 A2]]; rewrite A2;
    destruct (min2_cases (- p) 1.0) as [[M1 M2]|[M1 M2]];
    destruct (min2_cases p 1.0) as [[M3 M4]|[M3 M4]];
    try rewrite M2; try rewrite M4;
    destruct (max2_cases 0 p) as [[X1 X2]|[X1 X2]]; rewrite X2;
    destruct (max2_cases 0 (- p)) as [[Y1 Y2]|[Y1 Y2]]; rewrite Y2;
    destruct (Py.lt 0.1 p) eqn:L1;
    try (destruct (Py.lt p (- 0.1)) eqn:L2);
    cbn [fst snd];
    repeat match goal with
           | H : Py.lt _ _ = true |- _ => apply lt_true_iff in H
           | H : Py.lt _ _ = false |- _ => apply lt_false_iff in H
           end;
    try lra;
    (split; [lra|]); (split; [intro; try discriminate; lra|]);
    (split; [intro N; try (exfalso; apply N; reflexivity); lra|]);
    intros k x; simpl;
    repeat match goal with
           | |- context [String.eqb k ?s] => destruct (String.eqb k s)
           end; intro X; inversion X; subst; clear X; lra.
Qed.

(** The theorem at a polarity of 0.5. *)
Lemma half_polarity_is_bounded :
  - (1) <= 0.5 <= 1
  /\ 0 <= confidence (_normalize_textblob_output 0.5) <= 1
  /\ (sentiment (_normalize_textblob_output 0.5) = "neutral"%string ->
      0.9 <= confidence (_normalize_textblob_output 0.5))
  /\ (sentiment (_normalize_textblob_output 0.5) <> "neutral"%string ->
      0.1 < confidence (_normalize_textblob_output 0.5))
  /\ forall k x, dict_get k (scores (_normalize_textblob_output 0.5)) = Some x ->
                 0 <= x <= 1.
Proof.
  assert (C : - (1) <= 0.5 <= 1) by (split; unfold Qle; simpl; lia).
  split; [exact C|].
  exact (@textblob_confidence_and_score_bounds 0.5 C).
Defined.


(** X13.  FinBERT adapter: it raises (ValueError) exactly on an empty result;
    otherwise the scores have one entry per lower-cased label, the
    verdict is one of them, its confidence is its score, and no score
    exceeds it. *)
Theorem finbert_adapter_picks_top_label :
  forall result : list (string * Q),
    (_normalize_finbert_output result = None <-> result = [])
    /\ forall p, _normalize_finbert_output result = Some p ->
         well_formed (scores p)
         /\ (forall k, In k (keys (scores p)) ->
                       exists item, In item result /\ k = lower (fst item))
         /\ dict_get (sentiment p) (scores p) = Some (confidence p)
         /\ forall k v, dict_get k (scores p) = Some v -> v <= confidence p.
Proof.
  intro result. unfold _normalize_finbert_output.
  destruct (label_scores_spec result) as [W [K N]].
  pose proof (from_scores_spec W) as F.
  destruct (from_scores (label_scores result)) as [p|] eqn:E.
  - destruct F as [S [G M]]. split.
    + split; [discriminate|]. intro R. subst result. discriminate.
    + intros p' H. inversion H; subst p'. rewrite S.
      split; [exact W|]. split; [|split; [exact G|exact M]].
      intros k I. apply K in I. apply in_map_iff in I.
      destruct I as [item [I1 I2]]. exists item. auto.
  - split; [|discriminate]. split; [intros _; now apply N|reflexivity].
Qed.

(** X14.  RoBERTa adapter: it raises exactly on an empty result; otherwise
    every key of the scores is a lower-cased label after the mapping
    label_0/1/2 -> negative/neutral/positive, the verdict's confidence is
    its score and no score exceeds it; when every label is one of the six
    known names (in any case), the scores are over the three classes. *)
Theorem roberta_adapter_maps_labels :
  forall result : list (string * Q),
    (_normalize_roberta_output result = None <-> result = [])
    /\ forall p, _normalize_roberta_output result = Some p ->
         well_formed (scores p)
         /\ dict_get (sentiment p) (scores p) = Some (confidence p)
         /\ (forall k v, dict_get k (scores p) = Some v -> v <= confidence p)
         /\ ((forall item, In item result ->
                In (lower (fst item))
                   ["label_0"; "label_1"; "label_2";
                    "positive"; "negative"; "neutral"]%string) ->
             three_class (scores p)).
Proof.
  intro result. unfold _normalize_roberta_output.
  destruct (roberta_scores_spec result) as [W [K N]]. cbv zeta in W, K, N.
  pose proof (from_scores_spec W) as F.
  destruct (from_scores _) as [p|] eqn:E.
  - destruct F as [S [G M]]. split.
    + split; [discriminate|]. intro R. subst result. discriminate.
    + intros p' H. inversion H; subst p'. rewrite S.
      split; [exact W|]. split; [exact G|]. split; [exact M|].
      intro L. split; [exact W|]. intros k I.
      destruct (K k I) as [item [I1 I2]]. specialize (L item I1).
      subst k. unfold classes. simpl in L.
      destruct L as [L|[L|[L|[L|[L|[L|[]]]]]]]; rewrite <- L; simpl; auto.
  - split; [|discriminate]. split; [intros _; now apply N|reflexivity].
Qed.

(** X15.  [_get_ensemble_predictions]: each model's entry is its adapter's
    answer, or absent when the model is not loaded, its call raises or its
    adapter raises; the entries come in the order roberta, finbert, vader,
    textblob and there are no others. *)
Theorem predictions_are_the_models_that_answered :
  forall (A : analyzer) (t : text),
    let predictions := _get_ensemble_predictions A t in
    dict_get "roberta" predictions
    = match roberta A with
      | Some model => r <- model t ;; _normalize_roberta_output r
      | None => None
      end
    /\ dict_get "finbert" predictions
       = match finbert A with
         | Some model => r <- model t ;; _normalize_finbert_output r
         | None => None
         end
    /\ dict_get "vader" predictions
       = (v <- polarity_scores A t ;; Some (_normalize_vader_output v))
    /\ dict_get "textblob" predictions
       = (p <- textblob_polarity A t ;; Some (_normalize_textblob_output p))
    /\ keys predictions
       = filter (fun name => match dict_get name predictions with
                             | Some _ => true
                             | None => false
                             end)
                ["roberta"; "finbert"; "vader"; "textblob"]%string.
Proof.
  intros A t. cbv zeta. unfold _get_ensemble_predictions.
  destruct (roberta A) as [m1|];
    [destruct (m1 t) as [r1|]; cbn [bind];
     [destruct (_normalize_roberta_output r1) as [p1|]|]|];
    (destruct (finbert A) as [m2|];
     [destruct (m2 t) as [r2|]; cbn [bind];
      [destruct (_normalize_finbert_output r2) as [p2|]|]|]);
    destruct (polarity_scores A t) as [v|];
    destruct (textblob_polarity A t) as [q|];
    cbn; repeat split; reflexivity.
Qed.

End AdapterProperties.

(* ================================================================== *)
(** * The analyzer as a whole *)
(* ================================================================== *)

Section AnalyzeLemmas.

Import SentimentAnalyzer Spec.
Local Open Scope Q_scope.

(** [round(x, 3)] does not cross a multiple of 1/1000. *)
Lemma round3_lower (k : Z) (q x : Q) :
  q * 1000 == inject_Z k -> q <= x -> q <= round3 x.
Proof.
  intros E L. unfold round3. rewrite Qred_correct.
  set (scaled := x * 1000).
  assert (K : (k <= Qfloor scaled)%Z).
  { rewrite <- (Qfloor_Z k). apply Qfloor_resp_le. unfold scaled. lra. }
  set (n := if Py.lt _ _ then _ else _).
  assert (N : (k <= n)%Z).
  { unfold n. destruct (Py.lt _ (1 # 2)); [exact K|].
    destruct (Py.lt (1 # 2) _); [lia|]. destruct (Z.even _); lia. }
  apply Qle_shift_div_l; [reflexivity|].
  rewrite Zle_Qle in N. lra.
Qed.

Lemma round3_upper (k : Z) (q x : Q) :
  q * 1000 == inject_Z k -> x <= q -> round3 x <= q.
Proof.
  intros E L. unfold round3. rewrite Qred_correct.
  set (scaled := x * 1000).
  assert (S : scaled <= inject_Z k) by (unfold scaled; lra).
  pose proof (Qfloor_le scaled) as F1.
  assert (K : (Qfloor scaled <= k)%Z).
  { rewrite <- (Qfloor_Z k). now apply Qfloor_resp_le. }
  set (n := if Py.lt _ _ then _ else _).
  assert (N : (n <= k)%Z).
  { unfold n. destruct (Py.lt _ (1 # 2)) eqn:L1; [exact K|].
    apply lt_false_iff in L1.
    assert (Qfloor scaled <> k).
    { intro Q. rewrite Q in L1. lra. }
    destruct (Py.lt (1 # 2) _); [lia|]. destruct (Z.even _); lia. }
  apply Qle_shift_div_r; [reflexivity|].
  rewrite Zle_Qle in N. lra.
Qed.

(** Where an entry of the predictions comes from. *)
Lemma ensemble_predictions_members (A : analyzer) (t : text) (m : string) (p : prediction) :
  In (m, p) (_get_ensemble_predictions A t) ->
  (exists model r, roberta A = Some model /\ model t = Some r
                   /\ _normalize_roberta_output r = Some p)
  \/ (exists model r, finbert A = Some model /\ model t = Some r
                      /\ _normalize_finbert_output r = Some p)
  \/ (exists v, polarity_scores A t = Some v /\ p = _normalize_vader_output v)
  \/ (exists q, textblob_polarity A t = Some q /\ p = _normalize_textblob_output q).
Proof.
  unfold _get_ensemble_predictions.
  destruct (roberta A) as [m1|] eqn:A1;
    [destruct (m1 t) as [r1|] eqn:R1; cbn [bind];
     [destruct (_normalize_roberta_output r1) as [p1|] eqn:N1|]|];
    (destruct (finbert A) as [m2|] eqn:A2;
     [destruct (m2 t) as [r2|] eqn:R2; cbn [bind];
      [destruct (_normalize_finbert_output r2) as [p2|] eqn:N2|]|]);
    destruct (polarity_scores A t) as [v|] eqn:PV;
    destruct (textblob_polarity A t) as [q|] eqn:PT;
    cbn; intro H;
    repeat match goal with
           | H : _ \/ _ |- _ => destruct H as [H|H]
           | H : False |- _ => contradiction
           | H : (_, _) = (_, _) |- _ => inversion H; subst; clear H
           end;
    first [ left; do 2 eexists; repeat split; eassumption
          | right; left; do 2 eexists; repeat split; eassumption
          | right; right; left; eexists; split; reflexivity
          | right; right; right; eexists; split; reflexivity ].
Qed.

Lemma roberta_three_class (result : list (string * Q)) (p : prediction) :
  _normalize_roberta_output result = Some p ->
  (forall item, In item result ->
     In (lower (fst item))
        ["label_0"; "label_1"; "label_2"; "positive"; "negative"; "neutral"]%string) ->
  three_class (scores p).
Proof.
  unfold _normalize_roberta_output. intros H L.
  destruct (roberta_scores_spec result) as [W [K N]]. cbv zeta in W, K, N.
  pose proof (from_scores_spec W) as F. rewrite H in F. destruct F as [S _].
  rewrite S. split; [exact W|]. intros k I.
  destruct (K k I) as [item [I1 I2]]. specialize (L item I1).
  subst k. unfold classes. simpl in L.
  destruct L as [L|[L|[L|[L|[L|[L|[]]]]]]]; rewrite <- L; simpl; auto.
Qed.

Lemma finbert_three_class (result : list (string * Q)) (p : prediction) :
  _normalize_finbert_output result = Some p ->
  (forall item, In item result -> In (lower (fst item)) classes) ->
  three_class (scores p).
Proof.
  unfold _normalize_finbert_output. intros H L.
  destruct (label_scores_spec result) as [W [K N]].
  pose proof (from_scores_spec W) as F. rewrite H in F. destruct F as [S _].
  rewrite S. split; [exact W|]. intros k I.
  apply K in I. apply in_map_iff in I. destruct I as [item [E I]].
  subst k. now apply L.
Qed.

End AnalyzeLemmas.

Section AnalyzeProperties.

Import SentimentAnalyzer Spec Examples Cases.
Local Open Scope Q_scope.

(** X16.  Whatever [analyze] returns: the label is one of the three classes,
    the confidence is at least 0.5, and at least 0.6 for a positive or
    negative label; the scores are listed for exactly the three classes;
    the 'too short' tag appears exactly for raw texts under 10 stripped
    characters, and otherwise the details give the raw length, a processed
    length that exceeds neither 512 nor the raw length, and the names of
    the models that answered. *)
Theorem analyze_verdict_invariants :
  forall (A : analyzer) (t : text) (v : verdict),
    analyze A t = Some v ->
    In (v_sentiment v) classes
    /\ 0.5 <= v_confidence v
    /\ (v_sentiment v <> "neutral"%string -> 0.6 <= v_confidence v)
    /\ keys (v_scores v) = classes
    /\ match v_details v with
       | TooShort => (List.length (strip (unicode A) t) < 10)%nat
       | ModelDetails predictions text_length processed_length models_used =>
           (10 <= List.length (strip (unicode A) t))%nat
           /\ predictions = _get_ensemble_predictions A (_preprocess_text (unicode A) t)
           /\ text_length = List.length t
           /\ processed_length = List.length (_preprocess_text (unicode A) t)
           /\ (processed_length <= text_length)%nat
           /\ (processed_length <= 512)%nat
           /\ models_used = keys predictions
       end.
Proof.
  intros A t v. unfold analyze.
  destruct (is_empty t || (List.length (strip (unicode A) t) <? 10)%nat) eqn:G.
  - intro H. inversion H; subst v. cbn.
    split; [unfold classes; simpl; auto|]. split; [lra|]. split; [congruence|].
    split; [reflexivity|].
    apply orb_true_iff in G. destruct G as [G|G].
    + destruct t; [simpl; lia|discriminate].
    + now apply Nat.ltb_lt.
  - apply orb_false_iff in G. destruct G as [_ G]. apply Nat.ltb_ge in G.
    destruct (_ensemble_combine _) as [[[s conf] cs]|] eqn:E; [|discriminate].
    cbn [bind fst snd]. intro H. inversion H; subst v. clear H. cbn.
    destruct (ensemble_verdict_bounds _ E) as [I [B1 B2]].
    split; [exact I|].
    split; [apply (@round3_lower 500); [reflexivity|exact B1]|].
    split; [intro N; apply (@round3_lower 600); [reflexivity|exact (B2 N)]|].
    split; [reflexivity|].
    split; [exact G|]. split; [reflexivity|]. split; [reflexivity|].
    split; [reflexivity|]. split; [|split; [apply preprocess_length|reflexivity]].
    unfold _preprocess_text.
    pose proof (strip_length (unicode A) (truncate (clean (unicode A) t))).
    pose proof (truncate_never_longer (clean (unicode A) t)).
    pose proof (clean_length (unicode A) t). lia.
Qed.

(** The theorem at a headline analyzed by all four models. *)
Lemma headline_verdict_is_well_formed :
  analyze full headline = Some full_verdict
  /\ v_sentiment full_verdict = "positive"%string
  /\ In (v_sentiment full_verdict) classes
  /\ 0.5 <= v_confidence full_verdict
  /\ (v_sentiment full_verdict <> "neutral"%string -> 0.6 <= v_confidence full_verdict)
  /\ keys (v_scores full_verdict) = classes
  /\ match v_details full_verdict with
     | TooShort => (List.length (strip (unicode full) headline) < 10)%nat
     | ModelDetails predictions text_length processed_length models_used =>
         (10 <= List.length (strip (unicode full) headline))%nat
         /\ predictions
            = _get_ensemble_predictions full (_preprocess_text (unicode full) headline)
         /\ text_length = List.length headline
         /\ processed_length = List.length (_preprocess_text (unicode full) headline)
         /\ (processed_length <= text_length)%nat
         /\ (processed_length <= 512)%nat
         /\ models_used = keys predictions
     end.
Proof.
  assert (E : analyze full headline = Some full_verdict) by (vm_compute; reflexivity).
  split; [exact E|]. split; [reflexivity|].
  exact (@analyze_verdict_invariants full headline full_verdict E).
Defined.

(** X17.  [analyze] raises (the combiner's KeyError) exactly when the raw text
    has at least 10 stripped characters and a model that answered scores
    a label outside the three classes. *)
Theorem analyze_raises_only_on_foreign_label :
  forall (A : analyzer) (t : text),
    analyze A t = None
    <-> (10 <= List.length (strip (unicode A) t))%nat
        /\ exists m p k,
             In (m, p) (_get_ensemble_predictions A (_preprocess_text (unicode A) t))
             /\ In k (keys (scores p)) /\ ~ In k classes.
Proof.
  intros A t. unfold analyze.
  set (predictions := _get_ensemble_predictions A (_preprocess_text (unicode A) t)).
  assert (R : _ensemble_combine predictions = None
              <-> exists m p k, In (m, p) predictions /\ In k (keys (scores p))
                                /\ ~ In k classes).
  { destruct predictions as [|item rest] eqn:P.
    - split; [discriminate|]. intros [m [p [k [[] _]]]].
    - destruct (combine_scores_outcome (item :: rest)) as [[cs [C V]]|[C B]].
      + assert (NE : item :: rest <> []) by discriminate.
        destruct (@ensemble_combine_result (item :: rest) cs NE C)
          as [w [v [neutral [_ [_ R]]]]].
        split.
        * rewrite R. destruct (Py.lt v Config.CONFIDENCE_THRESHOLD); discriminate.
        * intros [m [p [k [I [I1 I2]]]]]. exfalso. apply I2. now apply (V m p).
      + split; [intros _; exact B|]. intros _.
        unfold _ensemble_combine. now rewrite C. }
  destruct (is_empty t || (List.length (strip (unicode A) t) <? 10)%nat) eqn:G.
  - split; [discriminate|]. intros [L _]. exfalso.
    apply orb_true_iff in G. destruct G as [G|G].
    + destruct t; [simpl in L; lia|discriminate].
    + apply Nat.ltb_lt in G. lia.
  - apply orb_false_iff in G. destruct G as [_ G]. apply Nat.ltb_ge in G.
    destruct (_ensemble_combine predictions) as [r|] eqn:E; cbn [bind].
    + split; [discriminate|]. intros [_ B]. apply R in B. discriminate.
    + split; [|reflexivity]. intros _. split; [exact G|]. now apply R.
Qed.

(** X18.  [analyze] returns a verdict whenever the transformer models, where
    loaded, label their outputs with the known names: RoBERTa with
    label_0/1/2 or the class names, FinBERT with the class names, in any
    case.  In particular it always does with VADER and TextBlob alone. *)
Theorem analyze_total_on_known_labels :
  forall (A : analyzer) (t : text),
    (forall model r item,
        roberta A = Some model ->
        model (_preprocess_text (unicode A) t) = Some r -> In item r ->
        In (lower (fst item))
           ["label_0"; "label_1"; "label_2"; "positive"; "negative"; "neutral"]%string) ->
    (forall model r item,
        finbert A = Some model ->
        model (_preprocess_text (unicode A) t) = Some r -> In item r ->
        In (lower (fst item)) classes) ->
    exists v, analyze A t = Some v.
Proof.
  intros A t HR HF. unfold analyze.
  destruct (is_empty t || _); [eauto|].
  set (predictions := _get_ensemble_predictions A (_preprocess_text (unicode A) t)).
  assert (V : forall m p, In (m, p) predictions -> three_class (scores p)).
  { intros m p I. apply ensemble_predictions_members in I.
    destruct I as [[model [r [E1 [E2 E3]]]]|[[model [r [E1 [E2 E3]]]]
                  |[[v [_ E]]|[q [_ E]]]]].
    - apply (roberta_three_class _ E3). intros item I. exact (HR model r item E1 E2 I).
    - apply (finbert_three_class _ E3). intros item I. exact (HF model r item E1 E2 I).
    - subst p. apply vader_three_class.
    - subst p. apply textblob_three_class. }
  destruct predictions as [|item rest] eqn:P; [simpl; eauto|].
  assert (NE : item :: rest <> []) by discriminate.
  destruct (@combine_scores_spec (item :: rest) NE V) as [cs [C _]].
  destruct (@ensemble_combine_result (item :: rest) cs NE C)
    as [w [v [neutral [_ [_ R]]]]].
  rewrite R. destruct (Py.lt v Config.CONFIDENCE_THRESHOLD); cbn [bind]; eauto.
Qed.

(** The theorem at the same analyzer: RoBERTa answers LABEL_0/1/2 and
    FinBERT the class names. *)
Lemma full_analyzer_answers_the_headline :
  (forall model r item,
      roberta full = Some model ->
      model (_preprocess_text (unicode full) headline) = Some r -> In item r ->
      In (lower (fst item))
         ["label_0"; "label_1"; "label_2"; "positive"; "negative"; "neutral"]%string)
  /\ (forall model r item,
        finbert full = Some model ->
        model (_preprocess_text (unicode full) headline) = Some r -> In item r ->
        In (lower (fst item)) classes)
  /\ exists v, analyze full headline = Some v.
Proof.
  assert (HR : forall model r item,
             roberta full = Some model ->
             model (_preprocess_text (unicode full) headline) = Some r -> In item r ->
             In (lower (fst item))
                ["label_0"; "label_1"; "label_2";
                 "positive"; "negative"; "neutral"]%string).
  { intros model r item E1 E2 I. inversion E1; subst model.
    inversion E2; subst r. simpl in I.
    destruct I as [<-|[<-|[<-|[]]]]; simpl; auto 10. }
  assert (HF : forall model r item,
             finbert full = Some model ->
             model (_preprocess_text (unicode full) headline) = Some r -> In item r ->
             In (lower (fst item)) classes).
  { intros model r item E1 E2 I. inversion E1; subst model.
    inversion E2; subst r. simpl in I.
    destruct I as [<-|[<-|[<-|[]]]]; unfold classes; simpl; auto 10. }
  split; [exact HR|]. split; [exact HF|].
  exact (@analyze_total_on_known_labels full headline HR HF).
Defined.

(** X19.  When no model answers (none loaded, or each call or adapter raises),
    a long enough text still gets a verdict: neutral, 0.5, the scores
    0.33 / 0.33 / 0.34, an empty list of models. *)
Theorem silent_models_give_fallback :
  forall (A : analyzer) (t : text),
    (10 <= List.length (strip (unicode A) t))%nat ->
    _get_ensemble_predictions A (_preprocess_text (unicode A) t) = [] ->
    exists v,
      analyze A t = Some v
      /\ v_sentiment v = "neutral"%string
      /\ v_confidence v == 0.5
      /\ (exists p n u,
             v_scores v = [("positive"%string, p); ("negative"%string, n);
                           ("neutral"%string, u)]
             /\ p == 0.33 /\ n == 0.33 /\ u == 0.34)
      /\ v_details v
         = ModelDetails [] (List.length t)
                        (List.length (_preprocess_text (unicode A) t)) [].
Proof.
  intros A t L E. unfold analyze.
  assert (G : is_empty t || (List.length (strip (unicode A) t) <? 10)%nat = false).
  { apply orb_false_iff. split.
    - destruct t; [simpl in L; lia|reflexivity].
    - now apply Nat.ltb_ge. }
  rewrite G, E. cbn [_ensemble_combine bind fst snd].
  eexists. split; [reflexivity|]. cbn [v_sentiment v_confidence v_scores v_details].
  split; [reflexivity|]. split; [vm_compute; reflexivity|].
  split; [|reflexivity].
  do 3 eexists. split; [reflexivity|].
  repeat split; vm_compute; reflexivity.
Qed.

(** The theorem at four models that all fail on the headline. *)
Lemma mute_analyzer_falls_back :
  (10 <= List.length (strip (unicode mute) headline))%nat
  /\ _get_ensemble_predictions mute (_preprocess_text (unicode mute) headline) = []
  /\ exists v,
       analyze mute headline = Some v
       /\ v_sentiment v = "neutral"%string
       /\ v_confidence v == 0.5
       /\ (exists p n u,
              v_scores v = [("positive"%string, p); ("negative"%string, n);
                            ("neutral"%string, u)]
              /\ p == 0.33 /\ n == 0.33 /\ u == 0.34)
       /\ v_details v
          = ModelDetails [] (List.length headline)
                         (List.length (_preprocess_text (unicode mute) headline)) [].
Proof.
  assert (L : (10 <= List.length (strip (unicode mute) headline))%nat)
    by (apply Nat.leb_le; vm_compute; reflexivity).
  assert (E : _get_ensemble_predictions mute (_preprocess_text (unicode mute) headline)
              = []) by reflexivity.
  split; [exact L|]. split; [exact E|].
  exact (@silent_models_give_fallback mute headline L E).
Defined.

End AnalyzeProperties.

(* ================================================================== *)
(** * More about the store *)
(* ================================================================== *)

Section StoreLemmas.

Import DataManager Schema.
Local Open Scope Q_scope.

Variable e : environment.

(** The tuple that is bound: one adapted value per looked-up field. *)
Lemma adapt_all (vs : list value) :
  forall acc p,
    for_each (fun acc v => x <- adapt v ;; Some (acc ++ [x])%list) vs acc = Some p ->
    exists xs, p = (acc ++ xs)%list /\ Forall2 (fun v x => adapt v = Some x) vs xs.
Proof.
  induction vs as [|v vs IH]; intros acc p; cbn [for_each].
  - intro H. inversion H; subst. exists []. split; [now rewrite app_nil_r|constructor].
  - destruct (adapt v) as [x|] eqn:E; cbn [bind]; [|discriminate].
    intro H. destruct (IH _ _ H) as [xs [P F]].
    exists (x :: xs). split; [now rewrite P, <- app_assoc|]. now constructor.
Qed.

(** One INSERT: the row it appends. *)
Lemma store_article_row (kw : string) (a : article) (c c' : connection) :
  store_article e kw a c = Done c' ->
  exists r,
    analysis_results (working c') = (analysis_results (working c) ++ [r])%list
    /\ results_sequence (working c') = (results_sequence (working c) + 1)%Z
    /\ id r = (results_sequence (working c) + 1)%Z
    /\ keywords r = kw
    /\ created_at r = current_timestamp e
    /\ required r = true
    /\ adapt (get_default "title" (VStr "") a) = Some (title r)
    /\ adapt (get_default "content" (VStr "") a) = Some (content r)
    /\ adapt (get_default "sentiment" (VStr "") a) = Some (DataManager.sentiment r)
    /\ adapt (get_default "confidence" (VNum 0) a) = Some (DataManager.confidence r)
    /\ json_dumps e (get_default "details" (VDict []) a) = Some (model_details r).
Proof.
  unfold store_article, execute.
  destruct (parameters a) as [p|] eqn:P; [|discriminate].
  destruct (json_dumps e _) as [details|]; [|discriminate].
  unfold parameters in P.
  destruct (score_of a "positive") as [ps|]; cbn [bind] in P; [|discriminate].
  destruct (score_of a "negative") as [ns|]; cbn [bind] in P; [|discriminate].
  destruct (score_of a "neutral") as [us|]; cbn [bind] in P; [|discriminate].
  apply adapt_all in P. destruct P as [xs [P F]]. cbn [app] in P. subst p.
  repeat match goal with
         | H : Forall2 _ (_ :: _) _ |- _ => inversion H; subst; clear H
         | H : Forall2 _ [] _ |- _ => inversion H; subst; clear H
         end.
  cbn [working committed in_transaction]. unfold insert_result.
  match goal with
  | |- context [if ?b then _ else _] => destruct b eqn:B; [|discriminate]
  end.
  intro H. inversion H; subst c'. clear H. cbn [working].
  eexists. split; [reflexivity|]. cbn.
  repeat split; try reflexivity; try assumption.
Qed.

Lemma store_articles_rows (kw : string) (articles : list article) :
  forall c c',
    store_articles e kw articles c = Done c' ->
    exists rows,
      analysis_results (working c') = (analysis_results (working c) ++ rows)%list
      /\ results_sequence (working c')
         = (results_sequence (working c) + Z.of_nat (List.length articles))%Z
      /\ Forall2 (fun a r =>
                    keywords r = kw
                    /\ created_at r = current_timestamp e
                    /\ required r = true
                    /\ adapt (get_default "title" (VStr "") a) = Some (title r)
                    /\ adapt (get_default "content" (VStr "") a) = Some (content r)
                    /\ adapt (get_default "sentiment" (VStr "") a)
                       = Some (DataManager.sentiment r)
                    /\ adapt (get_default "confidence" (VNum 0) a)
                       = Some (DataManager.confidence r)
                    /\ json_dumps e (get_default "details" (VDict []) a)
                       = Some (model_details r))
                 articles rows
      /\ map id rows
         = map (fun i => (results_sequence (working c) + 1 + Z.of_nat i)%Z)
               (seq 0 (List.length articles)).
Proof.
  induction articles as [|a rest IH]; intros c c'; cbn [store_articles].
  - intro H. inversion H; subst. exists []. cbn.
    split; [now rewrite app_nil_r|]. split; [lia|]. split; [constructor|reflexivity].
  - destruct (store_article e kw a c) as [c1|c1] eqn:E; cbn [and_then]; [|discriminate].
    intro H. apply store_article_row in E.
    destruct E as [r [R1 [R2 [R3 [R4 [R5 [R6 [R7 [R8 [R9 [R10 R11]]]]]]]]]]].
    destruct (IH _ _ H) as [rows [S1 [S2 [S3 S4]]]].
    exists (r :: rows). split; [rewrite S1, R1, <- app_assoc; reflexivity|].
    split; [rewrite S2, R2; cbn [List.length]; lia|].
    split; [constructor; [|exact S3]; repeat split; assumption|].
    cbn [map List.length seq]. rewrite S4, R3, R2. f_equal; [lia|].
    rewrite <- seq_shift, map_map. apply map_ext. intro i. lia.
Qed.

(** Nothing is committed while the articles are inserted. *)
Lemma store_articles_committed (kw : string) (articles : list article) :
  forall c c',
    store_articles e kw articles c = Raised c' -> committed c' = committed c.
Proof.
  induction articles as [|a rest IH]; intros c c'; cbn [store_articles]; [discriminate|].
  destruct (store_article e kw a c) as [c1|c1] eqn:E; cbn [and_then].
  - intro H. apply IH in H. apply store_article_summary in E.
    destruct E as [_ [_ E]]. congruence.
  - intro H. inversion H; subst c1. clear H.
    unfold store_article in E.
    destruct (parameters a); [|inversion E; reflexivity].
    destruct (json_dumps e _); [|inversion E; reflexivity].
    unfold execute in E. destruct (insert_result _ _ _ _ _); inversion E. reflexivity.
Qed.

(** The three counts never exceed the number of articles together. *)
Lemma counts_partition (articles : list article) :
  (count_sentiment "positive" articles + count_sentiment "negative" articles
   + count_sentiment "neutral" articles <= List.length articles)%nat
  /\ ((count_sentiment "positive" articles + count_sentiment "negative" articles
       + count_sentiment "neutral" articles = List.length articles)%nat
      <-> forall a, In a articles ->
            exists s, get_default "sentiment" VNone a = VStr s /\ In s Spec.classes).
Proof.
  unfold count_sentiment.
  induction articles as [|a rest [IH1 IH2]]; cbn [filter List.length].
  - split; [lia|]. split; [intros _ a []|reflexivity].
  - assert (C : (exists s, get_default "sentiment" VNone a = VStr s /\ In s Spec.classes
                 /\ ((if is_sentiment "positive" a then 1 else 0)
                     + (if is_sentiment "negative" a then 1 else 0)
                     + (if is_sentiment "neutral" a then 1 else 0) = 1)%nat)
                \/ ((forall s, get_default "sentiment" VNone a = VStr s -> ~ In s Spec.classes)
                    /\ is_sentiment "positive" a = false
                    /\ is_sentiment "negative" a = false
                    /\ is_sentiment "neutral" a = false)).
    { unfold is_sentiment. destruct (get_default "sentiment" VNone a) as [|s|q|d];
        try (right; split; [intros s0 H; discriminate|auto]).
      destruct (String.eqb s "positive") eqn:E1;
        [apply String.eqb_eq in E1; subst; left; eexists; split; [reflexivity|];
         split; [unfold Spec.classes; simpl; auto|reflexivity]|].
      destruct (String.eqb s "negative") eqn:E2;
        [apply String.eqb_eq in E2; subst; left; eexists; split; [reflexivity|];
         split; [unfold Spec.classes; simpl; auto|reflexivity]|].
      destruct (String.eqb s "neutral") eqn:E3;
        [apply String.eqb_eq in E3; subst; left; eexists; split; [reflexivity|];
         split; [unfold Spec.classes; simpl; auto|reflexivity]|].
      right. split; [|auto]. intros s0 H. inversion H; subst s0.
      apply String.eqb_neq in E1, E2, E3. unfold Spec.classes. simpl. intuition. }
    destruct C as [[s [G [I N]]]|[B [N1 [N2 N3]]]].
    + destruct (is_sentiment "positive" a), (is_sentiment "negative" a),
        (is_sentiment "neutral" a); cbn [List.length] in *; try discriminate;
        (split; [lia|]);
        (split; [intros H a' [Ea|Ia];
                 [subst a'; eauto|apply IH2; [lia|exact Ia]]
                |intro H; assert (X : forall a', In a' rest -> _) by
                   (intros a' Ia; exact (H a' (or_intror Ia)));
                 apply IH2 in X; lia]).
    + rewrite N1, N2, N3. split; [lia|]. split; [lia|].
      intro H. destruct (H a (or_introl eq_refl)) as [s [G I]].
      exfalso. exact (B s G I).
Qed.

Lemma in_filter_keys (f : summary_row -> bool) (rows : list summary_row) :
  NoDup (map (fun r => (summary_keywords r, date r)) rows) ->
  NoDup (map (fun r => (summary_keywords r, date r)) (filter f rows)).
Proof.
  induction rows as [|r rows IH]; cbn [filter map]; [auto|].
  intro N. inversion N as [|? ? NI N']; subst.
  destruct (f r); cbn [map]; [|now apply IH].
  constructor; [|now apply IH].
  intro I. apply NI. apply in_map_iff in I. destruct I as [x [E I]].
  apply filter_In in I. apply in_map_iff. exists x. tauto.
Qed.

Lemma in_filter_ids (f : summary_row -> bool) (rows : list summary_row) :
  NoDup (map summary_id rows) -> NoDup (map summary_id (filter f rows)).
Proof.
  induction rows as [|r rows IH]; cbn [filter map]; [auto|].
  intro N. inversion N as [|? ? NI N']; subst.
  destruct (f r); cbn [map]; [|now apply IH].
  constructor; [|now apply IH].
  intro I. apply NI. apply in_map_iff in I. destruct I as [x [E I]].
  apply filter_In in I. apply in_map_iff. exists x. tauto.
Qed.

Lemma NoDup_snoc (X : Type) (l : list X) (x : X) :
  NoDup l -> ~ In x l -> NoDup (l ++ [x]).
Proof.
  intros N I. apply NoDup_app; [exact N|constructor; [simpl; tauto|constructor]|].
  intros y Iy [E|[]]. subst. contradiction.
Qed.

(** Until the final commit the body of [store_analysis] leaves the
    committed state alone. *)
Lemma store_body_raised (kw : string) (articles : list article) (db : database)
      (c : connection) :
  store_articles e kw articles (connect db) >>> _update_summary e kw articles >>> commit
  = Raised c ->
  committed c = db.
Proof.
  destruct (store_articles e kw articles (connect db)) as [c1|c1] eqn:E1;
    cbn [and_then].
  - apply store_articles_summary in E1. destruct E1 as [_ [_ C]].
    unfold _update_summary.
    destruct (average_confidence articles) as [avg|]; cbn [and_then].
    + cbn. discriminate.
    + intro H. inversion H; subst. exact C.
  - apply store_articles_committed in E1. intro H. inversion H; subst. exact E1.
Qed.

Lemma consecutive_ids_distinct (base : Z) (n : nat) :
  forall start, NoDup (map (fun i => (base + 1 + Z.of_nat i)%Z) (seq start n)).
Proof.
  induction n as [|n IH]; intro start; cbn [seq map]; constructor; [|apply IH].
  intro I. apply in_map_iff in I. destruct I as [i [E I]].
  apply in_seq in I. lia.
Qed.

End StoreLemmas.

Section StoreProperties.

Import DataManager Schema Examples Cases.
Local Open Scope Q_scope.

(** X20.  A failed [store_analysis] stores nothing: when it returns False the
    database is the one before the call, however many articles had been
    inserted before the failing statement. *)
Theorem failed_store_changes_nothing :
  forall (e : environment) (kw : string) (articles : list article) (db : database),
    snd (store_analysis e kw articles db) = false ->
    fst (store_analysis e kw articles db) = db.
Proof.
  intros e kw articles db. unfold store_analysis, with_connection.
  destruct (_ >>> _ >>> commit) as [c|c] eqn:B; cbn [fst snd]; [discriminate|].
  intros _. exact (@store_body_raised _ _ _ _ _ B).
Qed.

(** The theorem at a batch whose second article has no title: the first
    article's row is not kept either. *)
Lemma broken_batch_stores_nothing :
  snd (store_analysis january "economy" broken_batch stored) = false
  /\ fst (store_analysis january "economy" broken_batch stored) = stored.
Proof.
  assert (F : snd (store_analysis january "economy" broken_batch stored) = false)
    by (vm_compute; reflexivity).
  split; [exact F|].
  exact (@failed_store_changes_nothing january "economy" broken_batch stored F).
Defined.

(** X21.  A successful [store_analysis] appends one row per article, in order,
    to [analysis_results] and changes no earlier row: the ids continue the
    sequence, each row carries the batch's keywords and the current
    timestamp, and its title, content, sentiment, confidence and details
    are the article's (with the defaults of [article.get]). *)
Theorem store_appends_one_row_per_article :
  forall (e : environment) (kw : string) (articles : list article) (db db' : database),
    store_analysis e kw articles db = (db', true) ->
    exists rows,
      analysis_results db' = (analysis_results db ++ rows)%list
      /\ results_sequence db'
         = (results_sequence db + Z.of_nat (List.length articles))%Z
      /\ map id rows
         = map (fun i => (results_sequence db + 1 + Z.of_nat i)%Z)
               (seq 0 (List.length articles))
      /\ Forall2 (fun a r =>
                    keywords r = kw
                    /\ created_at r = current_timestamp e
                    /\ required r = true
                    /\ adapt (get_default "title" (VStr "") a) = Some (title r)
                    /\ adapt (get_default "content" (VStr "") a) = Some (content r)
                    /\ adapt (get_default "sentiment" (VStr "") a)
                       = Some (DataManager.sentiment r)
                    /\ adapt (get_default "confidence" (VNum 0) a)
                       = Some (DataManager.confidence r)
                    /\ json_dumps e (get_default "details" (VDict []) a)
                       = Some (model_details r))
                 articles rows.
Proof.
  intros e kw articles db db'. unfold store_analysis, with_connection.
  destruct (store_articles e kw articles (connect db)) as [c1|c1] eqn:E1;
    cbn [and_then]; [|intro H; inversion H].
  apply store_articles_rows in E1. destruct E1 as [rows [R1 [R2 [R3 R4]]]].
  cbn [connect working] in R1, R2, R4.
  unfold _update_summary.
  destruct (average_confidence articles) as [avg|]; cbn [and_then];
    [|intro H; inversion H].
  cbn. intro H. inversion H; subst db'. clear H. cbn.
  exists rows. auto.
Qed.

(** The theorem at the afternoon batch: rows 2 and 3 are appended. *)
Lemma afternoon_batch_appends_two_rows :
  store_analysis january "economy" afternoon_batch stored = (evening, true)
  /\ exists rows,
       analysis_results evening = (analysis_results stored ++ rows)%list
       /\ results_sequence evening
          = (results_sequence stored + Z.of_nat (List.length afternoon_batch))%Z
       /\ map id rows
          = map (fun i => (results_sequence stored + 1 + Z.of_nat i)%Z)
                (seq 0 (List.length afternoon_batch))
       /\ Forall2 (fun a r =>
                     keywords r = "economy"%string
                     /\ created_at r = current_timestamp january
                     /\ required r = true
                     /\ adapt (get_default "title" (VStr "") a) = Some (title r)
                     /\ adapt (get_default "content" (VStr "") a) = Some (content r)
                     /\ adapt (get_default "sentiment" (VStr "") a)
                        = Some (DataManager.sentiment r)
                     /\ adapt (get_default "confidence" (VNum 0) a)
                        = Some (DataManager.confidence r)
                     /\ json_dumps january (get_default "details" (VDict []) a)
                        = Some (model_details r))
                  afternoon_batch rows.
Proof.
  assert (S : store_analysis january "economy" afternoon_batch stored = (evening, true))
    by (vm_compute; reflexivity).
  split; [exact S|].
  exact (@store_appends_one_row_per_article january "economy" afternoon_batch
                                            stored evening S).
Defined.

(** X22.  [store_analysis] keeps the declared constraints of both tables:
    unique ids below the sequences, the NOT NULL columns filled, and one
    summary row at most per (keywords, date). *)
Theorem store_preserves_constraints :
  forall (e : environment) (kw : string) (articles : list article) (db : database),
    constraints_hold db ->
    constraints_hold (fst (store_analysis e kw articles db)).
Proof.
  intros e kw articles db H.
  destruct (store_analysis e kw articles db) as [db' ok] eqn:S.
  destruct ok.
  2:{ unfold store_analysis, with_connection in S.
      destruct (_ >>> _ >>> commit) as [c|c] eqn:B; inversion S; subst.
      rewrite (@store_body_raised _ _ _ _ _ B). exact H. }
  cbn [fst].
  destruct (@store_analysis_summary e kw articles db db' S) as [avg [_ SM]].
  destruct H as [H1 [H2 [H3 [H4 [H5 H6]]]]].
  unfold store_analysis, with_connection in S.
  destruct (store_articles e kw articles (connect db)) as [c1|c1] eqn:E1;
    cbn [and_then] in S; [|inversion S].
  pose proof (store_articles_summary e _ _ _ E1) as [_ [SQ _]].
  apply store_articles_rows in E1. destruct E1 as [rows [R1 [R2 [R3 R4]]]].
  cbn [connect working] in R1, R2, R4, SQ.
  unfold _update_summary in S.
  destruct (average_confidence articles) as [avg'|]; cbn [and_then] in S;
    [|inversion S].
  cbn in S. injection S as S.
  assert (SS : summary_sequence db' = (summary_sequence db + 1)%Z)
    by (rewrite <- S; cbn; now rewrite SQ).
  assert (RR : analysis_results db' = (analysis_results db ++ rows)%list)
    by (rewrite <- S; cbn; exact R1).
  assert (RS : results_sequence db'
               = (results_sequence db + Z.of_nat (List.length articles))%Z)
    by (rewrite <- S; cbn; exact R2).
  clear S.
  unfold constraints_hold. rewrite RR, RS, SS, SM. repeat split.
  - rewrite map_app. apply NoDup_app; [exact H1| |].
    + rewrite R4. apply consecutive_ids_distinct.
    + intros x I1 I2. rewrite R4 in I2.
      apply in_map_iff in I1. destruct I1 as [r [E I1]]. apply H2 in I1.
      apply in_map_iff in I2. destruct I2 as [i [E2 _]]. lia.
  - intros r I. apply in_app_or in I. destruct I as [I|I].
    + apply H2 in I. lia.
    + assert (I' : In (id r) (map id rows)) by now apply in_map.
      rewrite R4 in I'. apply in_map_iff in I'. destruct I' as [i [E2 I2]].
      apply in_seq in I2. lia.
  - intros r I. apply in_app_or in I. destruct I as [I|I]; [now apply H3|].
    clear - R3 I. induction R3 as [|a r' l l' P F IH]; [contradiction|].
    destruct I as [I|I]; [subst; tauto|now apply IH].
  - rewrite map_app. apply NoDup_snoc; [now apply in_filter_ids|].
    cbn. intro I. apply in_map_iff in I. destruct I as [r [E I]].
    apply filter_In in I. destruct I as [I _]. apply H5 in I. lia.
  - intros r I. apply in_app_or in I. destruct I as [I|[I|[]]].
    + apply filter_In in I. destruct I as [I _]. apply H5 in I. lia.
    + subst r. cbn. lia.
  - rewrite map_app. apply NoDup_snoc; [now apply in_filter_keys|].
    cbn. intro I. apply in_map_iff in I. destruct I as [r [E I]].
    apply filter_In in I. destruct I as [_ I].
    inversion E as [[E1' E2']]. unfold same_key in I.
    rewrite E1', E2', !String.eqb_refl in I. discriminate.
Qed.

(** The theorem at the afternoon batch stored over the sample database. *)
Lemma afternoon_batch_keeps_constraints :
  constraints_hold stored
  /\ constraints_hold (fst (store_analysis january "economy" afternoon_batch stored)).
Proof.
  assert (H : constraints_hold stored).
  { unfold constraints_hold, stored. cbn [analysis_results analysis_summary
                                          results_sequence summary_sequence map].
    split; [repeat constructor; simpl; tauto|].
    split; [intros r [<-|[]]; simpl; lia|].
    split; [intros r [<-|[]]; reflexivity|].
    split; [repeat constructor; simpl; intuition discriminate|].
    split; [intros r [<-|[<-|[]]]; simpl; lia|].
    repeat constructor; simpl; intuition discriminate. }
  split; [exact H|].
  exact (@store_preserves_constraints january "economy" afternoon_batch stored H).
Defined.

(** X23.  The summary row of a successful [store_analysis]: its three counts
    together never exceed its total, and they add up to the total exactly
    when every article of the batch is labelled positive, negative or
    neutral. *)
Theorem summary_counts_partition_the_batch :
  forall (e : environment) (kw : string) (articles : list article) (db db' : database),
    store_analysis e kw articles db = (db', true) ->
    exists row,
      filter (same_key kw (today e)) (analysis_summary db') = [row]
      /\ total_articles row = List.length articles
      /\ (positive_count row + negative_count row + neutral_count row
          <= total_articles row)%nat
      /\ ((positive_count row + negative_count row + neutral_count row
           = total_articles row)%nat
          <-> forall a, In a articles ->
                exists s, get_default "sentiment" VNone a = VStr s /\ In s Spec.classes).
Proof.
  intros e kw articles db db' S.
  destruct (@store_analysis_summary e kw articles db db' S) as [avg [_ SM]].
  eexists. split.
  - rewrite SM. apply filter_replaced. apply same_key_new.
  - cbn. split; [reflexivity|]. apply counts_partition.
Qed.

(** The theorem at the afternoon batch: one positive and one negative
    article out of two. *)
Lemma afternoon_counts_add_up :
  store_analysis january "economy" afternoon_batch stored = (evening, true)
  /\ exists row,
       filter (same_key "economy" (today january)) (analysis_summary evening) = [row]
       /\ total_articles row = List.length afternoon_batch
       /\ (positive_count row + negative_count row + neutral_count row
           <= total_articles row)%nat
       /\ ((positive_count row + negative_count row + neutral_count row
            = total_articles row)%nat
           <-> forall a, In a afternoon_batch ->
                 exists s, get_default "sentiment" VNone a = VStr s
                           /\ In s Spec.classes).
Proof.
  assert (S : store_analysis january "economy" afternoon_batch stored = (evening, true))
    by (vm_compute; reflexivity).
  split; [exact S|].
  exact (@summary_counts_partition_the_batch january "economy" afternoon_batch
                                             stored evening S).
Defined.

End StoreProperties.

(* ================================================================== *)
(** * Fetching and de-duplicating articles *)
(* ================================================================== *)

Section FetcherLemmas.

Import Re NewsFetcher Order.

Variable T : tables.
Variable lower : text -> text.

Lemma text_eqb_eq (a b : text) : text_eqb a b = true <-> a = b.
Proof.
  revert b. induction a as [|x a IH]; intros [|y b]; cbn [text_eqb];
    try (split; [discriminate|discriminate]); [tauto|].
  rewrite andb_true_iff, N.eqb_eq, IH. split.
  - intros [E1 E2]. now subst.
  - intro E. inversion E. auto.
Qed.

Lemma text_eqb_refl (a : text) : text_eqb a a = true.
Proof. now apply text_eqb_eq. Qed.

Lemma text_eqb_sym (a b : text) : text_eqb a b = text_eqb b a.
Proof.
  destruct (text_eqb a b) eqn:E1, (text_eqb b a) eqn:E2; try reflexivity.
  - apply text_eqb_eq in E1. subst. now rewrite text_eqb_refl in E2.
  - apply text_eqb_eq in E2. subst. now rewrite text_eqb_refl in E1.
Qed.

Lemma seen_before_in (s : text) (seen : list text) :
  seen_before s seen = true <-> In s seen.
Proof.
  unfold seen_before. rewrite existsb_exists. split.
  - intros [x [I E]]. apply text_eqb_eq in E. now subst.
  - intro I. exists s. split; [exact I|apply text_eqb_refl].
Qed.

(** The accumulator of results only grows at its end. *)
Lemma remove_from_acc (articles : list article) :
  forall unique seen,
    remove_from T lower articles unique seen
    = match remove_from T lower articles [] seen with
      | Some kept => Some (unique ++ kept)
      | None => None
      end.
Proof.
  induction articles as [|a rest IH]; intros unique seen; cbn [remove_from].
  - now rewrite app_nil_r.
  - destruct (simplified_title T lower a) as [s|]; cbn [bind]; [|reflexivity].
    destruct (negb (seen_before s seen) && (10 <? List.length s)%nat).
    + rewrite (IH (unique ++ [a])), (IH ([] ++ [a])).
      destruct (remove_from T lower rest [] (s :: seen)); [|reflexivity].
      now rewrite <- app_assoc.
    + apply IH.
Qed.

(** The loop, one article at a time. *)
Lemma remove_from_cons (a : article) (rest : list article) (seen : list text) :
  remove_from T lower (a :: rest) [] seen
  = match simplified_title T lower a with
    | None => None
    | Some s =>
        if negb (seen_before s seen) && (10 <? List.length s)%nat
        then match remove_from T lower rest [] (s :: seen) with
             | Some kept => Some (a :: kept)
             | None => None
             end
        else remove_from T lower rest [] seen
    end.
Proof.
  cbn [remove_from]. destruct (simplified_title T lower a) as [s|]; cbn [bind];
    [|reflexivity].
  destruct (negb (seen_before s seen) && (10 <? List.length s)%nat); [|reflexivity].
  now rewrite remove_from_acc.
Qed.

Lemma remove_from_raises (articles : list article) :
  forall seen,
    remove_from T lower articles [] seen = None
    <-> exists a, In a articles /\ get_default "title" (FStr []) a = FNone.
Proof.
  induction articles as [|a rest IH]; intro seen.
  - split; [discriminate|]. intros [a [[] _]].
  - rewrite remove_from_cons.
    assert (N : simplified_title T lower a = None
                <-> get_default "title" (FStr []) a = FNone).
    { unfold simplified_title. destruct (get_default "title" (FStr []) a);
        split; congruence. }
    destruct (simplified_title T lower a) as [s|] eqn:E.
    + assert (N' : get_default "title" (FStr []) a <> FNone).
      { intro X. apply N in X. discriminate. }
      destruct (negb (seen_before s seen) && (10 <? List.length s)%nat).
      * specialize (IH (s :: seen)).
        destruct (remove_from T lower rest [] (s :: seen)).
        -- split; [discriminate|]. intros [b [[I|I] G]]; [subst; contradiction|].
           assert (X : Some l = None) by (apply IH; eauto). discriminate.
        -- split; [|reflexivity]. intros _.
           destruct (proj1 IH eq_refl) as [b [I G]]. exists b. simpl. auto.
      * rewrite IH. split; intros [b [I G]].
        -- exists b. simpl. auto.
        -- destruct I as [I|I]; [subst; contradiction|]. eauto.
    + split; [|reflexivity]. intros _. exists a. split; [simpl; auto|now apply N].
Qed.


Lemma has_title_self (a : article) (s : text) :
  simplified_title T lower a = Some s -> has_title T lower s a = true.
Proof. unfold has_title. intro E. rewrite E. apply text_eqb_refl. Qed.

Lemma has_title_other (a : article) (s s' : text) :
  simplified_title T lower a = Some s -> s' <> s -> has_title T lower s' a = false.
Proof.
  unfold has_title. intros E N. rewrite E.
  destruct (text_eqb s s') eqn:X; [|reflexivity].
  apply text_eqb_eq in X. congruence.
Qed.

(** What the loop keeps, for any set of titles already seen: a
    subsequence of the articles; of the articles with a title [s], the
    first one when [s] is new and longer than 10, none otherwise. *)
Lemma remove_from_spec (articles : list article) :
  forall seen kept,
    remove_from T lower articles [] seen = Some kept ->
    subsequence kept articles
    /\ (forall s,
           filter (has_title T lower s) kept
           = if seen_before s seen || negb (10 <? List.length s)%nat
             then []
             else firstn 1 (filter (has_title T lower s) articles))
    /\ remove_from T lower kept [] seen = Some kept.
Proof.
  induction articles as [|a rest IH]; intros seen kept.
  - cbn [remove_from]. intro H. inversion H; subst kept.
    split; [constructor|]. split; [|reflexivity].
    intro s. cbn. now destruct (_ || _).
  - rewrite remove_from_cons.
    destruct (simplified_title T lower a) as [s0|] eqn:E; [|discriminate].
    destruct (negb (seen_before s0 seen) && (10 <? List.length s0)%nat) eqn:C.
    + destruct (remove_from T lower rest [] (s0 :: seen)) as [kept1|] eqn:R;
        [|discriminate].
      intro H. inversion H; subst kept. clear H.
      destruct (IH _ _ R) as [S [F I]].
      apply andb_true_iff in C. destruct C as [C1 C2].
      apply negb_true_iff in C1.
      split; [now apply sub_keep|]. split.
      * intro s. cbn [filter].
        destruct (list_eq_dec N.eq_dec s s0) as [Q|Q].
        -- subst s. rewrite (has_title_self _ E), C1, C2. cbn.
           rewrite F. cbn [seen_before existsb]. now rewrite text_eqb_refl.
        -- rewrite (has_title_other _ E Q), F. cbn [seen_before existsb].
           assert (X : text_eqb s s0 = false).
           { destruct (text_eqb s s0) eqn:X; [|reflexivity].
             apply text_eqb_eq in X. contradiction. }
           now rewrite X.
      * rewrite remove_from_cons, E, C1, C2. cbn. now rewrite I.
    + intro H. destruct (IH _ _ H) as [S [F I]].
      split; [now apply sub_skip|]. split; [|exact I].
      intro s. cbn [filter]. rewrite F.
      destruct (list_eq_dec N.eq_dec s s0) as [Q|Q].
      * subst s. apply andb_false_iff in C.
        rewrite (has_title_self _ E).
        destruct C as [C|C]; [apply negb_false_iff in C; now rewrite C|].
        rewrite C. cbn. now rewrite orb_true_r.
      * now rewrite (has_title_other _ E Q).
Qed.

Lemma subsequence_in (A : Type) (l m : list A) :
  subsequence l m -> incl l m.
Proof.
  induction 1 as [|x l m S IH|x l m S IH]; intros y I.
  - exact I.
  - right. now apply IH.
  - destruct I as [I|I]; [now left|right; now apply IH].
Qed.

Lemma subsequence_length (A : Type) (l m : list A) :
  subsequence l m -> (List.length l <= List.length m)%nat.
Proof. induction 1; simpl; lia. Qed.

Lemma subsequence_refl (A : Type) (l : list A) : subsequence l l.
Proof. induction l; [apply sub_nil|now apply sub_keep]. Qed.

Lemma subsequence_firstn (A : Type) (n : nat) (l : list A) : subsequence (firstn n l) l.
Proof.
  revert n. induction l as [|x l IH]; intros [|n]; cbn [firstn].
  - apply sub_nil.
  - apply sub_nil.
  - apply sub_skip. apply (IH 0%nat).
  - apply sub_keep. apply IH.
Qed.

Lemma subsequence_trans (A : Type) (l m n : list A) :
  subsequence l m -> subsequence m n -> subsequence l n.
Proof.
  intros S1 S2. revert l S1.
  induction S2 as [|x m n S IH|x m n S IH]; intros l S1.
  - exact S1.
  - apply sub_skip. now apply IH.
  - inversion S1; subst.
    + apply sub_skip. now apply IH.
    + apply sub_keep. now apply IH.
Qed.


(** ** The title an article is compared by *)

(** [re.sub(r'[^\w\s]', '', s)] is a filter. *)
Lemma sub_symbol_filter (s : text) :
  forall fuel, (List.length s <= fuel)%nat ->
    sub_from (symbol_pattern T) [] fuel s
    = filter (fun c => isword T c || isspace T c) s.
Proof.
  induction s as [|x rest IH]; intros fuel L.
  - destruct fuel; reflexivity.
  - destruct fuel as [|fuel]; simpl in L; [lia|].
    cbn [sub_from filter]. unfold match_at, symbol_pattern. cbn [matches].
    fold (symbol_pattern T).
    destruct (isword T x || isspace T x); cbn; rewrite IH by lia; reflexivity.
Qed.

Lemma split_whitespace_words (s : text) :
  forall word,
    (forall c, In c word -> isspace T c = false) ->
    Forall (fun w => w <> []
                     /\ forall c, In c w -> isspace T c = false /\ In c (word ++ s))
           (split_whitespace T word s).
Proof.
  induction s as [|x rest IH]; intros word W; cbn [split_whitespace].
  - destruct word as [|y word]; constructor; [|constructor].
    split; [discriminate|]. intros c I. split; [now apply W|now rewrite app_nil_r].
  - destruct (isspace T x) eqn:E.
    + assert (R : Forall (fun w => w <> []
                                   /\ forall c, In c w ->
                                        isspace T c = false /\ In c (word ++ x :: rest))
                         (split_whitespace T [] rest)).
      { eapply Forall_impl; [|apply (IH []); intros c []].
        cbn. intros w [N I]. split; [exact N|]. intros c Ic.
        destruct (I c Ic) as [I1 I2]. split; [exact I1|].
        apply in_or_app. right. now right. }
      destruct word as [|y word]; [exact R|].
      constructor; [|exact R]. split; [discriminate|].
      intros c I. split; [now apply W|]. apply in_or_app. now left.
    + eapply Forall_impl; [|apply (IH (word ++ [x]))].
      * cbn. intros w [N I]. split; [exact N|]. intros c Ic.
        destruct (I c Ic) as [I1 I2]. split; [exact I1|].
        now rewrite <- app_assoc in I2.
      * intros c I. apply in_app_or in I. destruct I as [I|[I|[]]]; [now apply W|].
        now subst.
Qed.

Lemma space_is_space : isspace T (ch " ") = true.
Proof. reflexivity. Qed.

Lemma double_space_word (w rest : text) (c : char) :
  w <> [] ->
  (forall x, In x w -> isspace T x = false) ->
  isspace T c = false ->
  Spec.double_space (c :: rest) = false ->
  Spec.double_space (w ++ ch " " :: c :: rest) = false.
Proof.
  intros N W C D.
  assert (NS : forall x, isspace T x = false -> N.eqb x (ch " ") = false).
  { intros x X. destruct (N.eqb x (ch " ")) eqn:Q; [|reflexivity].
    apply N.eqb_eq in Q. subst. rewrite space_is_space in X. discriminate. }
  induction w as [|x w IH]; [congruence|].
  destruct w as [|y w].
  - cbn [app]. rewrite double_space_two, (NS x) by (apply W; simpl; auto).
    cbn [andb orb]. rewrite double_space_two, (NS c C), andb_false_r. exact D.
  - change ((x :: y :: w) ++ ch " " :: c :: rest)
      with (x :: y :: (w ++ ch " " :: c :: rest)).
    rewrite double_space_two, (NS x) by (apply W; simpl; auto).
    cbn [andb orb]. apply IH; [discriminate|].
    intros z I. apply W. now right.
Qed.

Lemma double_space_single (w : text) :
  (forall x, In x w -> isspace T x = false) -> Spec.double_space w = false.
Proof.
  intro W.
  assert (NS : forall x, isspace T x = false -> N.eqb x (ch " ") = false).
  { intros x X. destruct (N.eqb x (ch " ")) eqn:Q; [|reflexivity].
    apply N.eqb_eq in Q. subst. rewrite space_is_space in X. discriminate. }
  induction w as [|x w IH]; [reflexivity|].
  destruct w as [|y w]; [reflexivity|].
  rewrite double_space_two, (NS x) by (apply W; simpl; auto).
  cbn [andb orb]. apply IH. intros z I. apply W. now right.
Qed.

(** Words joined by single spaces. *)
Lemma join_words_shape (words : list text) :
  Forall (fun w => w <> [] /\ forall c, In c w -> isspace T c = false) words ->
  (forall c, In c (join [ch " "] words) ->
             c = ch " " \/ exists w, In w words /\ In c w)
  /\ Spec.double_space (join [ch " "] words) = false
  /\ match join [ch " "] words with
     | c :: _ => isspace T c = false
     | [] => words = []
     end
  /\ match rev (join [ch " "] words) with
     | c :: _ => isspace T c = false
     | [] => True
     end.
Proof.
  induction 1 as [|w rest [N W] F IH]; [cbn; repeat split; tauto|].
  destruct IH as [I1 [I2 [I3 I4]]].
  destruct rest as [|w2 rest].
  - cbn [join]. split; [intros c I; right; exists w; simpl; auto|].
    split; [now apply double_space_single|]. split.
    + destruct w as [|c w]; [congruence|]. apply W. simpl; auto.
    + destruct (rev w) as [|c r] eqn:R; [exact I|].
      apply W. apply in_rev. rewrite R. simpl; auto.
  - change (join [ch " "] (w :: w2 :: rest))
      with (w ++ [ch " "] ++ join [ch " "] (w2 :: rest)).
    set (j := join [ch " "] (w2 :: rest)) in *.
    destruct j as [|c j'] eqn:J; [discriminate|].
    split; [|split; [|split]].
    + intros x I. apply in_app_or in I. destruct I as [I|[I|I]].
      * right. exists w. simpl; auto.
      * now left.
      * destruct (I1 x I) as [E|[w' [Iw Ic]]]; [now left|].
        right. exists w'. split; [now right|exact Ic].
    + cbn [app]. now apply double_space_word.
    + destruct w as [|x w]; [congruence|]. cbn [app]. apply W. simpl; auto.
    + rewrite !rev_app_distr. destruct (rev (c :: j')) as [|y r] eqn:R.
      * apply (f_equal (@List.length char)) in R. rewrite length_rev in R. discriminate.
      * cbn [app]. exact I4.
Qed.

Lemma filter_firstn_length (A : Type) (f : A -> bool) (n : nat) (l : list A) :
  (List.length (filter f (firstn n l)) <= List.length (filter f l))%nat.
Proof.
  revert n. induction l as [|x l IH]; intros [|n]; cbn [firstn filter List.length];
    try lia.
  specialize (IH n). destruct (f x); cbn [List.length]; lia.
Qed.

Lemma slice_to_firstn (A : Type) (limit : Z) (l : list A) :
  exists n, slice_to limit l = firstn n l /\ ((0 <= limit)%Z -> n = Z.to_nat limit).
Proof.
  unfold slice_to. destruct (Z.leb_spec 0 limit).
  - eexists. split; [reflexivity|auto].
  - eexists. split; [reflexivity|]. lia.
Qed.

(** Each round appends what the back end returned, if anything. *)
Lemma fetch_from_agree (B B' : backends) (keywords : text) (n : Z)
      (acc : list article) (source : string) :
  newsapi_client B = newsapi_client B' ->
  match _fetch_from_newsapi B keywords n with Some l => l | None => [] end
  = match _fetch_from_newsapi B' keywords n with Some l => l | None => [] end ->
  match _fetch_from_rss B keywords n with Some l => l | None => [] end
  = match _fetch_from_rss B' keywords n with Some l => l | None => [] end ->
  match _fetch_from_web B keywords n with Some l => l | None => [] end
  = match _fetch_from_web B' keywords n with Some l => l | None => [] end ->
  fetch_from B keywords n acc source = fetch_from B' keywords n acc source.
Proof.
  intros C N R W. unfold fetch_from. rewrite <- C.
  destruct (String.eqb source "newsapi" && newsapi_client B).
  - destruct (_fetch_from_newsapi B keywords n), (_fetch_from_newsapi B' keywords n);
      subst; rewrite ?app_nil_r; congruence.
  - destruct (String.eqb source "rss").
    + destruct (_fetch_from_rss B keywords n), (_fetch_from_rss B' keywords n);
        subst; rewrite ?app_nil_r; congruence.
    + destruct (String.eqb source "web"); [|reflexivity].
      destruct (_fetch_from_web B keywords n), (_fetch_from_web B' keywords n);
        subst; rewrite ?app_nil_r; congruence.
Qed.

End FetcherLemmas.

Section FetcherProperties.

Import Re NewsFetcher Order Cases.

(** X24.  [_remove_duplicates] keeps a subsequence of the articles: of the
    articles compared by the same simplified title it keeps the first
    one when that title has more than 10 characters, and none otherwise. *)
Theorem first_article_of_each_title_is_kept :
  forall (T : tables) (lower : text -> text) (articles kept : list article),
    _remove_duplicates T lower articles = Some kept ->
    subsequence kept articles
    /\ forall s,
         filter (has_title T lower s) kept
         = if (10 <? List.length s)%nat
           then firstn 1 (filter (has_title T lower s) articles)
           else [].
Proof.
  intros T lower articles kept H.
  destruct (remove_from_spec _ _ _ _ H) as [S [F _]].
  split; [exact S|]. intro s. rewrite F. cbn [seen_before existsb orb].
  now destruct (10 <? List.length s)%nat.
Qed.

(** The theorem at four articles of which the second repeats the first
    and the third has a short title. *)
Lemma wire_keeps_first_and_fourth :
  _remove_duplicates latin1 ascii_lower wire = Some wire_kept
  /\ subsequence wire_kept wire
  /\ forall s,
       filter (has_title latin1 ascii_lower s) wire_kept
       = if (10 <? List.length s)%nat
         then firstn 1 (filter (has_title latin1 ascii_lower s) wire)
         else [].
Proof.
  assert (E : _remove_duplicates latin1 ascii_lower wire = Some wire_kept)
    by (vm_compute; reflexivity).
  split; [exact E|].
  exact (@first_article_of_each_title_is_kept latin1 ascii_lower wire wire_kept E).
Defined.

(** X25.  Removing duplicates a second time changes nothing. *)
Theorem remove_duplicates_is_idempotent :
  forall (T : tables) (lower : text -> text) (articles kept : list article),
    _remove_duplicates T lower articles = Some kept ->
    _remove_duplicates T lower kept = Some kept.
Proof.
  intros T lower articles kept H.
  exact (proj2 (proj2 (remove_from_spec _ _ _ _ H))).
Qed.

(** The theorem at the same four articles. *)
Lemma wire_kept_is_stable :
  _remove_duplicates latin1 ascii_lower wire = Some wire_kept
  /\ _remove_duplicates latin1 ascii_lower wire_kept = Some wire_kept.
Proof.
  assert (E : _remove_duplicates latin1 ascii_lower wire = Some wire_kept)
    by (vm_compute; reflexivity).
  split; [exact E|].
  exact (@remove_duplicates_is_idempotent latin1 ascii_lower wire wire_kept E).
Defined.

(** X26.  [_remove_duplicates] raises (AttributeError) exactly when some
    article carries the title None; a missing title counts as ''. *)
Theorem remove_duplicates_raises_on_null_title :
  forall (T : tables) (lower : text -> text) (articles : list article),
    _remove_duplicates T lower articles = None
    <-> exists a, In a articles /\ get_default "title" (FStr []) a = FNone.
Proof.
  intros T lower articles. apply remove_from_raises.
Qed.

(** X27.  The title articles are compared by is made of word characters and
    single U+0020 spaces, with no space at either end. *)
Theorem simplified_title_is_words_and_single_spaces :
  forall (T : tables) (lower : text -> text) (a : article) (s : text),
    simplified_title T lower a = Some s ->
    (forall c, In c s -> isword T c = true \/ c = ch " ")
    /\ Spec.double_space s = false
    /\ strip T s = s.
Proof.
  intros T lower a s.
  unfold simplified_title.
  destruct (get_default "title" (FStr []) a) as [|t]; [discriminate|].
  intro H. inversion H; subst s. clear H.
  unfold sub. rewrite sub_symbol_filter by lia.
  set (filtered := filter _ _).
  pose proof (@split_whitespace_words T filtered [] ltac:(intros c [])) as W.
  cbn [app] in W.
  assert (W' : Forall (fun w => w <> [] /\ forall c, In c w -> isspace T c = false)
                      (split_whitespace T [] filtered)).
  { eapply Forall_impl; [|exact W]. cbn. intros w [N I]. split; [exact N|].
    intros c Ic. exact (proj1 (I c Ic)). }
  destruct (@join_words_shape T _ W') as [J1 [J2 [J3 J4]]].
  split; [|split; [exact J2|]].
  - intros c I. destruct (J1 c I) as [E|[w [Iw Ic]]]; [now right|]. left.
    rewrite Forall_forall in W. destruct (W w Iw) as [_ X].
    destruct (X c Ic) as [X1 X2]. unfold filtered in X2.
    apply filter_In in X2. destruct X2 as [_ X2]. rewrite X1, orb_false_r in X2.
    exact X2.
  - unfold strip, rstrip.
    set (j := join [ch " "] (split_whitespace T [] filtered)) in *.
    assert (L : lstrip T j = j).
    { apply lstrip_fixed. destruct j; [exact I|exact J3]. }
    change (rev (lstrip T (rev (lstrip T j))) = j).
    rewrite L. rewrite (@lstrip_fixed T (rev j)); [apply rev_involutive|exact J4].
Qed.

(** The theorem at a title in capitals with a comma and an exclamation
    mark. *)
Lemma shouted_title_is_simplified :
  simplified_title latin1 ascii_lower (story "MARKETS RALLY, as rates fall!")
  = Some (codes "markets rally as rates fall")
  /\ (forall c, In c (codes "markets rally as rates fall") ->
                isword latin1 c = true \/ c = ch " ")
  /\ Spec.double_space (codes "markets rally as rates fall") = false
  /\ strip latin1 (codes "markets rally as rates fall")
     = codes "markets rally as rates fall".
Proof.
  assert (E : simplified_title latin1 ascii_lower (story "MARKETS RALLY, as rates fall!")
              = Some (codes "markets rally as rates fall"))
    by (vm_compute; reflexivity).
  split; [exact E|].
  exact (@simplified_title_is_words_and_single_spaces
           latin1 ascii_lower (story "MARKETS RALLY, as rates fall!")
           (codes "markets rally as rates fall") E).
Defined.

(** X28.  [fetch_news] raises exactly when the list of sources is empty
    (ZeroDivisionError) or some fetched article carries the title None. *)
Theorem fetch_news_raises_iff :
  forall (B : backends) (T : tables) (lower : text -> text) (keywords : text)
         (sources : option (list string)) (limit : Z),
    fetch_news B T lower keywords sources limit = None
    <-> sources = Some []
        \/ exists fetched a,
             all_articles B keywords sources limit = Some fetched
             /\ In a fetched /\ get_default "title" (FStr []) a = FNone.
Proof.
  intros B T lower keywords sources limit. unfold fetch_news.
  destruct (all_articles B keywords sources limit) as [fetched|] eqn:A; cbn [bind].
  - assert (NE : sources <> Some []).
    { intro E. subst. discriminate. }
    destruct (_remove_duplicates T lower fetched) as [kept|] eqn:R; cbn [bind].
    + split; [discriminate|]. intros [E|[f [a [E [I G]]]]]; [contradiction|].
      inversion E; subst f.
      assert (X : _remove_duplicates T lower fetched = None)
        by (apply remove_from_raises; eauto).
      congruence.
    + split; [|reflexivity]. intros _. right.
      apply remove_from_raises in R. destruct R as [a [I G]]. eauto.
  - split; [|reflexivity]. intros _. left.
    unfold all_articles in A. destruct sources as [[|x l]|]; try discriminate.
    reflexivity.
Qed.

(** X29.  What [fetch_news] returns is drawn, in order, from what the sources
    returned; no two of its articles are compared by the same title,
    every title has more than 10 characters, and for a limit of 0 or more
    there are at most [limit] articles. *)
Theorem fetch_news_result_is_limited_and_distinct :
  forall (B : backends) (T : tables) (lower : text -> text) (keywords : text)
         (sources : option (list string)) (limit : Z) (result : list article),
    fetch_news B T lower keywords sources limit = Some result ->
    exists fetched,
      all_articles B keywords sources limit = Some fetched
      /\ subsequence result fetched
      /\ ((0 <= limit)%Z -> (Z.of_nat (List.length result) <= limit)%Z)
      /\ (forall s, (List.length (filter (has_title T lower s) result) <= 1)%nat)
      /\ (forall a, In a result ->
            exists s, simplified_title T lower a = Some s /\ (10 < List.length s)%nat).
Proof.
  intros B T lower keywords sources limit result. unfold fetch_news.
  destruct (all_articles B keywords sources limit) as [fetched|]; cbn [bind];
    [|discriminate].
  destruct (_remove_duplicates T lower fetched) as [kept|] eqn:R; cbn [bind];
    [|discriminate].
  intro H. inversion H; subst result. clear H.
  destruct (remove_from_spec _ _ _ _ R) as [S [F I]].
  destruct (slice_to_firstn limit kept) as [n [E L]]. rewrite E.
  exists fetched. split; [reflexivity|].
  split; [eapply subsequence_trans; [apply subsequence_firstn|exact S]|].
  split; [|split].
  - intro P. rewrite (L P), length_firstn. lia.
  - intro s. pose proof (filter_firstn_length (has_title T lower s) n kept) as X.
    rewrite F in X. cbn [seen_before existsb orb] in X.
    destruct (negb (10 <? List.length s)%nat); [cbn in X; lia|].
    rewrite length_firstn in X. lia.
  - intros a Ia.
    assert (Ik : In a kept) by (eapply subsequence_in; [apply subsequence_firstn|exact Ia]).
    destruct (simplified_title T lower a) as [s|] eqn:Q.
    + exists s. split; [reflexivity|].
      pose proof (F s) as Fs. cbn [seen_before existsb orb] in Fs.
      destruct (10 <? List.length s)%nat eqn:C; [now apply Nat.ltb_lt|].
      cbn in Fs.
      assert (X : In a (filter (has_title T lower s) kept)).
      { apply filter_In. split; [exact Ik|]. now apply has_title_self. }
      rewrite Fs in X. contradiction.
    + exfalso.
      assert (X : remove_from T lower kept [] [] = None).
      { apply remove_from_raises. exists a. split; [exact Ik|].
        unfold simplified_title in Q.
        destruct (get_default "title" (FStr []) a); [reflexivity|discriminate]. }
      unfold _remove_duplicates in *. congruence.
Qed.

(** The theorem at three sources of which only RSS answers, with a limit
    of 12 (4 per source). *)
Lemma wire_is_fetched_without_duplicates :
  fetch_news feeds latin1 ascii_lower (codes "markets")
             (Some ["newsapi"; "rss"; "web"]%string) 12
  = Some wire_kept
  /\ exists fetched,
       all_articles feeds (codes "markets") (Some ["newsapi"; "rss"; "web"]%string) 12
       = Some fetched
       /\ subsequence wire_kept fetched
       /\ ((0 <= 12)%Z -> (Z.of_nat (List.length wire_kept) <= 12)%Z)
       /\ (forall s,
             (List.length (filter (has_title latin1 ascii_lower s) wire_kept) <= 1)%nat)
       /\ (forall a, In a wire_kept ->
             exists s, simplified_title latin1 ascii_lower a = Some s
                       /\ (10 < List.length s)%nat).
Proof.
  assert (E : fetch_news feeds latin1 ascii_lower (codes "markets")
                         (Some ["newsapi"; "rss"; "web"]%string) 12
              = Some wire_kept) by (vm_compute; reflexivity).
  split; [exact E|].
  exact (@fetch_news_result_is_limited_and_distinct
           feeds latin1 ascii_lower (codes "markets")
           (Some ["newsapi"; "rss"; "web"]%string) 12 wire_kept E).
Defined.

(** X30.  [fetch_news] sees the back ends only through what they return for a
    per-source limit of 1 or more, and a back end that raises counts as
    one that returns nothing: two sets of back ends that agree to that
    extent give the same answer. *)
Theorem backends_matter_only_through_their_answers :
  forall (B B' : backends) (T : tables) (lower : text -> text) (keywords : text)
         (sources : option (list string)) (limit : Z),
    newsapi_client B = newsapi_client B' ->
    (forall n, (1 <= n)%Z ->
       match _fetch_from_newsapi B keywords n with Some l => l | None => [] end
       = match _fetch_from_newsapi B' keywords n with Some l => l | None => [] end) ->
    (forall n, (1 <= n)%Z ->
       match _fetch_from_rss B keywords n with Some l => l | None => [] end
       = match _fetch_from_rss B' keywords n with Some l => l | None => [] end) ->
    (forall n, (1 <= n)%Z ->
       match _fetch_from_web B keywords n with Some l => l | None => [] end
       = match _fetch_from_web B' keywords n with Some l => l | None => [] end) ->
    fetch_news B T lower keywords sources limit
    = fetch_news B' T lower keywords sources limit.
Proof.
  intros B B' T lower keywords sources limit C N R W.
  unfold fetch_news, all_articles.
  set (srcs := match sources with Some s => s | None => default_sources end).
  destruct srcs as [|x l] eqn:E; [reflexivity|].
  set (n := Z.max 1 _).
  assert (Pn : (1 <= n)%Z) by (unfold n; lia).
  assert (X : forall ss acc,
             fold_left (fetch_from B keywords n) ss acc
             = fold_left (fetch_from B' keywords n) ss acc).
  { induction ss as [|y ss IH]; intro acc; cbn [fold_left]; [reflexivity|].
    rewrite (@fetch_from_agree B B' keywords n acc y C (N n Pn) (R n Pn) (W n Pn)).
    apply IH. }
  now rewrite X.
Qed.

(** The theorem at two sets of back ends that differ in how they fail
    and in what RSS does below a limit of 1. *)
Lemma tidy_feeds_answer_like_feeds :
  fetch_news feeds latin1 ascii_lower (codes "markets") None 0
  = fetch_news tidy_feeds latin1 ascii_lower (codes "markets") None 0.
Proof.
  assert (C : newsapi_client feeds = newsapi_client tidy_feeds) by reflexivity.
  assert (N : forall n, (1 <= n)%Z ->
     match _fetch_from_newsapi feeds (codes "markets") n with Some l => l | None => [] end
     = match _fetch_from_newsapi tidy_feeds (codes "markets") n with
       | Some l => l
       | None => []
       end) by reflexivity.
  assert (R : forall n, (1 <= n)%Z ->
     match _fetch_from_rss feeds (codes "markets") n with Some l => l | None => [] end
     = match _fetch_from_rss tidy_feeds (codes "markets") n with
       | Some l => l
       | None => []
       end).
  { intros n P. cbn [_fetch_from_rss feeds tidy_feeds].
    destruct (Z.ltb_spec n 1); [lia|reflexivity]. }
  assert (W : forall n, (1 <= n)%Z ->
     match _fetch_from_web feeds (codes "markets") n with Some l => l | None => [] end
     = match _fetch_from_web tidy_feeds (codes "markets") n with
       | Some l => l
       | None => []
       end) by reflexivity.
  exact (@backends_matter_only_through_their_answers
           feeds tidy_feeds latin1 ascii_lower (codes "markets") None 0 C N R W).
Defined.

End FetcherProperties.
